(** * Speed-camera detector backend: the proximity store and its ingestion paths

    A shallow embedding of the parts of the backend that decide how camera,
    hazard and zone records are created, deduplicated, queried and deleted:

    - [database/models.py]   the rows of each table, with their column defaults;
    - [database/queries.py]  the nearby queries, [create_speed_camera],
                             [create_hazard_detection] and the two functions
                             that create a zone;
    - [database/import_data.py], [database/import_zones.py]  the bulk imports
                             of cameras, speed limits and zones, and the
                             import script;
    - [backend/main.py]      [create_camera], [delete_camera], the cameras
                             endpoint, the combined navigation endpoint,
                             [create_hazard], [detect_and_save_hazard],
                             [register], [login] and [get_current_user].

    PostgreSQL/PostGIS, SQLAlchemy, [bcrypt], the detection model and
    Python's builtins are outside the repository.  The store is a list of
    rows per table, a SELECT is a pipeline of list operations, [ST_Distance],
    the hash functions and the builtin parsers are parameters, and Python
    floats are read as rationals.  Of the constraints of the
    tables, the CHECK on [confidence_score], the primary and unique keys
    and the rounding of a hazard's score to the two decimals of
    [Numeric(3, 2)] are part of the definitions.  The other limits of the
    columns ([String(50)], 32-bit [Integer], text without NUL, a point of
    the globe) are not: a write in the definitions is a write that the
    database accepts.  The predicates [camera_fits], [record_fits],
    [request_fits], [hazard_values_fit] and [hazard_fits] say which values
    those are, and the statements on what a write stores carry them as
    hypotheses. *)

From Stdlib Require Import QArith Qabs ZArith DecimalString.
From stdpp Require Import base gmap strings list sorting pretty.

Local Open Scope Q_scope.

(** ** Exceptions *)

(** What an [await] may produce: a value, or a raised exception. *)
Inductive Exc (E A : Type) : Type :=
| Ok (a : A)
| Raise (e : E).
Arguments Ok {E A} a.
Arguments Raise {E A} e.

Global Instance Exc_ret {E} : MRet (Exc E) := λ A a, Ok a.

Global Instance Exc_bind {E} : MBind (Exc E) := λ A B k m,
  match m with
  | Ok a => k a
  | Raise e => Raise e
  end.

(** Python's [try: m / except Exception as e: h e]. *)
Definition try_except {E F A} (m : Exc E A) (h : E → Exc F A) : Exc F A :=
  match m with
  | Ok a => Ok a
  | Raise e => h e
  end.

(** A [for] loop that builds a list and stops at the first exception. *)
Fixpoint for_each {E A B} (f : A → Exc E B) (l : list A) : Exc E (list B) :=
  match l with
  | [] => mret []
  | x :: l' => y ← f x; ys ← for_each f l'; mret (y :: ys)
  end.

(** ** Column types *)

Definition UUID := N.
(** [DateTime(timezone=True)]: seconds since the epoch. *)
Definition DateTime := Z.

(** [Geography(geometry_type=..., srid=4326)] values. *)
Inductive Geography : Type :=
| POINT (x y : Q)
| LINESTRING (points : list (Q * Q)).

(** [ST_SetSRID(ST_MakePoint(longitude, latitude), 4326)] *)
Definition ST_MakePoint (longitude latitude : Q) : Geography :=
  POINT longitude latitude.

(** [ST_SetSRID(ST_MakeLine(ARRAY[ST_MakePoint(lon, lat) for lat, lon in coordinates]), 4326)] *)
Definition ST_MakeLine (coordinates : list (Q * Q)) : Geography :=
  LINESTRING (map (λ c, (c.2, c.1)) coordinates).

Global Instance Qle_decision (x y : Q) : Decision (x <= y).
Proof.
  destruct (Qlt_le_dec y x) as [Hlt | Hle].
  - right. apply Qlt_not_le, Hlt.
  - left. exact Hle.
Defined.

Global Instance Qlt_decision (x y : Q) : Decision (x < y).
Proof.
  destruct (Qlt_le_dec x y) as [Hlt | Hle].
  - left. exact Hlt.
  - right. apply Qle_not_lt, Hle.
Defined.

(** What a [Numeric(3, 2)] column keeps of a value written to it:
    PostgreSQL rounds to two decimals, a half away from zero. *)
Definition Numeric_3_2 (value : Q) : Q :=
  let n := (Qnum value * 100)%Z in
  let d := Zpos (Qden value) in
  let hundredths :=
    if decide (0 ≤ n)%Z then ((2 * n + d) `div` (2 * d))%Z
    else (- ((2 * - n + d) `div` (2 * d)))%Z in
  hundredths # 100.
Global Arguments Numeric_3_2 : simpl never.

(** ** Tables ([database/models.py])

    One module per mapped class, so that a column reads [SpeedCamera.id] as
    in the source.  Nullable columns are options; [None] is SQL NULL. *)

Module User.
Record t : Type := {
  id : UUID;
  email : string;
  username : string;
}.

(** The whole row of [users]: the columns above, which identify the user
    to the camera endpoints, and the columns of the account. *)
Record row : Type := {
  user : t;
  password_hash : string;
  full_name : option string;
  phone_number : option string;
  profile_photo_url : option string;
  trips_count : option Z;
  is_active : option bool;
  is_verified : option bool;
  created_at : DateTime;
}.
End User.

Module SpeedCamera.
Record t : Type := {
  id : UUID;
  location : Geography;
  speed_limit_kmh : Z;
  camera_type : string;
  direction_degrees : option Z;
  verified : option bool;
  verification_count : option Z;
  confidence_score : option Q;
  reported_by : option UUID;
  notes : option string;
}.

(** The constructor call [SpeedCamera(...)] followed by its INSERT.  For
    the three columns with a [default=], [None] is a keyword the call
    leaves out: the column takes its default.  The score is kept with the
    two decimals of its column. *)
Definition insert (uuid4 : UUID) (location : Geography)
    (speed_limit_kmh : Z) (camera_type : string)
    (direction_degrees : option Z) (verified : option bool)
    (verification_count : option Z) (confidence_score : option Q)
    (reported_by : option UUID) (notes : option string) : t :=
  {| id := uuid4;
     location := location;
     speed_limit_kmh := speed_limit_kmh;
     camera_type := camera_type;
     direction_degrees := direction_degrees;
     verified := Some (default false verified);
     verification_count := Some (default 0%Z verification_count);
     confidence_score := Some (Numeric_3_2 (default 0.50 confidence_score));
     reported_by := reported_by;
     notes := notes |}.
End SpeedCamera.

Module RoadSpeedLimit.
Record t : Type := {
  id : UUID;
  road_segment : Geography;
  speed_limit_kmh : Z;
  road_name : option string;
  road_type : option string;
  direction : option string;
  verified : option bool;
  verification_count : option Z;
  confidence_score : option Q;
  reported_by : option UUID;
  notes : option string;
}.

(** The constructor call [RoadSpeedLimit(...)] followed by its INSERT; for
    the three columns with a [default=], [None] is a keyword the call
    leaves out.  The score is kept with the two decimals of its column. *)
Definition insert (uuid4 : UUID) (road_segment : Geography)
    (speed_limit_kmh : Z) (road_name road_type direction : option string)
    (verified : option bool) (verification_count : option Z)
    (confidence_score : option Q) (reported_by : option UUID)
    (notes : option string) : t :=
  {| id := uuid4;
     road_segment := road_segment;
     speed_limit_kmh := speed_limit_kmh;
     road_name := road_name;
     road_type := road_type;
     direction := direction;
     verified := Some (default false verified);
     verification_count := Some (default 0%Z verification_count);
     confidence_score := Some (Numeric_3_2 (default 0.50 confidence_score));
     reported_by := reported_by;
     notes := notes |}.
End RoadSpeedLimit.

Module HazardDetection.
Record t : Type := {
  id : UUID;
  location : Geography;
  hazard_type : string;
  severity : string;
  confidence_score : option Q;
  detected_by : option UUID;
  detected_at : DateTime;
  expires_at : option DateTime;
  verified : option bool;
  verification_count : option Z;
  is_active : option bool;
  description : option string;
  image_url : option string;
}.

(** The constructor call [HazardDetection(...)] followed by its INSERT at
    time [now]: [detected_at] takes its server default [func.now()], the
    columns that the call leaves out take their [default=], and the score
    is kept with the two decimals of its column. *)
Definition insert (uuid4 : UUID) (now : DateTime) (location : Geography)
    (hazard_type severity : string) (confidence_score : option Q)
    (detected_by : option UUID) (description : option string)
    (expires_at : option DateTime) (image_url : option string) : t :=
  {| id := uuid4;
     location := location;
     hazard_type := hazard_type;
     severity := severity;
     confidence_score := Some (Numeric_3_2 (default 0.50 confidence_score));
     detected_by := detected_by;
     detected_at := now;
     expires_at := expires_at;
     verified := Some false;
     verification_count := Some 0%Z;
     is_active := Some true;
     description := description;
     image_url := image_url |}.
End HazardDetection.

Module HazardousRoadSegment.
Record t : Type := {
  id : UUID;
  road_segment : Geography;
  hazard_type : string;
  severity : option string;
  road_name : option string;
  osm_id : option string;
  confidence_score : option Q;
  reported_by : option UUID;
  notes : option string;
}.
End HazardousRoadSegment.

(** [SchoolZone] and [HospitalZone] have the same columns. *)
Module Zone.
Record t : Type := {
  id : UUID;
  location : Geography;
  name : option string;
  address : option string;
  osm_id : option string;
}.
End Zone.

(** [CheckConstraint("confidence_score >= 0 AND confidence_score <= 1")]: a
    CHECK passes when its condition is NULL. *)
Definition confidence_check (confidence_score : option Q) : Prop :=
  match confidence_score with
  | Some c => 0 <= c ∧ c <= 1
  | None => True
  end.

Global Instance confidence_check_decision c : Decision (confidence_check c).
Proof. destruct c; simpl; apply _. Defined.

Record Database : Type := {
  speed_cameras : list SpeedCamera.t;
  road_speed_limits : list RoadSpeedLimit.t;
  hazard_detections : list HazardDetection.t;
  hazardous_road_segments : list HazardousRoadSegment.t;
  school_zones : list Zone.t;
  hospital_zones : list Zone.t;
}.

(** ** Python exceptions *)

Inductive Exception : Type :=
| DBAPIError (msg : string)
| TypeError (msg : string)
| ValueError (msg : string)
| RequestValidationError (msg : string)
| HTTPException (status_code : Z) (detail : string).

(** [str(e)] *)
Definition str_exception (e : Exception) : string :=
  match e with
  | DBAPIError msg | TypeError msg | ValueError msg
  | RequestValidationError msg => msg
  | HTTPException status_code detail => pretty status_code +:+ ": " +:+ detail
  end.

Abbreviation Await := (Exc Exception).

(** ** SQL *)

(** Comparisons with a nullable column: NULL on either side gives NULL, and
    a WHERE clause keeps a row only when its condition is true. *)
Definition sql_ge (column : option Q) (value : Q) : Prop :=
  match column with
  | Some c => value <= c
  | None => False
  end.

Definition sql_gt_time (column : option DateTime) (value : DateTime) : Prop :=
  match column with
  | Some c => (value < c)%Z
  | None => False
  end.

Global Instance sql_ge_decision column value : Decision (sql_ge column value).
Proof. destruct column; simpl; apply _. Defined.

Global Instance sql_gt_time_decision column value :
  Decision (sql_gt_time column value).
Proof. destruct column; simpl; apply _. Defined.

(** A result row of [query.add_columns(distance_col)]: the entity and its
    distance. *)
Definition by_distance {Row} : relation (Row * Q) := λ r1 r2, r1.2 <= r2.2.

Global Instance by_distance_decision {Row} (r1 r2 : Row * Q) :
  Decision (by_distance r1 r2).
Proof. unfold by_distance. apply _. Defined.

(** The rows of [query.add_columns(distance_col).order_by(distance_col)
    .limit(limit)]. *)
Definition result_rows {Row} (distance_col : Row → Q) (limit : Z)
    (query : list Row) : list (Row * Q) :=
  take (Z.to_nat limit)
    (merge_sort by_distance (map (λ r, (r, distance_col r)) query)).

(** The statement is executed, and the function returns
    [[row[0] for row in result.all()]].  PostgreSQL rejects a negative
    LIMIT. *)
Definition order_by_distance_limit {Row} (distance_col : Row → Q) (limit : Z)
    (query : list Row) : Await (list Row) :=
  if decide (limit < 0)%Z then Raise (DBAPIError "LIMIT must not be negative")
  else Ok (map fst (result_rows distance_col limit query)).

(** The PostGIS functions the program calls. *)
Class PostGIS : Type := {
(** [ST_Distance(geography, geography)], in meters. *)
ST_Distance : Geography → Geography → Q;
(** [ST_AsGeoJSON(geometry)] *)
ST_AsGeoJSON : Geography → string;
}.

(** [ST_DWithin(g1, g2, distance_meters)]: the two geographies are within the
    given distance of one another. *)
Definition ST_DWithin `{PostGIS} (g1 g2 : Geography) (distance_meters : Q)
    : Prop :=
  ST_Distance g1 g2 <= distance_meters.

Global Instance ST_DWithin_decision `{PostGIS} g1 g2 d :
  Decision (ST_DWithin g1 g2 d).
Proof. unfold ST_DWithin. apply _. Defined.

(** [ST_X] and [ST_Y] of a geography cast to geometry; PostGIS refuses
    anything but a point. *)
Definition ST_X (g : Geography) : Await Q :=
  match g with
  | POINT x _ => Ok x
  | LINESTRING _ => Raise (DBAPIError "Argument to ST_X() must have type POINT")
  end.

Definition ST_Y (g : Geography) : Await Q :=
  match g with
  | POINT _ y => Ok y
  | LINESTRING _ => Raise (DBAPIError "Argument to ST_Y() must have type POINT")
  end.

(** ** Sessions ([database/database.py])

    [AsyncSessionLocal] is made with [autoflush=False]: a row passed to
    [db.add] stays pending, and no SELECT sees it, until a flush or commit. *)

Record Session (Row : Type) : Type := {
  table : list Row;
  pending : list Row;
}.
Arguments table {Row} s.
Arguments pending {Row} s.

Definition session_of {Row} (rows : list Row) : Session Row :=
  {| table := rows; pending := [] |}.

(** [db.add(row)] *)
Definition add {Row} (db : Session Row) (row : Row) : Session Row :=
  {| table := table db; pending := pending db ++ [row] |}.

(** [await db.flush()] writes the pending rows. *)
Definition flush {Row} (db : Session Row) : Session Row :=
  {| table := table db ++ pending db; pending := [] |}.

(** [await db.commit()] flushes and ends the transaction. *)
Definition commit {Row} (db : Session Row) : Session Row := flush db.

(** ** Queries ([database/queries.py]) *)

Module queries.
Section queries.

Context `{PostGIS}.

Definition get_nearby_school_zones (db : Database) (latitude longitude : Q)
    (radius_meters : Q) (limit : Z) : Await (list Zone.t) :=
  let point := ST_MakePoint longitude latitude in
  let query :=
    filter (λ z, ST_DWithin (Zone.location z) point radius_meters)
      (school_zones db) in
  let distance_col z := ST_Distance (Zone.location z) point in
  order_by_distance_limit distance_col limit query.

Definition get_nearby_hospital_zones (db : Database) (latitude longitude : Q)
    (radius_meters : Q) (limit : Z) : Await (list Zone.t) :=
  let point := ST_MakePoint longitude latitude in
  let query :=
    filter (λ z, ST_DWithin (Zone.location z) point radius_meters)
      (hospital_zones db) in
  let distance_col z := ST_Distance (Zone.location z) point in
  order_by_distance_limit distance_col limit query.

Definition get_nearby_speed_cameras (db : Database) (latitude longitude : Q)
    (radius_meters : Q) (min_confidence : Q) (verified_only : bool)
    (limit : Z) : Await (list SpeedCamera.t) :=
  let point := ST_MakePoint longitude latitude in
  let query :=
    filter (λ c, ST_DWithin (SpeedCamera.location c) point radius_meters)
      (speed_cameras db) in
  let query :=
    if decide (0 < min_confidence)
    then filter (λ c, sql_ge (SpeedCamera.confidence_score c) min_confidence)
           query
    else query in
  let query :=
    if verified_only
    then filter (λ c, SpeedCamera.verified c = Some true) query
    else query in
  let distance_col c := ST_Distance (SpeedCamera.location c) point in
  order_by_distance_limit distance_col limit query.

Definition get_nearby_speed_limits (db : Database) (latitude longitude : Q)
    (radius_meters : Q) (min_confidence : Q) (verified_only : bool)
    (limit : Z) : Await (list RoadSpeedLimit.t) :=
  let point := ST_MakePoint longitude latitude in
  let query :=
    filter (λ s, ST_DWithin (RoadSpeedLimit.road_segment s) point radius_meters)
      (road_speed_limits db) in
  let query :=
    if decide (0 < min_confidence)
    then filter (λ s, sql_ge (RoadSpeedLimit.confidence_score s) min_confidence)
           query
    else query in
  let query :=
    if verified_only
    then filter (λ s, RoadSpeedLimit.verified s = Some true) query
    else query in
  let distance_col s := ST_Distance (RoadSpeedLimit.road_segment s) point in
  order_by_distance_limit distance_col limit query.

(** [func.now()] is the time at which the statement runs: the argument
    [now]. *)
Definition get_nearby_hazards (db : Database) (now : DateTime)
    (latitude longitude : Q) (radius_meters : Q) (min_confidence : Q)
    (active_only : bool) (limit : Z) : Await (list HazardDetection.t) :=
  let point := ST_MakePoint longitude latitude in
  let query :=
    filter (λ h, ST_DWithin (HazardDetection.location h) point radius_meters)
      (hazard_detections db) in
  let query :=
    if decide (0 < min_confidence)
    then filter (λ h, sql_ge (HazardDetection.confidence_score h) min_confidence)
           query
    else query in
  let query :=
    if active_only
    then filter (λ h, HazardDetection.is_active h = Some true
                      ∧ (HazardDetection.expires_at h = None
                         ∨ sql_gt_time (HazardDetection.expires_at h) now))
           query
    else query in
  let distance_col h := ST_Distance (HazardDetection.location h) point in
  order_by_distance_limit distance_col limit query.

Definition get_nearby_hazardous_roads (db : Database) (latitude longitude : Q)
    (radius_meters : Q) (min_confidence : Q) (limit : Z)
    : Await (list HazardousRoadSegment.t) :=
  let point := ST_MakePoint longitude latitude in
  let query :=
    filter (λ r, ST_DWithin (HazardousRoadSegment.road_segment r) point
                   radius_meters)
      (hazardous_road_segments db) in
  let query :=
    if decide (0 < min_confidence)
    then filter (λ r, sql_ge (HazardousRoadSegment.confidence_score r)
                        min_confidence) query
    else query in
  let distance_col r := ST_Distance (HazardousRoadSegment.road_segment r) point in
  order_by_distance_limit distance_col limit query.

(** [create_speed_camera]: the flush runs the INSERT.  The score is
    rounded to the two decimals of its column; a rounded score of 10 or
    more overflows [Numeric(3, 2)], and the CHECK constraint of the table
    is applied to the rounded score.  The other values are ones that their
    columns take (see [camera_fits]). *)
Definition create_speed_camera (uuid4 : UUID) (db : Session SpeedCamera.t)
    (latitude longitude : Q) (speed_limit_kmh : Z) (camera_type : string)
    (direction_degrees : option Z) (confidence_score : Q)
    (reported_by : option UUID) (notes : option string)
    : Await (Session SpeedCamera.t * SpeedCamera.t) :=
  let point := ST_MakePoint longitude latitude in
  let camera :=
    SpeedCamera.insert uuid4 point speed_limit_kmh camera_type
      direction_degrees None None (Some confidence_score) reported_by notes in
  let db := add db camera in
  if decide (10 <= Qabs (Numeric_3_2 confidence_score))
  then Raise (DBAPIError "numeric field overflow")
  else if decide (confidence_check (SpeedCamera.confidence_score camera))
  then Ok (flush db, camera)
  else Raise (DBAPIError "violates check constraint speed_cameras_confidence_check").

(** [create_hazard_detection]: the flush runs the INSERT, at time [now].
    The score is rounded to the two decimals of its column; a rounded
    score of 10 or more overflows [Numeric(3, 2)], and the CHECK constraint
    of the table is applied to the rounded score. *)
Definition create_hazard_detection (uuid4 : UUID) (now : DateTime)
    (db : Session HazardDetection.t) (latitude longitude : Q)
    (hazard_type severity : string) (confidence_score : Q)
    (detected_by : option UUID) (description : option string)
    (expires_at : option DateTime) (image_url : option string)
    : Await (Session HazardDetection.t * HazardDetection.t) :=
  let point := ST_MakePoint longitude latitude in
  let hazard :=
    HazardDetection.insert uuid4 now point hazard_type severity
      (Some confidence_score) detected_by description expires_at image_url in
  let db := add db hazard in
  if decide (10 <= Qabs (Numeric_3_2 confidence_score))
  then Raise (DBAPIError "numeric field overflow")
  else if decide (confidence_check (HazardDetection.confidence_score hazard))
  then Ok (flush db, hazard)
  else Raise (DBAPIError "violates check constraint hazard_detections_confidence_check").

(** [create_school_zone] and [create_hospital_zone]: the zone is committed
    at once, and its [osm_id] stays NULL. *)
Definition create_school_zone (uuid4 : UUID) (db : Session Zone.t)
    (latitude longitude : Q) (name : string) (address : option string)
    : Session Zone.t * Zone.t :=
  let point := ST_MakePoint longitude latitude in
  let zone :=
    {| Zone.id := uuid4; Zone.location := point; Zone.name := Some name;
       Zone.address := address; Zone.osm_id := None |} in
  let db := add db zone in
  (commit db, zone).

Definition create_hospital_zone (uuid4 : UUID) (db : Session Zone.t)
    (latitude longitude : Q) (name : string) (address : option string)
    : Session Zone.t * Zone.t :=
  let point := ST_MakePoint longitude latitude in
  let zone :=
    {| Zone.id := uuid4; Zone.location := point; Zone.name := Some name;
       Zone.address := address; Zone.osm_id := None |} in
  let db := add db zone in
  (commit db, zone).

End queries.
End queries.

(** ** Python values and builtins *)

(** A scalar read from a JSON file. *)
Inductive json : Type :=
| JNull
| JNum (q : Q)
| JStr (s : string).

(** [if value:] *)
Definition truthy (value : json) : bool :=
  match value with
  | JNull => false
  | JNum q => negb (Qeq_bool q 0)
  | JStr s => bool_decide (s ≠ "")
  end.

(** The builtins applied to parsed JSON; [None] is a raised [ValueError] or
    [TypeError]. *)
Class Python : Type := {
(** [float(value)] *)
py_float : json → option Q;
(** [int(value)] *)
py_int : json → option Z;
(** [str(value)] *)
py_str : json → string;
(** [UUID(text)] *)
py_UUID : string → option UUID;
}.

(** [sorted(items, key=key, reverse=True)]: the sort is stable, also when
    reversed, so that of two items with the same key the one that came
    first stays first. *)
Fixpoint insert_reverse {A} (key : A → Q) (x : A) (sorted : list A) : list A :=
  match sorted with
  | [] => [x]
  | y :: rest =>
      if decide (key x < key y) then y :: insert_reverse key x rest
      else x :: sorted
  end.

Definition sorted_reverse {A} (key : A → Q) (items : list A) : list A :=
  foldr (insert_reverse key) [] items.

(** [hashlib] and [bcrypt], on byte strings. *)
Class Crypto : Type := {
(** [hashlib.sha256(raw).hexdigest().encode("utf-8")] *)
sha256_hexdigest : string → string;
(** [bcrypt.hashpw(password, salt).decode("utf-8")] *)
bcrypt_hashpw : string → string → string;
(** [bcrypt.checkpw(password, hashed)]; [None] is a raised exception. *)
bcrypt_checkpw : string → string → option bool;
}.

(** ** Camera import ([database/import_data.py]) *)

Module import_data.

Record State : Type := {
  db : Session SpeedCamera.t;
  imported_count : nat;
  skipped_count : nat;
}.

Definition skip (st : State) : State :=
  {| db := db st; imported_count := imported_count st;
     skipped_count := S (skipped_count st) |}.

Definition camera_type_map : gmap string string :=
  {[ "G" := "fixed"; "M" := "mobile"; "A" := "average_speed" ]}.

(** [not (-90 <= latitude <= 90) or not (-180 <= longitude <= 180)] *)
Definition invalid_coordinates (latitude longitude : Q) : bool :=
  negb (bool_decide (-90 <= latitude) && bool_decide (latitude <= 90))
  || negb (bool_decide (-180 <= longitude) && bool_decide (longitude <= 180)).

Section import_data.

Context `{PostGIS} `{Python}.

(** The identifiers that [default=uuid4] draws during the run, in order. *)
Variable uuid4 : nat → UUID.

(** The body of the [try] in the loop of [import_speed_cameras]; [None] is
    an exception, which on the way to [db.add] only the two calls of
    [float] can raise.  The commit of a batch is one that the database
    accepts: the rows of the batch are rows that the table takes (see
    [record_fits]). *)
Definition import_camera (st : State) (cam_data : gmap string json)
    : option State :=
  latitude ← py_float (default (JNum 0) (cam_data !! "latitude"));
  longitude ← py_float (default (JNum 0) (cam_data !! "longitude"));
  if invalid_coordinates latitude longitude then Some (skip st)
  else
    let speed_limit_str :=
      py_str (default (JStr "0") (cam_data !! "speed_limit")) in
    let speed_limit_kmh :=
      default 60%Z (if decide (speed_limit_str ≠ "/")
                    then py_int (JStr speed_limit_str) else Some 60%Z) in
    let camera_type_char := default (JStr "G") (cam_data !! "camera_type") in
    let camera_type :=
      match camera_type_char with
      | JStr k => default "fixed" (camera_type_map !! k)
      | _ => "fixed"
      end in
    let direction_str := default JNull (cam_data !! "direction") in
    let direction_degrees :=
      if truthy direction_str then
        match py_int direction_str with
        | Some d => if bool_decide (0 <= d)%Z && bool_decide (d <= 360)%Z
                    then Some d else None
        | None => None
        end
      else None in
    let point_sql := ST_MakePoint longitude latitude in
    let existing :=
      take 1 (filter (λ c, ST_DWithin (SpeedCamera.location c) point_sql 10.0)
                (table (db st))) in
    match head existing with
    | Some _ => Some (skip st)
    | None =>
        let camera :=
          SpeedCamera.insert (uuid4 (imported_count st)) point_sql
            speed_limit_kmh camera_type direction_degrees
            (Some true) (Some 1%Z) (Some 0.80) None
            (Some ("Imported from "
                   +:+ py_str (default (JStr "Unknown") (cam_data !! "street"))
                   +:+ ", "
                   +:+ py_str (default (JStr "Unknown") (cam_data !! "city")))) in
        let db := add (db st) camera in
        let imported_count := S (imported_count st) in
        let db := if decide (imported_count `mod` 100 = 0)%nat
                  then commit db else db in
        Some {| db := db; imported_count := imported_count;
                skipped_count := skipped_count st |}
    end.

(** One iteration: the [except Exception] clause counts the record as
    skipped and continues. *)
Definition import_camera_step (st : State) (cam_data : gmap string json)
    : State :=
  default (skip st) (import_camera st cam_data).

(** [import_speed_cameras(db, json_file_path)] on the list under the key
    ['cameras'] of the file: the session after the final commit, and the
    number of cameras imported. *)
Definition import_speed_cameras (session : Session SpeedCamera.t)
    (cameras_data : list (gmap string json)) : Session SpeedCamera.t * nat :=
  let st := foldl import_camera_step
              {| db := session; imported_count := 0; skipped_count := 0 |}
              cameras_data in
  (commit (db st), imported_count st).

End import_data.

(** An element of the OpenStreetMap export that [import_speed_limits]
    reads: ['id'] is the integer identifier of the OSM object, an absent
    ['geometry'] is the empty list and an absent ['tags'] the empty
    dictionary; a vertex of the geometry is a dictionary. *)
Module Way.
Record t : Type := {
  type : option string;
  id : option Z;
  geometry : list (gmap string json);
  tags : gmap string string;
}.
End Way.

Module Limits.
Record State : Type := {
  db : Session RoadSpeedLimit.t;
  imported_count : nat;
  skipped_count : nat;
}.

Definition skip (st : State) : State :=
  {| db := db st; imported_count := imported_count st;
     skipped_count := S (skipped_count st) |}.
End Limits.

(** [a or None] on an optional string. *)
Definition or_None (a : option string) : option string :=
  match a with
  | Some s => if decide (s = "") then None else Some s
  | None => None
  end.

Section import_speed_limits.

Context `{Python}.

(** The identifiers that [default=uuid4] draws during the run, in order. *)
Variable uuid4 : nat → UUID.

(** [int(''.join(filter(str.isdigit, text)))]; [None] is the [ValueError]
    that [int] raises, as it does on a text without a digit. *)
Variable int_of_digits : string → option Z.

(** The body of the [try] in the loop of [import_speed_limits]; [None] is
    an exception that reaches the outer [except], which only reading the
    vertices can raise. *)
Definition import_way (st : Limits.State) (element : Way.t)
    : option Limits.State :=
  if decide (Way.type element ≠ Some "way") then Some st
  else
    let geometry := Way.geometry element in
    if decide (length geometry < 2)%nat then Some (Limits.skip st)
    else
      let tags := Way.tags element in
      match or_None (tags !! "maxspeed") with
      | None => Some (Limits.skip st)
      | Some maxspeed_str =>
          match int_of_digits maxspeed_str with
          | None => Some (Limits.skip st)
          | Some speed_limit_kmh =>
              if decide (speed_limit_kmh ≤ 0 ∨ 200 < speed_limit_kmh)%Z
              then Some (Limits.skip st)
              else
                coordinates ←
                  mapM (λ pt : gmap string json,
                          lat ← pt !! "lat" ≫= py_float;
                          lon ← pt !! "lon" ≫= py_float;
                          Some (lat, lon))
                    geometry;
                let linestring_sql := ST_MakeLine coordinates in
                let road_name :=
                  match or_None (tags !! "name") with
                  | Some name => Some name
                  | None => or_None (tags !! "ref")
                  end in
                let road_type := default "unknown" (tags !! "highway") in
                let direction :=
                  if decide (tags !! "oneway" = Some "yes")
                  then "forward" else "both" in
                let speed_limit :=
                  RoadSpeedLimit.insert (uuid4 (Limits.imported_count st))
                    linestring_sql speed_limit_kmh road_name (Some road_type)
                    (Some direction) (Some true) (Some 1%Z) (Some 0.85) None
                    (Some ("Imported from OpenStreetMap (way "
                           +:+ match Way.id element with
                               | Some id => pretty id
                               | None => "unknown"
                               end
                           +:+ ")")) in
                let db := add (Limits.db st) speed_limit in
                let imported_count := S (Limits.imported_count st) in
                let db := if decide (imported_count `mod` 50 = 0)%nat
                          then commit db else db in
                Some {| Limits.db := db;
                        Limits.imported_count := imported_count;
                        Limits.skipped_count := Limits.skipped_count st |}
          end
      end.

(** One iteration: the [except Exception] clause counts the element as
    skipped and continues. *)
Definition import_way_step (st : Limits.State) (element : Way.t)
    : Limits.State :=
  default (Limits.skip st) (import_way st element).

(** [import_speed_limits(db, json_file_path)] on the list under the key
    ['elements'] of the file: the session after the final commit, and the
    number of speed limits imported. *)
Definition import_speed_limits (session : Session RoadSpeedLimit.t)
    (elements : list Way.t) : Session RoadSpeedLimit.t * nat :=
  let st := foldl import_way_step
              {| Limits.db := session; Limits.imported_count := 0;
                 Limits.skipped_count := 0 |}
              elements in
  (commit (Limits.db st), Limits.imported_count st).

End import_speed_limits.

(** The session of [main] holds both tables. *)
Record Tables : Type := {
  cameras : Session SpeedCamera.t;
  speed_limits : Session RoadSpeedLimit.t;
}.

Section main.

Context `{PostGIS} `{Python}.

(** The identifiers that [default=uuid4] draws during the script, in
    order. *)
Variable uuid4 : nat → UUID.
Variable int_of_digits : string → option Z.

(** The loop of [main] over [camera_files], from a session and a value of
    [total_cameras]. *)
Definition import_camera_files (db : Session SpeedCamera.t)
    (total_cameras : nat) (camera_files : list (list (gmap string json)))
    : Session SpeedCamera.t * nat :=
  foldl (λ '(db, total_cameras) cam_file,
           let '(db, count) :=
             import_speed_cameras (λ n, uuid4 (total_cameras + n)) db
               cam_file in
           (db, (total_cameras + count)%nat))
    (db, total_cameras) camera_files.

(** [main()], once the files are found and the schema is there: the camera
    files one after the other, then the speed-limit file.  The result is
    the session, [total_cameras] and [speed_limits_count]. *)
Definition main (db : Tables) (camera_files : list (list (gmap string json)))
    (speed_limits_file : list Way.t) : Tables * (nat * nat) :=
  let '(cameras_db, total_cameras) :=
    import_camera_files (cameras db) 0 camera_files in
  let '(speed_limits_db, speed_limits_count) :=
    import_speed_limits (λ n, uuid4 (total_cameras + n)) int_of_digits
      (speed_limits db) speed_limits_file in
  ({| cameras := cameras_db; speed_limits := speed_limits_db |},
   (total_cameras, speed_limits_count)).

End main.
End import_data.

(** ** Zone import ([database/import_zones.py]) *)

(** [text.strip(chars)] *)
Fixpoint lstrip (chars : list Ascii.ascii) (text : list Ascii.ascii)
    : list Ascii.ascii :=
  match text with
  | [] => []
  | c :: rest => if bool_decide (c ∈ chars) then lstrip chars rest else text
  end.

Definition strip (chars : string) (text : string) : string :=
  let chars := String.list_ascii_of_string chars in
  String.string_of_list_ascii
    (rev (lstrip chars (rev (lstrip chars (String.list_ascii_of_string text))))).

(** [a or b] on an optional string: [None] and the empty string are falsy. *)
Definition or_str (a : option string) (b : string) : string :=
  match a with
  | Some s => if decide (s = "") then b else s
  | None => b
  end.

Module import_zones.

(** An element of an OpenStreetMap export.  Its ['id'], when present, is
    the integer identifier of the OSM object; an absent ['tags'] is the
    empty dictionary. *)
Record Element : Type := {
  type : option string;
  id : option Z;
  lat : option Q;
  lon : option Q;
  tags : gmap string string;
}.

(** [str(element.get('id'))] *)
Definition str_id (id : option Z) : string :=
  match id with
  | Some n => pretty n
  | None => "None"
  end.

(** The session holds both zone tables. *)
Record Zones : Type := {
  SchoolZone : Session Zone.t;
  HospitalZone : Session Zone.t;
}.

Definition commit_zones (db : Zones) : Zones :=
  {| SchoolZone := commit (SchoolZone db);
     HospitalZone := commit (HospitalZone db) |}.

Record State : Type := {
  db : Zones;
  seen_ids : gset string;
  imported_count : nat;
  skipped_count : nat;
  duplicate_count : nat;
}.

(** The rows of [select(SchoolZone.osm_id)] or [select(HospitalZone.osm_id)]. *)
Definition select_osm_id (db : Zones) (zone_type : string)
    : list (option string) :=
  if decide (zone_type = "school")
  then Zone.osm_id <$> table (SchoolZone db)
  else Zone.osm_id <$> table (HospitalZone db).

(** The loop over [result.all()]: [if row[0]: existing_ids.add(str(row[0]))]. *)
Definition existing_ids (db : Zones) (zone_type : string) : gset string :=
  foldl (λ ids row,
           match row with
           | Some osm_id => if decide (osm_id ≠ "") then ids ∪ {[ osm_id ]} else ids
           | None => ids
           end)
    ∅ (select_osm_id db zone_type).

Section import_zones.

(** The identifiers that [default=uuid4] draws during the run, in order. *)
Variable uuid4 : nat → UUID.

Definition import_element (zone_type : string) (st : State)
    (element : Element) : State :=
  if decide (type element ≠ Some "node") then
    {| db := db st; seen_ids := seen_ids st;
       imported_count := imported_count st;
       skipped_count := S (skipped_count st);
       duplicate_count := duplicate_count st |}
  else
    let osm_id := str_id (id element) in
    if decide (osm_id ∈ seen_ids st) then
      {| db := db st; seen_ids := seen_ids st;
         imported_count := imported_count st;
         skipped_count := skipped_count st;
         duplicate_count := S (duplicate_count st) |}
    else
      let seen_ids := seen_ids st ∪ {[ osm_id ]} in
      let name :=
        or_str (tags element !! "name")
          (or_str (tags element !! "name:en") ("Unnamed " +:+ zone_type)) in
      let street := tags element !! "addr:street" in
      let city := tags element !! "addr:city" in
      let full_addr := tags element !! "addr:full" in
      let address :=
        or_str full_addr
          (strip ", " (or_str street "" +:+ ", " +:+ or_str city "")) in
      let address :=
        if decide (address = "") then "Address not available" else address in
      match lat element, lon element with
      | Some lat, Some lon =>
          let point_sql := ST_MakePoint lon lat in
          let zone :=
            {| Zone.id := uuid4 (imported_count st);
               Zone.location := point_sql;
               Zone.name := Some name;
               Zone.address := Some address;
               Zone.osm_id := Some osm_id |} in
          let db :=
            if decide (zone_type = "school")
            then {| SchoolZone := add (SchoolZone (db st)) zone;
                    HospitalZone := HospitalZone (db st) |}
            else {| SchoolZone := SchoolZone (db st);
                    HospitalZone := add (HospitalZone (db st)) zone |} in
          let imported_count := S (imported_count st) in
          let db := if decide (imported_count `mod` 500 = 0)%nat
                    then commit_zones db else db in
          {| db := db; seen_ids := seen_ids;
             imported_count := imported_count;
             skipped_count := skipped_count st;
             duplicate_count := duplicate_count st |}
      | _, _ =>
          {| db := db st; seen_ids := seen_ids;
             imported_count := imported_count st;
             skipped_count := S (skipped_count st);
             duplicate_count := duplicate_count st |}
      end.

(** [import_zones(db, json_file_path, zone_type)] on the list under the key
    ['elements'] of the file: the session after the final commit, and the
    number of zones imported. *)
Definition import_zones (session : Zones) (elements : list Element)
    (zone_type : string) : Zones * nat :=
  let existing_ids := existing_ids session zone_type in
  let st := foldl (import_element zone_type)
              {| db := session; seen_ids := existing_ids;
                 imported_count := 0; skipped_count := 0;
                 duplicate_count := 0 |}
              elements in
  (commit_zones (db st), imported_count st).

End import_zones.
End import_zones.

(** ** The HTTP endpoints ([backend/main.py]) *)

(** [float(column)] on a value read from a nullable numeric column. *)
Definition float (column : option Q) : Await Q :=
  match column with
  | Some q => Ok q
  | None => Raise (TypeError "float() argument must be a string or a real number, not 'NoneType'")
  end.

(** [result.scalar_one_or_none()] *)
Definition scalar_one_or_none {Row} (result : list Row) : Await (option Row) :=
  match result with
  | [] => Ok None
  | [row] => Ok (Some row)
  | _ => Raise (DBAPIError "Multiple rows were found when one or none was required")
  end.

Module main.

(** The request body after pydantic has checked the annotated types:
    [latitude: float], [longitude: float], [speed_limit_kmh: int],
    [camera_type: str = "fixed"], [direction_degrees: Optional[int] = None],
    [notes: Optional[str] = None]. *)
Module CreateCameraRequest.
Record t : Type := {
  latitude : Q;
  longitude : Q;
  speed_limit_kmh : Z;
  camera_type : string;
  direction_degrees : option Z;
  notes : option string;
}.
End CreateCameraRequest.

(** The dictionary that [create_camera] returns. *)
Module CameraResponse.
Record t : Type := {
  id : UUID;
  latitude : Q;
  longitude : Q;
  speed_limit_kmh : Z;
  camera_type : string;
  direction_degrees : option Z;
  verified : option bool;
  confidence_score : Q;
  notes : option string;
}.
End CameraResponse.

(** The entries of the dictionary that [get_navigation_data_nearby]
    returns. *)
Module CameraData.
Record t : Type := {
  id : UUID;
  speed_limit_kmh : Z;
  camera_type : string;
  direction_degrees : option Z;
  verified : option bool;
  confidence_score : Q;
}.
End CameraData.

Module SpeedLimitData.
Record t : Type := {
  id : UUID;
  speed_limit_kmh : Z;
  road_name : option string;
  road_type : option string;
  verified : option bool;
  confidence_score : Q;
}.
End SpeedLimitData.

Module HazardData.
Record t : Type := {
  id : UUID;
  hazard_type : string;
  severity : string;
  confidence_score : Q;
  is_active : option bool;
  detected_at : DateTime;
  image_url : option string;
  latitude : option Q;
  longitude : option Q;
  description : option string;
}.
End HazardData.

Module RoadData.
Record t : Type := {
  id : UUID;
  hazard_type : string;
  severity : option string;
  road_name : option string;
  confidence_score : Q;
  geojson : string;
}.
End RoadData.

Module Counts.
Record t : Type := {
  cameras : nat;
  speed_limits : nat;
  hazards : nat;
  hazardous_roads : nat;
}.
End Counts.

Module NavigationData.
Record t : Type := {
  cameras : list CameraData.t;
  speed_limits : list SpeedLimitData.t;
  hazards : list HazardData.t;
  hazardous_roads : list RoadData.t;
  counts : Counts.t;
}.
End NavigationData.

(** The dictionary that [create_hazard] returns. *)
Module HazardResponse.
Record t : Type := {
  id : UUID;
  hazard_type : string;
  severity : string;
  confidence_score : Q;
  detected_at : DateTime;
  image_url : option string;
}.
End HazardResponse.

(** An entry of [detected_damages]: the class name and the confidence of a
    box that the road-damage model reports. *)
Module DetectedDamage.
Record t : Type := {
  type : string;
  confidence : Q;
}.
End DetectedDamage.

(** The two dictionaries that [detect_and_save_hazard] returns. *)
Inductive DetectAndSave : Type :=
| no_damage_detected (message : string)
| damage_detected (hazard_type : string) (confidence : Q) (image_url : string).

(** The dictionary that [get_cameras_nearby] returns, and its entries. *)
Module CameraEntry.
Record t : Type := {
  id : UUID;
  latitude : Q;
  longitude : Q;
  speed_limit_kmh : Z;
  camera_type : string;
  direction_degrees : option Z;
  verified : option bool;
  confidence_score : Q;
  notes : option string;
  reported_by : option UUID;
}.
End CameraEntry.

Module CamerasNearby.
Record t : Type := {
  cameras : list CameraEntry.t;
  count : nat;
}.
End CamerasNearby.

(** The two statements that [get_cameras_nearby] sends to the database. *)
Inductive CamerasStatement : Type :=
| SelectNearbyCameras
| SelectCameraCoords.

(** The statements that [get_navigation_data_nearby] sends to the
    database. *)
Inductive Statement : Type :=
| SelectCameras
| SelectSpeedLimits
| SelectHazards
| SelectHazardousRoads
| SelectHazardCoords
| SelectGeoJSON (road : UUID).

Section main.

Context `{PostGIS} `{Python}.

(** [POST /api/cameras].  The session is the one [get_db] opens for the
    request; [uuid4] is the identifier drawn for the new row.  The result
    is the session after the request and the response or the exception. *)
Definition create_camera (uuid4 : UUID) (db : Session SpeedCamera.t)
    (request : CreateCameraRequest.t) (current_user : User.t)
    : Session SpeedCamera.t * Await CameraResponse.t :=
  let error e :=
    Raise (HTTPException 500 ("Error creating camera: " +:+ str_exception e)) in
  match
    queries.create_speed_camera uuid4 db
      (CreateCameraRequest.latitude request)
      (CreateCameraRequest.longitude request)
      (CreateCameraRequest.speed_limit_kmh request)
      (CreateCameraRequest.camera_type request)
      (CreateCameraRequest.direction_degrees request)
      0.50
      (Some (User.id current_user))
      (CreateCameraRequest.notes request)
  with
  | Raise e => (db, error e)
  | Ok (db, camera) =>
      let db := commit db in
      let coords_row :=
        head (filter (λ c, SpeedCamera.id c = SpeedCamera.id camera) (table db)) in
      let response :=
        '(lat, lon) ←
          match coords_row with
          | Some row =>
              lat ← ST_Y (SpeedCamera.location row);
              lon ← ST_X (SpeedCamera.location row);
              mret (lat, lon)
          | None =>
              mret (CreateCameraRequest.latitude request,
                    CreateCameraRequest.longitude request)
          end;
        confidence_score ← float (SpeedCamera.confidence_score camera);
        mret {| CameraResponse.id := SpeedCamera.id camera;
                CameraResponse.latitude := lat;
                CameraResponse.longitude := lon;
                CameraResponse.speed_limit_kmh := SpeedCamera.speed_limit_kmh camera;
                CameraResponse.camera_type := SpeedCamera.camera_type camera;
                CameraResponse.direction_degrees := SpeedCamera.direction_degrees camera;
                CameraResponse.verified := SpeedCamera.verified camera;
                CameraResponse.confidence_score := confidence_score;
                CameraResponse.notes := SpeedCamera.notes camera |} in
      (db, try_except response error)
  end.

(** [DELETE /api/cameras/{camera_id}] *)
Definition delete_camera (db : Session SpeedCamera.t) (camera_id : string)
    (current_user : User.t) : Session SpeedCamera.t * Await () :=
  match py_UUID camera_id with
  | None => (db, Raise (HTTPException 400 "Invalid camera ID"))
  | Some cam_uuid =>
      let result := filter (λ c, SpeedCamera.id c = cam_uuid) (table db) in
      match scalar_one_or_none result with
      | Raise e => (db, Raise e)
      | Ok None => (db, Raise (HTTPException 404 "Camera not found"))
      | Ok (Some camera) =>
          if decide (SpeedCamera.reported_by camera ≠ Some (User.id current_user))
          then (db, Raise (HTTPException 403 "You can only delete cameras you added"))
          else
            let db :=
              {| table := filter (λ c, SpeedCamera.id c ≠ SpeedCamera.id camera)
                            (table db);
                 pending := pending db |} in
            (commit db, Ok ())
      end
  end.

(** The database may fail a statement for reasons of its own (a lost
    connection, a timeout): [fails] tells which statements of the request
    it fails, and with which exception. *)
Definition execute {A} (fails : Statement → option Exception)
    (statement : Statement) (result : Await A) : Await A :=
  match fails statement with
  | Some e => Raise e
  | None => result
  end.

(** [GET /api/navigation/nearby] *)
Definition get_navigation_data_nearby (fails : Statement → option Exception)
    (db : Database) (now : DateTime) (latitude longitude : Q)
    (radius_meters : Q) : Await NavigationData.t :=
  try_except
    (cameras ← execute fails SelectCameras
       (queries.get_nearby_speed_cameras db latitude longitude radius_meters
          0.0 false 50);
     speed_limits ← execute fails SelectSpeedLimits
       (queries.get_nearby_speed_limits db latitude longitude radius_meters
          0.0 false 50);
     hazards ← execute fails SelectHazards
       (queries.get_nearby_hazards db now latitude longitude radius_meters
          0.0 true 50);
     hazardous_roads ← execute fails SelectHazardousRoads
       (queries.get_nearby_hazardous_roads db latitude longitude radius_meters
          0.0 50);
     cameras_data ← for_each
       (λ camera,
          confidence_score ← float (SpeedCamera.confidence_score camera);
          mret {| CameraData.id := SpeedCamera.id camera;
                  CameraData.speed_limit_kmh := SpeedCamera.speed_limit_kmh camera;
                  CameraData.camera_type := SpeedCamera.camera_type camera;
                  CameraData.direction_degrees := SpeedCamera.direction_degrees camera;
                  CameraData.verified := SpeedCamera.verified camera;
                  CameraData.confidence_score := confidence_score |})
       cameras;
     speed_limits_data ← for_each
       (λ speed_limit,
          confidence_score ← float (RoadSpeedLimit.confidence_score speed_limit);
          mret {| SpeedLimitData.id := RoadSpeedLimit.id speed_limit;
                  SpeedLimitData.speed_limit_kmh := RoadSpeedLimit.speed_limit_kmh speed_limit;
                  SpeedLimitData.road_name := RoadSpeedLimit.road_name speed_limit;
                  SpeedLimitData.road_type := RoadSpeedLimit.road_type speed_limit;
                  SpeedLimitData.verified := RoadSpeedLimit.verified speed_limit;
                  SpeedLimitData.confidence_score := confidence_score |})
       speed_limits;
     let hazard_ids := HazardDetection.id <$> hazards in
     hazard_coords ←
       match hazard_ids with
       | [] => mret (∅ : gmap UUID (Q * Q))
       | _ =>
           rows ← execute fails SelectHazardCoords
             (for_each
                (λ h, lat ← ST_Y (HazardDetection.location h);
                      lon ← ST_X (HazardDetection.location h);
                      mret (HazardDetection.id h, (lat, lon)))
                (filter (λ h, HazardDetection.id h ∈ hazard_ids)
                   (hazard_detections db)));
           mret (foldl (λ coords row, <[ row.1 := row.2 ]> coords) ∅ rows)
       end;
     hazards_data ← for_each
       (λ hazard,
          let coords := hazard_coords !! HazardDetection.id hazard in
          confidence_score ← float (HazardDetection.confidence_score hazard);
          mret {| HazardData.id := HazardDetection.id hazard;
                  HazardData.hazard_type := HazardDetection.hazard_type hazard;
                  HazardData.severity := HazardDetection.severity hazard;
                  HazardData.confidence_score := confidence_score;
                  HazardData.is_active := HazardDetection.is_active hazard;
                  HazardData.detected_at := HazardDetection.detected_at hazard;
                  HazardData.image_url := HazardDetection.image_url hazard;
                  HazardData.latitude := fst <$> coords;
                  HazardData.longitude := snd <$> coords;
                  HazardData.description := HazardDetection.description hazard |})
       hazards;
     roads_data ← for_each
       (λ road,
          geojson ← execute fails (SelectGeoJSON (HazardousRoadSegment.id road))
            (Ok (ST_AsGeoJSON (HazardousRoadSegment.road_segment road)));
          confidence_score ← float (HazardousRoadSegment.confidence_score road);
          mret {| RoadData.id := HazardousRoadSegment.id road;
                  RoadData.hazard_type := HazardousRoadSegment.hazard_type road;
                  RoadData.severity := HazardousRoadSegment.severity road;
                  RoadData.road_name := HazardousRoadSegment.road_name road;
                  RoadData.confidence_score := confidence_score;
                  RoadData.geojson := geojson |})
       hazardous_roads;
     mret {| NavigationData.cameras := cameras_data;
             NavigationData.speed_limits := speed_limits_data;
             NavigationData.hazards := hazards_data;
             NavigationData.hazardous_roads := roads_data;
             NavigationData.counts :=
               {| Counts.cameras := length cameras_data;
                  Counts.speed_limits := length speed_limits_data;
                  Counts.hazards := length hazards_data;
                  Counts.hazardous_roads := length roads_data |} |})
    (λ e, Raise (HTTPException 500
                   ("Error fetching navigation data: " +:+ str_exception e))).

(** [POST /api/hazards].  [image] is [None] when the form carries no file;
    otherwise it is the outcome of the block that writes the file under
    [static/hazards]: the [image_url] of the file, or the exception that
    [open] or [write] raised.  [now] is the time of the INSERT. *)
Definition create_hazard (uuid4 : UUID) (now : DateTime)
    (db : Session HazardDetection.t) (latitude longitude : Q)
    (hazard_type severity : string) (confidence_score : Q)
    (description : option string) (image : option (Await string))
    (current_user : User.t)
    : Session HazardDetection.t * Await HazardResponse.t :=
  let error e :=
    Raise (HTTPException 500 ("Error creating hazard: " +:+ str_exception e)) in
  let saved : Await (option string) :=
    match image with
    | Some written => image_url ← written; mret (Some image_url)
    | None => mret None
    end in
  match
    image_url ← saved;
    '(db, hazard) ←
      queries.create_hazard_detection uuid4 now db latitude longitude
        hazard_type severity confidence_score (Some (User.id current_user))
        description None image_url;
    mret (db, hazard, image_url)
  with
  | Raise e => (db, error e)
  | Ok (db, hazard, image_url) =>
      let db := commit db in
      let response :=
        confidence_score ← float (HazardDetection.confidence_score hazard);
        mret {| HazardResponse.id := HazardDetection.id hazard;
                HazardResponse.hazard_type := HazardDetection.hazard_type hazard;
                HazardResponse.severity := HazardDetection.severity hazard;
                HazardResponse.confidence_score := confidence_score;
                HazardResponse.detected_at := HazardDetection.detected_at hazard;
                HazardResponse.image_url := image_url |} in
      (db, try_except response error)
  end.

(** [POST /api/hazards/detect-and-save].  [detected_damages] is the outcome
    of reading the upload and running the road-damage model on it: the list
    that the loop over [results[0].boxes] builds, or the exception raised on
    the way.  [file_name] is the [f"{uuid.uuid4()}.jpg"] drawn for the
    image. *)
Definition detect_and_save_hazard (uuid4 : UUID) (now : DateTime)
    (file_name : string) (db : Session HazardDetection.t)
    (latitude longitude : Q) (detected_damages : Await (list DetectedDamage.t))
    (current_user : User.t)
    : Session HazardDetection.t * Await DetectAndSave :=
  let error e :=
    Raise (HTTPException 500 ("Error in detect-and-save: " +:+ str_exception e)) in
  match detected_damages with
  | Raise e => (db, error e)
  | Ok [] =>
      (db, Ok (no_damage_detected "Model did not detect any road damage."))
  | Ok ((first :: _) as detected_damages) =>
      let image_url := "/static/hazards/" +:+ file_name in
      (* [sorted(...)[0]]; the sorted list has the length of the list sorted *)
      let primary_damage :=
        default first
          (head (sorted_reverse DetectedDamage.confidence detected_damages)) in
      match
        queries.create_hazard_detection uuid4 now db latitude longitude
          (DetectedDamage.type primary_damage)
          (if decide (0.7 < DetectedDamage.confidence primary_damage)
           then "high" else "medium")
          (DetectedDamage.confidence primary_damage)
          (Some (User.id current_user))
          (Some ("Auto-detected " +:+ DetectedDamage.type primary_damage
                 +:+ " via photo upload."))
          None (Some image_url)
      with
      | Raise e => (db, error e)
      | Ok (db, _) =>
          (commit db,
           Ok (damage_detected (DetectedDamage.type primary_damage)
                 (DetectedDamage.confidence primary_damage) image_url))
      end
  end.

(** [GET /api/cameras/nearby].  FastAPI checks the [Query] bounds before it
    calls the function, and answers 422 when one is broken.  [fails] tells
    which of the two statements the database fails, as for [execute]. *)
Definition get_cameras_nearby (fails : CamerasStatement → option Exception)
    (db : Database) (latitude longitude : Q) (radius_meters : Q) (limit : Z)
    (min_confidence : Q) (verified_only : bool) : Await CamerasNearby.t :=
  let execute {A} (statement : CamerasStatement) (result : Await A) : Await A :=
    match fails statement with
    | Some e => Raise e
    | None => result
    end in
  if decide ((-90 <= latitude ∧ latitude <= 90)
             ∧ (-180 <= longitude ∧ longitude <= 180)
             ∧ (0 < radius_meters ∧ radius_meters <= 100000)
             ∧ (0 < limit ∧ limit ≤ 500)%Z
             ∧ (0.0 <= min_confidence ∧ min_confidence <= 1.0))
  then
    try_except
      (cameras ← execute SelectNearbyCameras
         (queries.get_nearby_speed_cameras db latitude longitude radius_meters
            min_confidence verified_only limit);
       let camera_ids := SpeedCamera.id <$> cameras in
       coords_dict ←
         match camera_ids with
         | [] => mret (∅ : gmap UUID (Q * Q))
         | _ =>
             coords_result ← execute SelectCameraCoords
               (for_each
                  (λ c, lat ← ST_Y (SpeedCamera.location c);
                        lon ← ST_X (SpeedCamera.location c);
                        mret (SpeedCamera.id c, (lat, lon)))
                  (filter (λ c, SpeedCamera.id c ∈ camera_ids)
                     (speed_cameras db)));
             mret (foldl (λ coords row, <[ row.1 := row.2 ]> coords) ∅
                     coords_result)
         end;
       let result :=
         omap
           (λ camera,
              '(lat, lon) ← coords_dict !! SpeedCamera.id camera;
              Some {| CameraEntry.id := SpeedCamera.id camera;
                      CameraEntry.latitude := lat;
                      CameraEntry.longitude := lon;
                      CameraEntry.speed_limit_kmh :=
                        SpeedCamera.speed_limit_kmh camera;
                      CameraEntry.camera_type := SpeedCamera.camera_type camera;
                      CameraEntry.direction_degrees :=
                        SpeedCamera.direction_degrees camera;
                      CameraEntry.verified := SpeedCamera.verified camera;
                      CameraEntry.confidence_score :=
                        default 0 (SpeedCamera.confidence_score camera);
                      CameraEntry.notes := SpeedCamera.notes camera;
                      CameraEntry.reported_by := SpeedCamera.reported_by camera |})
           cameras in
       mret {| CamerasNearby.cameras := result;
               CamerasNearby.count := length result |})
      (λ e, Raise (HTTPException 500
                     ("Error fetching cameras: " +:+ str_exception e)))
  else Raise (RequestValidationError "Input should be within the bounds of the query parameter").

End main.

(** The request and response models of the authentication endpoints, after
    pydantic has checked the annotated types. *)
Module UserRegister.
Record t : Type := {
  email : string;
  username : string;
  password : string;
  full_name : option string;
}.
End UserRegister.

Module UserLogin.
Record t : Type := {
  email : string;
  password : string;
}.
End UserLogin.

Module UserResponse.
Record t : Type := {
  id : string;
  email : string;
  username : string;
  full_name : option string;
  profile_photo_url : option string;
  trips_count : Z;
  created_at : option string;
}.
End UserResponse.

Module TokenResponse.
Record t : Type := {
  access_token : string;
  user : UserResponse.t;
}.
End TokenResponse.

Section auth.

Context `{Python} `{Crypto}.

(** [str(uuid)] *)
Variable str_UUID : UUID → string.

(** [password.encode("utf-8")] is the password itself, a string of bytes. *)
Definition _password_to_bcrypt_bytes (password : string) : string :=
  let raw := String.list_ascii_of_string password in
  let raw := if decide (72 < length raw)%nat then take 72 raw else raw in
  sha256_hexdigest (String.string_of_list_ascii raw).

Definition verify_password (plain_password hashed_password : string) : bool :=
  if bool_decide (hashed_password = "")
     || negb (String.prefix "$2" hashed_password)
  then false
  else
    default false
      (bcrypt_checkpw (_password_to_bcrypt_bytes plain_password)
         hashed_password).

(** [salt] is the value that [bcrypt.gensalt()] draws. *)
Definition get_password_hash (salt : string) (password : string) : string :=
  bcrypt_hashpw (_password_to_bcrypt_bytes password) salt.

(** The dependency [get_current_user], on the bearer token of the request. *)
Definition get_current_user (db : Session User.row) (token : string)
    : Await User.t :=
  match py_UUID token with
  | None => Raise (HTTPException 401 "Invalid token format")
  | Some user_id =>
      user ← scalar_one_or_none
                (filter (λ u, User.id (User.user u) = user_id) (table db));
      match user with
      | None => Raise (HTTPException 401 "Invalid token")
      | Some user => Ok (User.user user)
      end
  end.

(** [POST /api/auth/register]; [uuid4] is the identifier drawn for the new
    row and [now] the time of its INSERT. *)
Definition register (uuid4 : UUID) (now : DateTime) (salt : string)
    (db : Session User.row) (user_data : UserRegister.t)
    : Session User.row * Await UserResponse.t :=
  let error e :=
    Raise (HTTPException 500 ("Registration failed: " +:+ str_exception e)) in
  match
    scalar_one_or_none
      (filter (λ u, User.email (User.user u) = UserRegister.email user_data)
         (table db))
  with
  | Raise e => (db, error e)
  | Ok (Some _) => (db, Raise (HTTPException 400 "Email already registered"))
  | Ok None =>
      match
        scalar_one_or_none
          (filter (λ u, User.username (User.user u)
                        = UserRegister.username user_data)
             (table db))
      with
      | Raise e => (db, error e)
      | Ok (Some _) => (db, Raise (HTTPException 400 "Username already taken"))
      | Ok None =>
          let hashed_password :=
            get_password_hash salt (UserRegister.password user_data) in
          let user :=
            {| User.user :=
                 {| User.id := uuid4;
                    User.email := UserRegister.email user_data;
                    User.username := UserRegister.username user_data |};
               User.password_hash := hashed_password;
               User.full_name := UserRegister.full_name user_data;
               User.phone_number := None;
               User.profile_photo_url := None;
               User.trips_count := Some 0%Z;
               User.is_active := Some true;
               User.is_verified := Some false;
               User.created_at := now |} in
          let db := commit (add db user) in
          (db,
           Ok {| UserResponse.id := str_UUID uuid4;
                 UserResponse.email := UserRegister.email user_data;
                 UserResponse.username := UserRegister.username user_data;
                 UserResponse.full_name := UserRegister.full_name user_data;
                 UserResponse.profile_photo_url := None;
                 UserResponse.trips_count := 0;
                 UserResponse.created_at := None |})
      end
  end.

(** [POST /api/auth/login] *)
Definition login (db : Session User.row) (credentials : UserLogin.t)
    : Await TokenResponse.t :=
  user ← scalar_one_or_none
            (filter (λ u, User.email (User.user u) = UserLogin.email credentials)
               (table db));
  match user with
  | None => Raise (HTTPException 401 "Invalid email or password")
  | Some user =>
      if negb (verify_password (UserLogin.password credentials)
                 (User.password_hash user))
      then Raise (HTTPException 401 "Invalid email or password")
      else if negb (default false (User.is_active user))
      then Raise (HTTPException 403 "User account is inactive")
      else
        let token := str_UUID (User.id (User.user user)) in
        Ok {| TokenResponse.access_token := token;
              TokenResponse.user :=
                {| UserResponse.id := str_UUID (User.id (User.user user));
                   UserResponse.email := User.email (User.user user);
                   UserResponse.username := User.username (User.user user);
                   UserResponse.full_name := User.full_name user;
                   UserResponse.profile_photo_url := None;
                   UserResponse.trips_count := 0;
                   UserResponse.created_at := None |} |}
  end.

End auth.
End main.

(** ** The reference endpoints ([database/example_usage.py]) *)

Module example_usage.

Module CreateSpeedCameraRequest.
Record t : Type := {
  latitude : Q;
  longitude : Q;
  speed_limit_kmh : Z;
  camera_type : string;
  direction_degrees : option Z;
  confidence_score : Q;
  notes : option string;
}.

(** The [Field(...)] constraints: [ge=-90, le=90], [ge=-180, le=180],
    [gt=0, le=200], [pattern="^(fixed|mobile|average_speed)$"],
    [ge=0, le=360] and [ge=0.0, le=1.0]. *)
Definition valid (request : t) : Prop :=
  (-90 <= latitude request ∧ latitude request <= 90)
  ∧ (-180 <= longitude request ∧ longitude request <= 180)
  ∧ (0 < speed_limit_kmh request ∧ speed_limit_kmh request ≤ 200)%Z
  ∧ camera_type request ∈ ["fixed"; "mobile"; "average_speed"]
  ∧ match direction_degrees request with
    | Some d => (0 ≤ d ∧ d ≤ 360)%Z
    | None => True
    end
  ∧ (0 <= confidence_score request ∧ confidence_score request <= 1).

Global Instance valid_decision request : Decision (valid request).
Proof. unfold valid. destruct (direction_degrees request); apply _. Defined.
End CreateSpeedCameraRequest.

Section example_usage.

Context `{PostGIS}.

(** [POST /api/v1/cameras]: FastAPI answers a body that breaks a [Field]
    constraint with a validation error before the handler runs.  The
    handler commits the camera and returns the mapped object, which has no
    [latitude] and no [longitude] for [response_model=SpeedCameraResponse]:
    the response fails its validation, and FastAPI answers 500. *)
Definition create_camera (uuid4 : UUID) (db : Session SpeedCamera.t)
    (request : CreateSpeedCameraRequest.t)
    : Session SpeedCamera.t * Await SpeedCamera.t :=
  if decide (CreateSpeedCameraRequest.valid request) then
    match
      queries.create_speed_camera uuid4 db
        (CreateSpeedCameraRequest.latitude request)
        (CreateSpeedCameraRequest.longitude request)
        (CreateSpeedCameraRequest.speed_limit_kmh request)
        (CreateSpeedCameraRequest.camera_type request)
        (CreateSpeedCameraRequest.direction_degrees request)
        (CreateSpeedCameraRequest.confidence_score request)
        None
        (CreateSpeedCameraRequest.notes request)
    with
    | Ok (db, camera) =>
        (commit db, Raise (HTTPException 500 "Internal Server Error"))
    | Raise e => (db, Raise e)
    end
  else (db, Raise (RequestValidationError "value is not a valid field")).

End example_usage.
End example_usage.

(** ** Vocabulary of the statements *)

(** The columns that [import_speed_cameras] gives to a camera it creates. *)
Definition imported_defaults (c : SpeedCamera.t) : Prop :=
  SpeedCamera.verified c = Some true
  ∧ SpeedCamera.verification_count c = Some 1%Z
  ∧ SpeedCamera.confidence_score c = Some 0.80
  ∧ SpeedCamera.reported_by c = None.

(** Everything a session holds, written or pending. *)
Definition all_rows {Row} (db : Session Row) : list Row :=
  table db ++ pending db.

(** The table of [import_zones] that [zone_type] selects, and the other one. *)
Definition selected (zone_type : string) (db : import_zones.Zones)
    : Session Zone.t :=
  if decide (zone_type = "school")
  then import_zones.SchoolZone db else import_zones.HospitalZone db.

Definition unselected (zone_type : string) (db : import_zones.Zones)
    : Session Zone.t :=
  if decide (zone_type = "school")
  then import_zones.HospitalZone db else import_zones.SchoolZone db.

(** The identifiers for which the loop of [import_zones] creates a zone,
    when it starts with the set [seen] of identifiers. *)
Fixpoint created_ids (seen : gset string) (elements : list import_zones.Element)
    : list string :=
  match elements with
  | [] => []
  | element :: elements =>
      if decide (import_zones.type element ≠ Some "node")
      then created_ids seen elements
      else
        let osm_id := import_zones.str_id (import_zones.id element) in
        if decide (osm_id ∈ seen) then created_ids seen elements
        else
          match import_zones.lat element, import_zones.lon element with
          | Some _, Some _ => osm_id :: created_ids (seen ∪ {[ osm_id ]}) elements
          | _, _ => created_ids (seen ∪ {[ osm_id ]}) elements
          end
  end.

(** What [import_speed_cameras] guarantees of the fields it parses: a point
    with valid coordinates, one of the three camera types, and a direction
    that is NULL or between 0 and 360. *)
Definition imported_fields (c : SpeedCamera.t) : Prop :=
  (∃ longitude latitude,
     SpeedCamera.location c = POINT longitude latitude
     ∧ (-90 <= latitude ∧ latitude <= 90)
     ∧ (-180 <= longitude ∧ longitude <= 180))
  ∧ SpeedCamera.camera_type c ∈ ["fixed"; "mobile"; "average_speed"]
  ∧ match SpeedCamera.direction_degrees c with
    | Some d => (0 ≤ d ∧ d ≤ 360)%Z
    | None => True
    end.

(** The state in which the loop of [import_speed_cameras] starts. *)
Definition import_start (session : Session SpeedCamera.t) : import_data.State :=
  {| import_data.db := session; import_data.imported_count := 0;
     import_data.skipped_count := 0 |}.

(** The coordinates that a record of a camera file parses to, when both
    calls of [float] return and the range test passes. *)
Definition parsed_point `{Python} (cam_data : gmap string json)
    (latitude longitude : Q) : Prop :=
  py_float (default (JNum 0) (cam_data !! "latitude")) = Some latitude
  ∧ py_float (default (JNum 0) (cam_data !! "longitude")) = Some longitude
  ∧ import_data.invalid_coordinates latitude longitude = false.

(** The values that a 32-bit [Integer] column takes. *)
Definition Integer_range (n : Z) : Prop :=
  (-2147483648 ≤ n ∧ n ≤ 2147483647)%Z.

(** The text that PostgreSQL stores: a string (the UTF-8 bytes of the
    Python [str]) without a NUL character. *)
Definition Text_fits (text : string) : Prop :=
  Ascii.zero ∉ String.list_ascii_of_string text.

Global Instance Text_fits_decision text : Decision (Text_fits text).
Proof. unfold Text_fits. apply _. Defined.

(** The speed limit that [import_speed_cameras] reads from a record. *)
Definition parsed_speed_limit `{Python} (cam_data : gmap string json) : Z :=
  let speed_limit_str :=
    py_str (default (JStr "0") (cam_data !! "speed_limit")) in
  default 60%Z (if decide (speed_limit_str ≠ "/")
                then py_int (JStr speed_limit_str) else Some 60%Z).

(** The note that [import_speed_cameras] writes for a record. *)
Definition parsed_notes `{Python} (cam_data : gmap string json) : string :=
  "Imported from "
  +:+ py_str (default (JStr "Unknown") (cam_data !! "street"))
  +:+ ", "
  +:+ py_str (default (JStr "Unknown") (cam_data !! "city")).

(** A record of a camera file whose row the table takes when the import
    creates one: of the values of the row, the speed limit and the names of
    the street and the city are the ones that the import does not check
    itself. *)
Definition record_fits `{Python} (cam_data : gmap string json) : Prop :=
  Integer_range (parsed_speed_limit cam_data)
  ∧ Text_fits (parsed_notes cam_data).

(** A camera that the table [speed_cameras] takes as it is: the integers
    are in the range of their columns, the camera type fits [String(50)]
    (its length in bytes bounds its length in characters), the location is
    a point of the globe, the score passes the CHECK and has no more than
    the two decimals of [Numeric(3, 2)], and the texts can be stored. *)
Definition camera_fits (c : SpeedCamera.t) : Prop :=
  Integer_range (SpeedCamera.speed_limit_kmh c)
  ∧ match SpeedCamera.direction_degrees c with
    | Some d => Integer_range d
    | None => True
    end
  ∧ match SpeedCamera.verification_count c with
    | Some n => Integer_range n
    | None => True
    end
  ∧ (String.length (SpeedCamera.camera_type c) ≤ 50)%nat
  ∧ (∃ longitude latitude,
       SpeedCamera.location c = POINT longitude latitude
       ∧ (-90 <= latitude ∧ latitude <= 90)
       ∧ (-180 <= longitude ∧ longitude <= 180))
  ∧ match SpeedCamera.confidence_score c with
    | Some q => (0 <= q ∧ q <= 1) ∧ Numeric_3_2 q = q
    | None => True
    end
  ∧ Text_fits (SpeedCamera.camera_type c)
  ∧ from_option Text_fits True (SpeedCamera.notes c).

(** A request to [create_camera] whose values the table takes as they
    are. *)
Definition request_fits (request : main.CreateCameraRequest.t) : Prop :=
  Integer_range (main.CreateCameraRequest.speed_limit_kmh request)
  ∧ match main.CreateCameraRequest.direction_degrees request with
    | Some d => Integer_range d
    | None => True
    end
  ∧ (String.length (main.CreateCameraRequest.camera_type request) ≤ 50)%nat
  ∧ (-90 <= main.CreateCameraRequest.latitude request
     ∧ main.CreateCameraRequest.latitude request <= 90)
  ∧ (-180 <= main.CreateCameraRequest.longitude request
     ∧ main.CreateCameraRequest.longitude request <= 180)
  ∧ Text_fits (main.CreateCameraRequest.camera_type request)
  ∧ from_option Text_fits True (main.CreateCameraRequest.notes request).

(** The values of a hazard that come from the caller of
    [create_hazard_detection], when the table takes them as they are: the
    type fits [String(50)] and the severity [String(20)] (their lengths in
    bytes bound their lengths in characters), the coordinates are those of
    a point of the globe, and the texts can be stored. *)
Definition hazard_values_fit (latitude longitude : Q)
    (hazard_type severity : string) (description image_url : option string)
    : Prop :=
  (String.length hazard_type ≤ 50)%nat
  ∧ (String.length severity ≤ 20)%nat
  ∧ (-90 <= latitude ∧ latitude <= 90)
  ∧ (-180 <= longitude ∧ longitude <= 180)
  ∧ Text_fits hazard_type
  ∧ Text_fits severity
  ∧ from_option Text_fits True description
  ∧ from_option Text_fits True image_url.

(** The URL of the image of a form, when there is one and it was
    written. *)
Definition written_url (image : option (Await string)) : option string :=
  match image with
  | Some (Ok image_url) => Some image_url
  | _ => None
  end.

(** A hazard that the table [hazard_detections] takes as it is: the values
    above, a count in the range of its column, and a score that passes the
    CHECK and has no more than the two decimals of [Numeric(3, 2)]. *)
Definition hazard_fits (h : HazardDetection.t) : Prop :=
  (String.length (HazardDetection.hazard_type h) ≤ 50)%nat
  ∧ (String.length (HazardDetection.severity h) ≤ 20)%nat
  ∧ (∃ longitude latitude,
       HazardDetection.location h = POINT longitude latitude
       ∧ (-90 <= latitude ∧ latitude <= 90)
       ∧ (-180 <= longitude ∧ longitude <= 180))
  ∧ match HazardDetection.verification_count h with
    | Some n => Integer_range n
    | None => True
    end
  ∧ match HazardDetection.confidence_score h with
    | Some q => (0 <= q ∧ q <= 1) ∧ Numeric_3_2 q = q
    | None => True
    end
  ∧ Text_fits (HazardDetection.hazard_type h)
  ∧ Text_fits (HazardDetection.severity h)
  ∧ from_option Text_fits True (HazardDetection.description h)
  ∧ from_option Text_fits True (HazardDetection.image_url h).

(** A score that [hazard_detections] takes: rounded to the two decimals of
    the column, it passes the CHECK. *)
Definition score_accepted (confidence_score : Q) : Prop :=
  0 <= Numeric_3_2 confidence_score ∧ Numeric_3_2 confidence_score <= 1.

(** The state in which the loop of [import_zones] starts. *)
Definition import_zones_start (session : import_zones.Zones)
    (zone_type : string) : import_zones.State :=
  {| import_zones.db := session;
     import_zones.seen_ids := import_zones.existing_ids session zone_type;
     import_zones.imported_count := 0;
     import_zones.skipped_count := 0;
     import_zones.duplicate_count := 0 |}.

(** What [import_zones] guarantees of a zone it creates: a point, and a
    name, an address and an external identifier that are set and not
    empty. *)
Definition zone_fields (z : Zone.t) : Prop :=
  (∃ longitude latitude, Zone.location z = POINT longitude latitude)
  ∧ (∃ name, Zone.name z = Some name ∧ name ≠ "")
  ∧ (∃ address, Zone.address z = Some address ∧ address ≠ "")
  ∧ (∃ osm_id, Zone.osm_id z = Some osm_id ∧ osm_id ≠ "").

(** The WHERE clauses of [get_nearby_speed_cameras], as one condition on a
    stored camera. *)
Definition camera_matches `{PostGIS} (latitude longitude radius_meters
    min_confidence : Q) (verified_only : bool) (c : SpeedCamera.t) : Prop :=
  ST_DWithin (SpeedCamera.location c) (ST_MakePoint longitude latitude)
    radius_meters
  ∧ (0 < min_confidence → sql_ge (SpeedCamera.confidence_score c) min_confidence)
  ∧ (verified_only = true → SpeedCamera.verified c = Some true).

Global Instance camera_matches_decision `{PostGIS} latitude longitude
    radius_meters min_confidence verified_only c :
  Decision (camera_matches latitude longitude radius_meters min_confidence
              verified_only c).
Proof. unfold camera_matches. apply _. Defined.

(** The WHERE clauses of [get_nearby_hazards]. *)
Definition hazard_matches `{PostGIS} (now : DateTime) (latitude longitude
    radius_meters min_confidence : Q) (active_only : bool)
    (h : HazardDetection.t) : Prop :=
  ST_DWithin (HazardDetection.location h) (ST_MakePoint longitude latitude)
    radius_meters
  ∧ (0 < min_confidence →
     sql_ge (HazardDetection.confidence_score h) min_confidence)
  ∧ (active_only = true →
     HazardDetection.is_active h = Some true
     ∧ (HazardDetection.expires_at h = None
        ∨ sql_gt_time (HazardDetection.expires_at h) now)).

Global Instance hazard_matches_decision `{PostGIS} now latitude longitude
    radius_meters min_confidence active_only h :
  Decision (hazard_matches now latitude longitude radius_meters min_confidence
              active_only h).
Proof. unfold hazard_matches. apply _. Defined.

(** The store once the camera table holds the given rows. *)
Definition with_speed_cameras (db : Database) (rows : list SpeedCamera.t)
    : Database :=
  {| speed_cameras := rows;
     road_speed_limits := road_speed_limits db;
     hazard_detections := hazard_detections db;
     hazardous_road_segments := hazardous_road_segments db;
     school_zones := school_zones db;
     hospital_zones := hospital_zones db |}.

(** The store once the hazard table holds the given rows. *)
Definition with_hazard_detections (db : Database)
    (rows : list HazardDetection.t) : Database :=
  {| speed_cameras := speed_cameras db;
     road_speed_limits := road_speed_limits db;
     hazard_detections := rows;
     hazardous_road_segments := hazardous_road_segments db;
     school_zones := school_zones db;
     hospital_zones := hospital_zones db |}.






(** ** Stand-ins for closed examples

    A flat model of PostGIS (taxicab distance between the first vertices, at
    111.32 km per degree) and simple versions of the builtins, on which the
    definitions above can be run. *)

Definition vertices (g : Geography) : list (Q * Q) :=
  match g with
  | POINT x y => [(x, y)]
  | LINESTRING points => points
  end.

Definition flat_PostGIS : PostGIS :=
  {| ST_Distance g1 g2 :=
       match vertices g1, vertices g2 with
       | p :: _, q :: _ => 111320 * (Qabs (p.1 - q.1) + Qabs (p.2 - q.2))
       | _, _ => 0
       end;
     ST_AsGeoJSON _ := "{}" |}.

Definition simple_Python : Python :=
  {| py_float value :=
       match value with
       | JNum q => Some q
       | _ => None
       end;
     py_int value :=
       match value with
       | JNum q => Some (Qnum q `quot` Zpos (Qden q))%Z
       | JStr s => Z.of_int <$> NilEmpty.int_of_string s
       | JNull => None
       end;
     py_str value :=
       match value with
       | JStr s => s
       | JNum q => pretty (Qnum q `quot` Zpos (Qden q))%Z
       | JNull => "None"
       end;
     py_UUID text := N.of_uint <$> NilEmpty.uint_of_string text |}.

(** A small store: an imported camera, a user's camera some 170 m from the
    query point used below, a camera a degree away, and three hazards, one
    of them expired at time 100. *)
Definition camera_a : SpeedCamera.t :=
  {| SpeedCamera.id := 1%N;
     SpeedCamera.location := ST_MakePoint 80.2707 13.0827;
     SpeedCamera.speed_limit_kmh := 60;
     SpeedCamera.camera_type := "fixed";
     SpeedCamera.direction_degrees := None;
     SpeedCamera.verified := Some true;
     SpeedCamera.verification_count := Some 1%Z;
     SpeedCamera.confidence_score := Some 0.80;
     SpeedCamera.reported_by := None;
     SpeedCamera.notes := None |}.

Definition camera_b : SpeedCamera.t :=
  {| SpeedCamera.id := 2%N;
     SpeedCamera.location := ST_MakePoint 80.2710 13.0840;
     SpeedCamera.speed_limit_kmh := 40;
     SpeedCamera.camera_type := "mobile";
     SpeedCamera.direction_degrees := Some 90%Z;
     SpeedCamera.verified := Some false;
     SpeedCamera.verification_count := Some 0%Z;
     SpeedCamera.confidence_score := Some 0.50;
     SpeedCamera.reported_by := Some 7%N;
     SpeedCamera.notes := None |}.

Definition camera_c : SpeedCamera.t :=
  {| SpeedCamera.id := 3%N;
     SpeedCamera.location := ST_MakePoint 81.2707 14.0827;
     SpeedCamera.speed_limit_kmh := 80;
     SpeedCamera.camera_type := "fixed";
     SpeedCamera.direction_degrees := None;
     SpeedCamera.verified := Some true;
     SpeedCamera.verification_count := Some 1%Z;
     SpeedCamera.confidence_score := Some 0.80;
     SpeedCamera.reported_by := None;
     SpeedCamera.notes := None |}.

Definition hazard (id : UUID) (longitude latitude : Q)
    (expires_at : option DateTime) : HazardDetection.t :=
  {| HazardDetection.id := id;
     HazardDetection.location := ST_MakePoint longitude latitude;
     HazardDetection.hazard_type := "pothole";
     HazardDetection.severity := "medium";
     HazardDetection.confidence_score := Some 0.60;
     HazardDetection.detected_by := Some 7%N;
     HazardDetection.detected_at := 50%Z;
     HazardDetection.expires_at := expires_at;
     HazardDetection.verified := Some false;
     HazardDetection.verification_count := Some 0%Z;
     HazardDetection.is_active := Some true;
     HazardDetection.description := None;
     HazardDetection.image_url := None |}.

Definition hazard_a : HazardDetection.t := hazard 11%N 80.2708 13.0832 None.
Definition hazard_b : HazardDetection.t := hazard 12%N 80.2706 13.0831 (Some 100%Z).
Definition hazard_c : HazardDetection.t := hazard 13%N 80.2705 13.0831 (Some 300%Z).

Definition small_db : Database :=
  {| speed_cameras := [camera_c; camera_b; camera_a];
     road_speed_limits := [];
     hazard_detections := [hazard_a; hazard_b; hazard_c];
     hazardous_road_segments := [];
     school_zones := [];
     hospital_zones := [] |}.

Definition user_7 : User.t :=
  {| User.id := 7%N; User.email := "driver@example.org";
     User.username := "driver" |}.

Definition user_8 : User.t :=
  {| User.id := 8%N; User.email := "other@example.org";
     User.username := "other" |}.

(** Two records of a camera file, about a meter apart. *)
Definition cam_data_1 : gmap string json :=
  {[ "latitude" := JNum 13.0827; "longitude" := JNum 80.2707;
     "speed_limit" := JStr "60"; "camera_type" := JStr "G" ]}.

Definition cam_data_2 : gmap string json :=
  {[ "latitude" := JNum 13.08271; "longitude" := JNum 80.2707;
     "speed_limit" := JStr "60"; "camera_type" := JStr "G" ]}.

(** [int(''.join(filter(str.isdigit, text)))] on a text of ASCII
    characters. *)
Definition isdigit (c : Ascii.ascii) : bool :=
  bool_decide (48 ≤ Ascii.nat_of_ascii c)%nat
  && bool_decide (Ascii.nat_of_ascii c ≤ 57)%nat.

Definition ascii_int_of_digits (text : string) : option Z :=
  match filter isdigit (String.list_ascii_of_string text) with
  | [] => None
  | digits =>
      Some (foldl (λ n c, 10 * n + Z.of_nat (Ascii.nat_of_ascii c) - 48)%Z 0%Z
              digits)
  end.

(** Elements of a speed-limit file: a one-way street of two vertices, the
    same street with a single vertex, a way whose [maxspeed] holds no
    digit, one above 200 km/h, and a node. *)
Definition vertex (lat lon : Q) : gmap string json :=
  {[ "lat" := JNum lat; "lon" := JNum lon ]}.

Definition way (id : Z) (geometry : list (gmap string json))
    (tags : gmap string string) : import_data.Way.t :=
  {| import_data.Way.type := Some "way"; import_data.Way.id := Some id;
     import_data.Way.geometry := geometry; import_data.Way.tags := tags |}.

Definition way_elements : list import_data.Way.t :=
  [way 201 [vertex 13.0827 80.2707; vertex 13.0830 80.2710]
     {[ "maxspeed" := "40 km/h"; "name" := "Anna Salai"; "oneway" := "yes" ]};
   way 202 [vertex 13.0827 80.2707] {[ "maxspeed" := "40" ]};
   way 203 [vertex 13.0827 80.2707; vertex 13.0830 80.2710]
     {[ "maxspeed" := "signals" ]};
   way 204 [vertex 13.0827 80.2707; vertex 13.0830 80.2710]
     {[ "maxspeed" := "250" ]};
   {| import_data.Way.type := Some "node"; import_data.Way.id := Some 205%Z;
      import_data.Way.geometry := []; import_data.Way.tags := ∅ |}].

(** A toy [bcrypt] that keeps the password in the hash, and no [sha256]. *)
Definition simple_Crypto : Crypto :=
  {| sha256_hexdigest raw := raw;
     bcrypt_hashpw password salt := "$2b$" +:+ salt +:+ "$" +:+ password;
     bcrypt_checkpw password hashed :=
       Some (bool_decide
               (hashed ∈ (λ salt, "$2b$" +:+ salt +:+ "$" +:+ password)
                         <$> ["s1"; "s2"])) |}.

Definition account (id : UUID) (email username password_hash : string)
    : User.row :=
  {| User.user :=
       {| User.id := id; User.email := email; User.username := username |};
     User.password_hash := password_hash;
     User.full_name := None;
     User.phone_number := None;
     User.profile_photo_url := None;
     User.trips_count := Some 0%Z;
     User.is_active := Some true;
     User.is_verified := Some false;
     User.created_at := 0%Z |}.

(** A database that loses its connection on the hazards query. *)
Definition hazards_query_fails (statement : main.Statement) : option Exception :=
  match statement with
  | main.SelectHazards => Some (DBAPIError "connection was closed")
  | _ => None
  end.

(** * Properties *)

(** ** ORDER BY distance LIMIT n *)

Global Instance by_distance_total {Row} : Total (@by_distance Row).
Proof.
  intros r1 r2. unfold by_distance.
  destruct (Qlt_le_dec r2.2 r1.2) as [Hlt | Hle].
  - right. apply Qlt_le_weak, Hlt.
  - left. exact Hle.
Qed.

Global Instance by_distance_transitive {Row} : Transitive (@by_distance Row).
Proof. intros r1 r2 r3. unfold by_distance. apply Qle_trans. Qed.

Lemma StronglySorted_take {A} (R : relation A) (n : nat) (l : list A) :
  StronglySorted R l → StronglySorted R (take n l).
Proof.
  intros Hl. revert n.
  induction Hl as [| x l Hl IH Hx]; intros [| n]; simpl; try constructor.
  - apply IH.
  - apply Forall_take, Hx.
Qed.

Section order_by_distance_limit.

Context {Row : Type} (distance_col : Row → Q).

Lemma order_by_distance_limit_Ok limit query :
  (0 ≤ limit)%Z →
  order_by_distance_limit distance_col limit query
  = Ok (map fst (result_rows distance_col limit query)).
Proof.
  intros Hlimit. unfold order_by_distance_limit.
  destruct (decide (limit < 0)%Z); [lia | reflexivity].
Qed.

Lemma order_by_distance_limit_inv limit query result :
  order_by_distance_limit distance_col limit query = Ok result →
  (0 ≤ limit)%Z ∧ result = map fst (result_rows distance_col limit query).
Proof.
  unfold order_by_distance_limit.
  destruct (decide (limit < 0)%Z); [discriminate |].
  intros [= <-]. split; [lia | reflexivity].
Qed.

Lemma result_rows_distance limit query :
  Forall (λ row, row.2 = distance_col row.1) (result_rows distance_col limit query).
Proof.
  apply Forall_take.
  rewrite merge_sort_Permutation.
  apply Forall_forall. intros row Hrow.
  apply list_elem_of_fmap in Hrow as (r & -> & _). reflexivity.
Qed.

Lemma result_rows_sorted limit query :
  StronglySorted by_distance (result_rows distance_col limit query).
Proof. apply StronglySorted_take, StronglySorted_merge_sort; apply _. Qed.

Lemma fst_sorted (rows : list (Row * Q)) :
  Forall (λ row, row.2 = distance_col row.1) rows →
  StronglySorted by_distance rows →
  StronglySorted (λ r1 r2, distance_col r1 <= distance_col r2) (map fst rows).
Proof.
  intros Hrows Hsorted.
  induction Hsorted as [| row rows Hsorted IH Hrow]; simpl; constructor.
  - apply IH. eapply Forall_inv_tail, Hrows.
  - apply Forall_fmap, Forall_forall. intros row' Hrow'. simpl.
    rewrite Forall_forall in Hrow. specialize (Hrow row' Hrow').
    rewrite Forall_forall in Hrows.
    unfold by_distance in Hrow.
    rewrite <- (Hrows row), <- (Hrows row'); [exact Hrow | |].
    + right. exact Hrow'.
    + left.
Qed.

Lemma order_by_distance_limit_sorted limit query result :
  order_by_distance_limit distance_col limit query = Ok result →
  StronglySorted (λ r1 r2, distance_col r1 <= distance_col r2) result.
Proof.
  intros [_ ->]%order_by_distance_limit_inv.
  apply fst_sorted; [apply result_rows_distance | apply result_rows_sorted].
Qed.

Lemma order_by_distance_limit_length limit query result :
  order_by_distance_limit distance_col limit query = Ok result →
  (Z.of_nat (length result) ≤ limit)%Z.
Proof.
  intros [Hlimit ->]%order_by_distance_limit_inv.
  unfold result_rows. rewrite length_map, length_take. lia.
Qed.

Lemma order_by_distance_limit_elem_of limit query result r :
  order_by_distance_limit distance_col limit query = Ok result →
  r ∈ result → r ∈ query.
Proof.
  intros [_ ->]%order_by_distance_limit_inv Hr.
  apply list_elem_of_fmap in Hr as (row & -> & Hrow).
  apply subseteq_take in Hrow.
  rewrite merge_sort_Permutation in Hrow.
  apply list_elem_of_fmap in Hrow as (r & -> & Hr). exact Hr.
Qed.

(** With a limit that does not cut, every selected row is returned. *)
Lemma order_by_distance_limit_all limit query result r :
  order_by_distance_limit distance_col limit query = Ok result →
  (Z.of_nat (length query) ≤ limit)%Z →
  r ∈ query → r ∈ result.
Proof.
  intros [_ ->]%order_by_distance_limit_inv Hlimit Hr.
  unfold result_rows. rewrite take_ge.
  - apply list_elem_of_fmap. exists (r, distance_col r). split; [reflexivity |].
    rewrite merge_sort_Permutation.
    apply list_elem_of_fmap. exists r. split; [reflexivity | exact Hr].
  - rewrite merge_sort_Permutation, length_map. lia.
Qed.

End order_by_distance_limit.

(** ** The nearby queries *)

Section nearby.

Context `{PostGIS}.

(** What the WHERE clauses of [get_nearby_speed_cameras] say of a returned
    camera. *)
Lemma get_nearby_speed_cameras_where db latitude longitude radius_meters
    min_confidence verified_only limit result c :
  queries.get_nearby_speed_cameras db latitude longitude radius_meters
    min_confidence verified_only limit = Ok result →
  c ∈ result →
  c ∈ speed_cameras db
  ∧ ST_DWithin (SpeedCamera.location c) (ST_MakePoint longitude latitude)
      radius_meters
  ∧ (0 < min_confidence → sql_ge (SpeedCamera.confidence_score c) min_confidence)
  ∧ (verified_only = true → SpeedCamera.verified c = Some true).
Proof.
  unfold queries.get_nearby_speed_cameras. intros Hresult Hc.
  eapply order_by_distance_limit_elem_of in Hc; [| exact Hresult].
  destruct verified_only, (decide (0 < min_confidence));
    repeat (apply list_elem_of_filter in Hc as [? Hc]);
    repeat split; try done.
Qed.

Lemma get_nearby_hazards_where db now latitude longitude radius_meters
    min_confidence active_only limit result h :
  queries.get_nearby_hazards db now latitude longitude radius_meters
    min_confidence active_only limit = Ok result →
  h ∈ result →
  h ∈ hazard_detections db
  ∧ ST_DWithin (HazardDetection.location h) (ST_MakePoint longitude latitude)
      radius_meters
  ∧ (0 < min_confidence → sql_ge (HazardDetection.confidence_score h) min_confidence)
  ∧ (active_only = true →
     HazardDetection.is_active h = Some true
     ∧ (HazardDetection.expires_at h = None
        ∨ sql_gt_time (HazardDetection.expires_at h) now)).
Proof.
  unfold queries.get_nearby_hazards. intros Hresult Hh.
  eapply order_by_distance_limit_elem_of in Hh; [| exact Hresult].
  destruct active_only, (decide (0 < min_confidence));
    repeat (apply list_elem_of_filter in Hh as [? Hh]);
    repeat split; try done; tauto.
Qed.

(** A nearby query returns whenever its limit is not negative; a negative
    limit is refused by the database. *)
Lemma get_nearby_speed_cameras_returns db latitude longitude radius_meters
    min_confidence verified_only limit :
  (0 ≤ limit)%Z ↔
  ∃ result, queries.get_nearby_speed_cameras db latitude longitude
              radius_meters min_confidence verified_only limit = Ok result.
Proof.
  unfold queries.get_nearby_speed_cameras. split.
  - intros Hlimit. eexists. apply order_by_distance_limit_Ok, Hlimit.
  - intros [result Hresult]. apply order_by_distance_limit_inv in Hresult.
    tauto.
Qed.

Lemma get_nearby_hazards_returns db now latitude longitude radius_meters
    min_confidence active_only limit :
  (0 ≤ limit)%Z ↔
  ∃ result, queries.get_nearby_hazards db now latitude longitude
              radius_meters min_confidence active_only limit = Ok result.
Proof.
  unfold queries.get_nearby_hazards. split.
  - intros Hlimit. eexists. apply order_by_distance_limit_Ok, Hlimit.
  - intros [result Hresult]. apply order_by_distance_limit_inv in Hresult.
    tauto.
Qed.

End nearby.

(** C3.  Every camera, and every hazard, that a nearby query returns lies
    within the requested radius of the query point; the returned sequence is
    sorted by non-decreasing distance to that point; and it is no longer
    than the requested limit. *)
Theorem nearby_within_radius_sorted_limited `{PostGIS} db now latitude longitude
    radius_meters min_confidence verified_only active_only limit :
  let point := ST_MakePoint longitude latitude in
  (∀ cameras,
     queries.get_nearby_speed_cameras db latitude longitude radius_meters
       min_confidence verified_only limit = Ok cameras →
     Forall (λ c, ST_Distance (SpeedCamera.location c) point <= radius_meters)
       cameras
     ∧ StronglySorted
         (λ c1 c2, ST_Distance (SpeedCamera.location c1) point
                   <= ST_Distance (SpeedCamera.location c2) point) cameras
     ∧ (Z.of_nat (length cameras) ≤ limit)%Z)
  ∧ (∀ hazards,
       queries.get_nearby_hazards db now latitude longitude radius_meters
         min_confidence active_only limit = Ok hazards →
       Forall (λ h, ST_Distance (HazardDetection.location h) point
                    <= radius_meters) hazards
       ∧ StronglySorted
           (λ h1 h2, ST_Distance (HazardDetection.location h1) point
                     <= ST_Distance (HazardDetection.location h2) point) hazards
       ∧ (Z.of_nat (length hazards) ≤ limit)%Z).
Proof.
  intros point. split.
  - intros cameras Hresult. split; [| split].
    + apply Forall_forall. intros c Hc.
      eapply get_nearby_speed_cameras_where in Hc as (_ & Hc & _);
        [exact Hc | exact Hresult].
    + eapply (order_by_distance_limit_sorted
                (λ c, ST_Distance (SpeedCamera.location c) point)), Hresult.
    + eapply order_by_distance_limit_length, Hresult.
  - intros hazards Hresult. split; [| split].
    + apply Forall_forall. intros h Hh.
      eapply get_nearby_hazards_where in Hh as (_ & Hh & _);
        [exact Hh | exact Hresult].
    + eapply (order_by_distance_limit_sorted
                (λ h, ST_Distance (HazardDetection.location h) point)), Hresult.
    + eapply order_by_distance_limit_length, Hresult.
Qed.

(** C4.  No camera and no hazard that a nearby query returns has a
    confidence score strictly below the requested [min_confidence].  For a
    positive [min_confidence] the WHERE clause sees to it; otherwise the
    query adds no clause, and the CHECK constraint of the table keeps every
    stored score at or above zero. *)
Theorem min_confidence_respected `{PostGIS} db now latitude longitude
    radius_meters min_confidence verified_only active_only limit :
  Forall (λ c, confidence_check (SpeedCamera.confidence_score c))
    (speed_cameras db) →
  Forall (λ h, confidence_check (HazardDetection.confidence_score h))
    (hazard_detections db) →
  (∀ cameras,
     queries.get_nearby_speed_cameras db latitude longitude radius_meters
       min_confidence verified_only limit = Ok cameras →
     Forall (λ c, ∀ score, SpeedCamera.confidence_score c = Some score →
                           ¬ score < min_confidence) cameras)
  ∧ (∀ hazards,
       queries.get_nearby_hazards db now latitude longitude radius_meters
         min_confidence active_only limit = Ok hazards →
       Forall (λ h, ∀ score, HazardDetection.confidence_score h = Some score →
                             ¬ score < min_confidence) hazards).
Proof.
  intros Hcameras Hhazards. split.
  - intros cameras Hresult. apply Forall_forall. intros c Hc score Hscore.
    eapply get_nearby_speed_cameras_where in Hc as (Hdb & _ & Hmin & _);
      [| exact Hresult].
    apply Qle_not_lt.
    destruct (decide (0 < min_confidence)) as [Hpos | Hneg].
    + specialize (Hmin Hpos). rewrite Hscore in Hmin. exact Hmin.
    + rewrite Forall_forall in Hcameras. specialize (Hcameras c Hdb).
      rewrite Hscore in Hcameras. destruct Hcameras as [H0 _].
      apply Qnot_lt_le in Hneg. eapply Qle_trans; [exact Hneg | exact H0].
  - intros hazards Hresult. apply Forall_forall. intros h Hh score Hscore.
    eapply get_nearby_hazards_where in Hh as (Hdb & _ & Hmin & _);
      [| exact Hresult].
    apply Qle_not_lt.
    destruct (decide (0 < min_confidence)) as [Hpos | Hneg].
    + specialize (Hmin Hpos). rewrite Hscore in Hmin. exact Hmin.
    + rewrite Forall_forall in Hhazards. specialize (Hhazards h Hdb).
      rewrite Hscore in Hhazards. destruct Hhazards as [H0 _].
      apply Qnot_lt_le in Hneg. eapply Qle_trans; [exact Hneg | exact H0].
Qed.

(** C5.  With [active_only], a hazard whose [expires_at] is not after the
    time of the query is never returned, whatever its [is_active] flag; a
    stored hazard that is active, has no expiry or one still ahead, lies
    within the radius and passes the confidence filter is returned when the
    limit does not cut the result.  The query reads the stored rows and the
    time [now] at which it runs; it deletes nothing. *)
Theorem expired_hazards_excluded `{PostGIS} db now latitude longitude
    radius_meters min_confidence limit hazards :
  queries.get_nearby_hazards db now latitude longitude radius_meters
    min_confidence true limit = Ok hazards →
  (∀ h expires_at,
     HazardDetection.expires_at h = Some expires_at →
     (expires_at ≤ now)%Z →
     h ∉ hazards)
  ∧ (∀ h, h ∈ hazards → HazardDetection.is_active h = Some true)
  ∧ (∀ h,
       h ∈ hazard_detections db →
       HazardDetection.is_active h = Some true →
       (HazardDetection.expires_at h = None
        ∨ ∃ expires_at, HazardDetection.expires_at h = Some expires_at
                        ∧ (now < expires_at)%Z) →
       ST_DWithin (HazardDetection.location h) (ST_MakePoint longitude latitude)
         radius_meters →
       (0 < min_confidence →
        sql_ge (HazardDetection.confidence_score h) min_confidence) →
       (Z.of_nat (length (hazard_detections db)) ≤ limit)%Z →
       h ∈ hazards).
Proof.
  intros Hresult. split; [| split].
  - intros h expires_at Hexpires Hpast Hh.
    eapply get_nearby_hazards_where in Hh as (_ & _ & _ & Hactive);
      [| exact Hresult].
    destruct (Hactive eq_refl) as [_ [Hnone | Hfuture]].
    + congruence.
    + rewrite Hexpires in Hfuture. simpl in Hfuture. lia.
  - intros h Hh.
    eapply get_nearby_hazards_where in Hh as (_ & _ & _ & Hactive);
      [| exact Hresult].
    apply Hactive. reflexivity.
  - intros h Hdb Hactive Hexpires Hwithin Hmin Hlimit.
    unfold queries.get_nearby_hazards in Hresult.
    eapply order_by_distance_limit_all; [exact Hresult | |].
    + etransitivity; [| exact Hlimit]. apply inj_le.
      destruct (decide (0 < min_confidence));
        repeat (etransitivity; [apply length_filter |]); done.
    + assert (HazardDetection.expires_at h = None
              ∨ sql_gt_time (HazardDetection.expires_at h) now) as Hexpires'.
      { destruct Hexpires as [Hnone | (expires_at & Hsome & Hfuture)].
        - left. exact Hnone.
        - right. rewrite Hsome. exact Hfuture. }
      destruct (decide (0 < min_confidence));
        repeat (apply list_elem_of_filter; split); auto.
Qed.

(** ** Deleting a camera *)

Lemma filter_none {A} (P : A → Prop) `{∀ x, Decision (P x)} (l : list A) :
  Forall (λ x, ¬ P x) l → filter P l = [].
Proof.
  induction 1 as [| x l Hx _ IH]; [reflexivity |].
  rewrite filter_cons, decide_False by exact Hx. exact IH.
Qed.

(** The primary key: the row with a given identifier is the only one the
    SELECT of [delete_camera] finds. *)
Lemma select_by_id rows c :
  NoDup (SpeedCamera.id <$> rows) →
  c ∈ rows →
  filter (λ c', SpeedCamera.id c' = SpeedCamera.id c) rows = [c].
Proof.
  induction rows as [| c' rows IH]; intros Hnodup Hc.
  - inversion Hc.
  - rewrite fmap_cons in Hnodup. apply NoDup_cons in Hnodup as [Hfresh Hnodup].
    rewrite filter_cons. apply elem_of_cons in Hc as [<- | Hc].
    + rewrite decide_True by reflexivity. f_equal.
      apply filter_none, Forall_forall. intros c' Hc' Heq.
      apply Hfresh. rewrite <- Heq. apply list_elem_of_fmap. eauto.
    + rewrite decide_False; [apply IH; assumption |].
      intros Heq. apply Hfresh. rewrite Heq.
      apply list_elem_of_fmap. eauto.
Qed.

Lemma select_unknown_id rows (cam_uuid : UUID) :
  (∀ c, c ∈ rows → SpeedCamera.id c ≠ cam_uuid) →
  filter (λ c, SpeedCamera.id c = cam_uuid) rows = [].
Proof.
  intros Hunknown. apply filter_none, Forall_forall. exact Hunknown.
Qed.

(** C6.  On a table whose identifiers are unique, a delete request for an
    unknown identifier fails with 404 Not Found; a request by anyone but the
    user recorded in [reported_by] fails with 403 Forbidden; in both cases
    the table is left as it was.  A request by the reporter removes the
    camera, and only that camera. *)
Theorem delete_camera_owner_only `{Python} rows camera_id cam_uuid current_user :
  py_UUID camera_id = Some cam_uuid →
  NoDup (SpeedCamera.id <$> rows) →
  ((∀ c, c ∈ rows → SpeedCamera.id c ≠ cam_uuid) →
   main.delete_camera (session_of rows) camera_id current_user
   = (session_of rows, Raise (HTTPException 404 "Camera not found")))
  ∧ (∀ c, c ∈ rows → SpeedCamera.id c = cam_uuid →
       SpeedCamera.reported_by c ≠ Some (User.id current_user) →
       main.delete_camera (session_of rows) camera_id current_user
       = (session_of rows,
          Raise (HTTPException 403 "You can only delete cameras you added")))
  ∧ (∀ c, c ∈ rows → SpeedCamera.id c = cam_uuid →
       SpeedCamera.reported_by c = Some (User.id current_user) →
       main.delete_camera (session_of rows) camera_id current_user
       = (session_of (filter (λ c', SpeedCamera.id c' ≠ cam_uuid) rows), Ok ())
       ∧ (c ∉ filter (λ c', SpeedCamera.id c' ≠ cam_uuid) rows)
       ∧ (∀ c', c' ∈ rows → c' ≠ c →
                c' ∈ filter (λ c', SpeedCamera.id c' ≠ cam_uuid) rows)).
Proof.
  intros Huuid Hnodup. unfold main.delete_camera. rewrite Huuid. simpl.
  split; [| split].
  - intros Hunknown. rewrite select_unknown_id by exact Hunknown. reflexivity.
  - intros c Hc <- Hother. rewrite select_by_id by assumption. simpl.
    rewrite decide_True by exact Hother. reflexivity.
  - intros c Hc <- Howner. rewrite select_by_id by assumption. simpl.
    rewrite decide_False by (intros Hne; apply Hne, Howner).
    split; [| split].
    + unfold commit, flush, session_of. simpl. rewrite app_nil_r. reflexivity.
    + intros [Hne _]%list_elem_of_filter. apply Hne. reflexivity.
    + intros c' Hc' Hne. apply list_elem_of_filter. split; [| exact Hc'].
      intros Heq. apply Hne.
      pose proof (select_by_id rows c Hnodup Hc) as Hselect.
      assert (c' ∈ filter (λ c'', SpeedCamera.id c'' = SpeedCamera.id c) rows)
        as Hin by (apply list_elem_of_filter; split; assumption).
      rewrite Hselect in Hin. apply list_elem_of_singleton in Hin. exact Hin.
Qed.

(** C10.  A camera whose [reported_by] is NULL cannot be deleted through
    [delete_camera]: for every requester the comparison with the requester's
    identifier fails, the request is answered 403 Forbidden, and the table
    is left as it was. *)
Theorem delete_camera_without_reporter `{Python} rows camera_id current_user c :
  py_UUID camera_id = Some (SpeedCamera.id c) →
  NoDup (SpeedCamera.id <$> rows) →
  c ∈ rows →
  SpeedCamera.reported_by c = None →
  main.delete_camera (session_of rows) camera_id current_user
  = (session_of rows,
     Raise (HTTPException 403 "You can only delete cameras you added")).
Proof.
  intros Huuid Hnodup Hc Hnull. unfold main.delete_camera.
  rewrite Huuid. simpl. rewrite select_by_id by assumption. simpl.
  rewrite Hnull. rewrite decide_True by discriminate. reflexivity.
Qed.

(** ** Camera import *)

Lemma all_rows_add {Row} (db : Session Row) row :
  all_rows (add db row) = all_rows db ++ [row].
Proof. unfold all_rows, add. simpl. apply app_assoc. Qed.

Lemma all_rows_commit {Row} (db : Session Row) :
  all_rows (commit db) = all_rows db.
Proof. unfold all_rows, commit, flush. simpl. apply app_nil_r. Qed.

Lemma commit_session_of {Row} (rows : list Row) :
  commit (session_of rows) = session_of rows.
Proof. unfold commit, flush, session_of. simpl. rewrite app_nil_r. reflexivity. Qed.

Lemma head_take_1 {A} (l : list A) : head (take 1 l) = head l.
Proof. destruct l; reflexivity. Qed.

Section import_speed_cameras.

Context `{PostGIS} `{Python} (uuid4 : nat → UUID).

Lemma camera_type_map_values k :
  default "fixed" (import_data.camera_type_map !! k)
  ∈ ["fixed"; "mobile"; "average_speed"].
Proof.
  unfold import_data.camera_type_map.
  destruct (decide (k = "G")) as [-> | HG];
    [rewrite lookup_insert_eq; simpl; left |].
  rewrite lookup_insert_ne by congruence.
  destruct (decide (k = "M")) as [-> | HM];
    [rewrite lookup_insert_eq; simpl; right; left |].
  rewrite lookup_insert_ne by congruence.
  destruct (decide (k = "A")) as [-> | HA];
    [rewrite lookup_singleton_eq; simpl; right; right; left |].
  rewrite lookup_singleton_ne by congruence. simpl. left.
Qed.

Lemma invalid_coordinates_false latitude longitude :
  import_data.invalid_coordinates latitude longitude = false →
  (-90 <= latitude ∧ latitude <= 90) ∧ (-180 <= longitude ∧ longitude <= 180).
Proof.
  unfold import_data.invalid_coordinates.
  intros [Hlat Hlon]%orb_false_elim.
  apply negb_false_iff, andb_true_iff in Hlat as [Hlat1 Hlat2].
  apply negb_false_iff, andb_true_iff in Hlon as [Hlon1 Hlon2].
  apply bool_decide_eq_true in Hlat1, Hlat2, Hlon1, Hlon2. tauto.
Qed.

(** An iteration adds at most one camera, with the import's defaults, and
    touches no other row. *)
Lemma import_camera_step_rows st cam_data :
  ∃ new,
    all_rows (import_data.db (import_data.import_camera_step uuid4 st cam_data))
    = all_rows (import_data.db st) ++ new
    ∧ Forall imported_defaults new
    ∧ import_data.imported_count (import_data.import_camera_step uuid4 st cam_data)
      = (import_data.imported_count st + length new)%nat.
Proof.
  assert (∃ new : list SpeedCamera.t,
            all_rows (import_data.db (import_data.skip st))
            = all_rows (import_data.db st) ++ new
            ∧ Forall imported_defaults new
            ∧ import_data.imported_count (import_data.skip st)
              = (import_data.imported_count st + length new)%nat) as Hskip.
  { exists []. simpl. rewrite app_nil_r. repeat split; [constructor | lia]. }
  unfold import_data.import_camera_step, import_data.import_camera.
  destruct (py_float (default (JNum 0) (cam_data !! "latitude")))
    as [latitude |]; simpl; [| exact Hskip].
  destruct (py_float (default (JNum 0) (cam_data !! "longitude")))
    as [longitude |]; simpl; [| exact Hskip].
  destruct (import_data.invalid_coordinates latitude longitude); simpl;
    [exact Hskip |].
  destruct (head _); simpl; [exact Hskip |].
  eexists [_]. split; [| split].
  - destruct (decide _); rewrite ?all_rows_commit; apply all_rows_add.
  - repeat constructor.
  - simpl. lia.
Qed.

Lemma import_camera_loop_rows cameras_data st :
  ∃ new,
    all_rows (import_data.db
                (foldl (import_data.import_camera_step uuid4) st cameras_data))
    = all_rows (import_data.db st) ++ new
    ∧ Forall imported_defaults new
    ∧ import_data.imported_count
        (foldl (import_data.import_camera_step uuid4) st cameras_data)
      = (import_data.imported_count st + length new)%nat.
Proof.
  revert st. induction cameras_data as [| cam_data cameras_data IH]; intros st.
  - exists []. simpl. rewrite app_nil_r. repeat split; [constructor | lia].
  - simpl.
    destruct (import_camera_step_rows st cam_data) as (new1 & Hrows1 & Hnew1 & Hcount1).
    destruct (IH (import_data.import_camera_step uuid4 st cam_data))
      as (new2 & Hrows2 & Hnew2 & Hcount2).
    exists (new1 ++ new2). split; [| split].
    + rewrite Hrows2, Hrows1. symmetry. apply app_assoc.
    + apply Forall_app. split; assumption.
    + rewrite Hcount2, Hcount1, length_app. lia.
Qed.

(** The table after an import: the rows the session held, then the cameras
    the import created. *)
Lemma import_speed_cameras_rows session cameras_data :
  ∃ new,
    (import_data.import_speed_cameras uuid4 session cameras_data).1
    = session_of (all_rows session ++ new)
    ∧ Forall imported_defaults new
    ∧ (import_data.import_speed_cameras uuid4 session cameras_data).2
      = length new.
Proof.
  unfold import_data.import_speed_cameras.
  destruct (import_camera_loop_rows cameras_data
              {| import_data.db := session; import_data.imported_count := 0;
                 import_data.skipped_count := 0 |})
    as (new & Hrows & Hnew & Hcount).
  exists new. simpl in *. split; [| split]; [| exact Hnew | exact Hcount].
  unfold commit, flush, session_of. f_equal. exact Hrows.
Qed.

(** The rows that the import writes are rows that the table takes, when
    the records fit. *)
Lemma import_camera_step_fits st cam_data :
  record_fits cam_data →
  ∃ new,
    all_rows (import_data.db (import_data.import_camera_step uuid4 st cam_data))
    = all_rows (import_data.db st) ++ new
    ∧ Forall (λ c, imported_defaults c ∧ camera_fits c) new
    ∧ import_data.imported_count (import_data.import_camera_step uuid4 st cam_data)
      = (import_data.imported_count st + length new)%nat.
Proof.
  intros [Hspeed Hnotes].
  assert (∃ new : list SpeedCamera.t,
            all_rows (import_data.db (import_data.skip st))
            = all_rows (import_data.db st) ++ new
            ∧ Forall (λ c, imported_defaults c ∧ camera_fits c) new
            ∧ import_data.imported_count (import_data.skip st)
              = (import_data.imported_count st + length new)%nat) as Hskip.
  { exists []. simpl. rewrite app_nil_r. repeat split; [constructor | lia]. }
  unfold import_data.import_camera_step, import_data.import_camera.
  destruct (py_float (default (JNum 0) (cam_data !! "latitude")))
    as [latitude |]; simpl; [| exact Hskip].
  destruct (py_float (default (JNum 0) (cam_data !! "longitude")))
    as [longitude |]; simpl; [| exact Hskip].
  destruct (import_data.invalid_coordinates latitude longitude) eqn:Hvalid;
    simpl; [exact Hskip |].
  destruct (head _); simpl; [exact Hskip |].
  eexists [_]. split; [| split].
  - destruct (decide _); rewrite ?all_rows_commit; apply all_rows_add.
  - constructor; [| constructor]. split; [repeat split |].
    unfold camera_fits, SpeedCamera.insert, Integer_range.
    cbn [SpeedCamera.speed_limit_kmh SpeedCamera.direction_degrees
         SpeedCamera.verification_count SpeedCamera.camera_type
         SpeedCamera.location SpeedCamera.confidence_score
         SpeedCamera.notes default from_option].
    assert (∀ camera_type,
              camera_type ∈ ["fixed"; "mobile"; "average_speed"] →
              (String.length camera_type ≤ 50)%nat ∧ Text_fits camera_type)
      as Hknown.
    { intros camera_type Hin.
      repeat (apply elem_of_cons in Hin as [-> | Hin];
              [split; [simpl; lia
                      | apply (bool_decide_unpack _); vm_compute; exact I] |]).
      inversion Hin. }
    split; [exact Hspeed |].
    split; [| split; [vm_compute; split; discriminate
                     | split; [| split; [| split; [| split]]]]].
    + destruct (truthy _); [| exact I].
      destruct (py_int _) as [d |]; [| exact I].
      destruct (bool_decide (0 ≤ d)%Z) eqn:Hlow; simpl; [| exact I].
      destruct (bool_decide (d ≤ 360)%Z) eqn:Hhigh; simpl; [| exact I].
      apply bool_decide_eq_true in Hlow, Hhigh. lia.
    + apply Hknown.
      destruct (default (JStr "G") (cam_data !! "camera_type"));
        try (left; fail). apply camera_type_map_values.
    + exists longitude, latitude. split; [reflexivity |].
      apply invalid_coordinates_false, Hvalid.
    + vm_compute. split; [split; discriminate | reflexivity].
    + apply Hknown.
      destruct (default (JStr "G") (cam_data !! "camera_type"));
        try (left; fail). apply camera_type_map_values.
    + exact Hnotes.
  - simpl. lia.
Qed.

Lemma import_camera_loop_fits cameras_data st :
  Forall record_fits cameras_data →
  ∃ new,
    all_rows (import_data.db
                (foldl (import_data.import_camera_step uuid4) st cameras_data))
    = all_rows (import_data.db st) ++ new
    ∧ Forall (λ c, imported_defaults c ∧ camera_fits c) new
    ∧ import_data.imported_count
        (foldl (import_data.import_camera_step uuid4) st cameras_data)
      = (import_data.imported_count st + length new)%nat.
Proof.
  intros Hfit. revert st.
  induction Hfit as [| cam_data cameras_data Hspeed _ IH]; intros st.
  - exists []. simpl. rewrite app_nil_r. repeat split; [constructor | lia].
  - simpl.
    destruct (import_camera_step_fits st cam_data Hspeed)
      as (new1 & Hrows1 & Hnew1 & Hcount1).
    destruct (IH (import_data.import_camera_step uuid4 st cam_data))
      as (new2 & Hrows2 & Hnew2 & Hcount2).
    exists (new1 ++ new2). split; [| split].
    + rewrite Hrows2, Hrows1. symmetry. apply app_assoc.
    + apply Forall_app. split; assumption.
    + rewrite Hcount2, Hcount1, length_app. lia.
Qed.

(** The whole function, on records that fit. *)
Lemma import_speed_cameras_fits rows cameras_data :
  Forall record_fits cameras_data →
  ∃ new,
    import_data.import_speed_cameras uuid4 (session_of rows) cameras_data
    = (session_of (rows ++ new), length new)
    ∧ Forall (λ c, imported_defaults c ∧ camera_fits c) new.
Proof.
  intros Hfit. unfold import_data.import_speed_cameras.
  destruct (import_camera_loop_fits cameras_data
              {| import_data.db := session_of rows;
                 import_data.imported_count := 0;
                 import_data.skipped_count := 0 |} Hfit)
    as (new & Hrows & Hnew & Hcount).
  exists new.
  cbn [import_data.db import_data.imported_count] in Hrows, Hcount.
  split; [| exact Hnew].
  change (all_rows (session_of rows)) with (rows ++ []) in Hrows.
  rewrite app_nil_r in Hrows.
  match goal with
  | |- (commit ?db, _) = _ => change (commit db) with (session_of (all_rows db))
  end.
  rewrite Hcount, Hrows. reflexivity.
Qed.

End import_speed_cameras.

(** A record that parses, has valid coordinates and finds no written camera
    within 10 meters is inserted. *)
Lemma import_one_new `{PostGIS} `{Python} uuid4 rows cam_data latitude longitude :
  py_float (default (JNum 0) (cam_data !! "latitude")) = Some latitude →
  py_float (default (JNum 0) (cam_data !! "longitude")) = Some longitude →
  import_data.invalid_coordinates latitude longitude = false →
  Forall (λ c, ¬ ST_DWithin (SpeedCamera.location c)
                   (ST_MakePoint longitude latitude) 10.0) rows →
  ∃ c,
    import_data.import_speed_cameras uuid4 (session_of rows) [cam_data]
    = (session_of (rows ++ [c]), 1%nat)
    ∧ SpeedCamera.location c = ST_MakePoint longitude latitude
    ∧ imported_defaults c.
Proof.
  intros Hlat Hlon Hvalid Hnone.
  unfold import_data.import_speed_cameras. simpl.
  unfold import_data.import_camera_step, import_data.import_camera.
  rewrite Hlat. simpl. rewrite Hlon. simpl. rewrite Hvalid.
  rewrite head_take_1. simpl. rewrite filter_none by exact Hnone. simpl.
  eexists. split; [reflexivity |]. split; [reflexivity |]. repeat split.
Qed.


(** The same record, when its speed limit fits the column: the created row
    is one that the table takes. *)
Lemma import_one_new_fits `{PostGIS} `{Python} uuid4 rows cam_data
    latitude longitude :
  parsed_point cam_data latitude longitude →
  Forall (λ c, ¬ ST_DWithin (SpeedCamera.location c)
                   (ST_MakePoint longitude latitude) 10.0) rows →
  record_fits cam_data →
  ∃ c,
    import_data.import_speed_cameras uuid4 (session_of rows) [cam_data]
    = (session_of (rows ++ [c]), 1%nat)
    ∧ SpeedCamera.location c = ST_MakePoint longitude latitude
    ∧ imported_defaults c
    ∧ camera_fits c.
Proof.
  intros (Hlat & Hlon & Hvalid) Hnone Hspeed.
  destruct (import_one_new uuid4 rows cam_data latitude longitude
              Hlat Hlon Hvalid Hnone) as (c & Hrun & Hlocation & Hdefaults).
  destruct (import_speed_cameras_fits uuid4 rows [cam_data]) as (new & Hrun' & Hnew).
  { constructor; [exact Hspeed | constructor]. }
  exists c. split; [exact Hrun |]. split; [exact Hlocation |].
  split; [exact Hdefaults |].
  rewrite Hrun in Hrun'. injection Hrun' as Hrows _.
  apply app_inv_head in Hrows. subst new.
  inversion Hnew as [| c' new' Hc _]. apply Hc.
Qed.


(** ** Zone import *)

Lemma pretty_N_go_nonempty (x : N) (s : string) :
  s ≠ "" → pretty_N_go x s ≠ "".
Proof.
  revert s. induction (N.lt_wf_0 x) as [x _ IH]. intros s Hs.
  destruct (decide (0 < x)%N) as [Hpos | Hzero].
  - rewrite pretty_N_go_step by exact Hpos.
    apply IH; [apply N.div_lt; lia | discriminate].
  - replace x with 0%N by lia. rewrite pretty_N_go_0. exact Hs.
Qed.

Lemma pretty_positive_nonempty (p : positive) : pretty p ≠ "".
Proof.
  unfold pretty, pretty_positive, pretty, pretty_N.
  rewrite decide_False by discriminate.
  rewrite pretty_N_go_step by lia.
  apply pretty_N_go_nonempty. discriminate.
Qed.

(** [str] of an OSM identifier, or of [None], is never the empty string. *)
Lemma str_id_nonempty id : import_zones.str_id id ≠ "".
Proof.
  destruct id as [[| p | p] |]; simpl; try discriminate.
  apply pretty_positive_nonempty.
Qed.

(** The prefetched set: the non-empty identifiers stored in the selected
    table. *)
Lemma existing_ids_spec db zone_type s :
  s ∈ import_zones.existing_ids db zone_type
  ↔ s ≠ "" ∧ Some s ∈ Zone.osm_id <$> table (selected zone_type db).
Proof.
  unfold import_zones.existing_ids.
  replace (import_zones.select_osm_id db zone_type)
    with (Zone.osm_id <$> table (selected zone_type db))
    by (unfold import_zones.select_osm_id, selected;
        destruct (decide (zone_type = "school")); reflexivity).
  generalize (Zone.osm_id <$> table (selected zone_type db)). intros rows.
  assert (∀ ids : gset string,
            s ∈ foldl (λ ids row,
                         match row with
                         | Some osm_id =>
                             if decide (osm_id ≠ "") then ids ∪ {[ osm_id ]} else ids
                         | None => ids
                         end) ids rows
            ↔ s ∈ ids ∨ (s ≠ "" ∧ Some s ∈ rows)) as Hfold.
  { induction rows as [| row rows IH]; intros ids; simpl.
    - split; [tauto |]. intros [Hs | [_ Hs]]; [exact Hs | inversion Hs].
    - rewrite IH. destruct row as [osm_id |].
      + destruct (decide (osm_id ≠ "")) as [Hne | Heq].
        * rewrite elem_of_union, elem_of_singleton, elem_of_cons.
          split.
          -- intros [[Hs | ->] | [Hs1 Hs2]]; auto.
          -- intros [Hs | [Hs1 [[= ->] | Hs2]]]; auto.
        * rewrite elem_of_cons. split.
          -- intros [Hs | [Hs1 Hs2]]; auto.
          -- intros [Hs | [Hs1 [[= ->] | Hs2]]]; auto.
             exfalso. apply Heq, Hs1.
      + rewrite elem_of_cons. split.
        * intros [Hs | [Hs1 Hs2]]; auto.
        * intros [Hs | [Hs1 [[=] | Hs2]]]; auto. }
  rewrite Hfold. rewrite elem_of_empty. tauto.
Qed.

(** Every identifier for which a zone is created comes from an element, was
    not in the set the loop started with, and is created once. *)
Lemma created_ids_source seen elements s :
  s ∈ created_ids seen elements →
  (s ∉ seen)
  ∧ (∃ element, element ∈ elements
                ∧ s = import_zones.str_id (import_zones.id element)).
Proof.
  revert seen. induction elements as [| element elements IH]; intros seen; simpl.
  - intros Hs. inversion Hs.
  - assert (∀ seen', seen ⊆ seen' →
              s ∈ created_ids seen' elements →
              (s ∉ seen)
              ∧ (∃ element', element' ∈ element :: elements
                   ∧ s = import_zones.str_id (import_zones.id element')))
      as Hrest.
    { intros seen' Hseen Hs. destruct (IH seen' Hs) as (Hfresh & e & He & ->).
      split; [intros Hold; apply Hfresh, Hseen, Hold |].
      exists e. split; [right; exact He | reflexivity]. }
    destruct (decide (import_zones.type element ≠ Some "node"));
      [by apply Hrest |].
    destruct (decide (_ ∈ seen)) as [Hseen | Hfresh]; [by apply Hrest |].
    destruct (import_zones.lat element), (import_zones.lon element);
      try (apply Hrest, union_subseteq_l).
    intros [-> | Hs]%elem_of_cons.
    + split; [exact Hfresh |]. exists element. split; [left | reflexivity].
    + apply Hrest in Hs; [exact Hs | apply union_subseteq_l].
Qed.

Lemma created_ids_NoDup seen elements : NoDup (created_ids seen elements).
Proof.
  revert seen. induction elements as [| element elements IH]; intros seen; simpl.
  - constructor.
  - destruct (decide (import_zones.type element ≠ Some "node")); [apply IH |].
    destruct (decide (_ ∈ seen)); [apply IH |].
    destruct (import_zones.lat element), (import_zones.lon element);
      try apply IH.
    constructor; [| apply IH].
    intros [Hfresh _]%created_ids_source.
    apply Hfresh, elem_of_union. right. apply elem_of_singleton. reflexivity.
Qed.

(** A run that starts with a set holding the first run's starting set and
    every identifier the first run created creates nothing. *)
Lemma created_ids_again elements seen seen' :
  seen ⊆ seen' →
  (∀ s, s ∈ created_ids seen elements → s ∈ seen') →
  created_ids seen' elements = [].
Proof.
  revert seen seen'.
  induction elements as [| element elements IH]; intros seen seen' Hseen Hcreated;
    simpl in *; [reflexivity |].
  destruct (decide (import_zones.type element ≠ Some "node"));
    [by eapply IH |].
  set (osm_id := import_zones.str_id (import_zones.id element)) in *.
  destruct (decide (osm_id ∈ seen)) as [Hold | Hnew].
  - rewrite decide_True by (apply Hseen, Hold). by eapply IH.
  - assert (seen ∪ {[ osm_id ]} ⊆ seen' ∪ {[ osm_id ]}) as Hseen'
      by (apply union_mono_r, Hseen).
    destruct (decide (osm_id ∈ seen')) as [Hold' | Hnew'].
    + assert (seen ∪ {[ osm_id ]} ⊆ seen') as Hseen''
        by (apply union_least; [exact Hseen | apply singleton_subseteq_l, Hold']).
      destruct (import_zones.lat element), (import_zones.lon element);
        (eapply (IH (seen ∪ {[ osm_id ]})); [exact Hseen'' |]);
        intros s Hs; apply Hcreated; try exact Hs.
      right. exact Hs.
    + destruct (import_zones.lat element), (import_zones.lon element);
        try (eapply (IH (seen ∪ {[ osm_id ]})); [exact Hseen' |];
             intros s Hs; apply elem_of_union; left; apply Hcreated; exact Hs).
      exfalso. apply Hnew', Hcreated. left.
Qed.

Lemma commit_all_rows {Row} (db : Session Row) :
  commit db = session_of (all_rows db).
Proof. reflexivity. Qed.

Lemma selected_commit_zones zone_type db :
  selected zone_type (import_zones.commit_zones db)
  = commit (selected zone_type db).
Proof. unfold selected. destruct (decide _); reflexivity. Qed.

Lemma unselected_commit_zones zone_type db :
  unselected zone_type (import_zones.commit_zones db)
  = commit (unselected zone_type db).
Proof. unfold unselected. destruct (decide _); reflexivity. Qed.

Lemma zones_eq zone_type (db1 db2 : import_zones.Zones) :
  selected zone_type db1 = selected zone_type db2 →
  unselected zone_type db1 = unselected zone_type db2 →
  db1 = db2.
Proof.
  unfold selected, unselected. destruct db1, db2, (decide _); simpl;
    congruence.
Qed.

Section import_zones.

Context (uuid4 : nat → UUID) (zone_type : string).

(** An iteration of the loop, in terms of the identifiers it creates. *)
Lemma import_element_rows st element :
  let st' := import_zones.import_element uuid4 zone_type st element in
  ∃ new,
    all_rows (selected zone_type (import_zones.db st'))
    = all_rows (selected zone_type (import_zones.db st)) ++ new
    ∧ Zone.osm_id <$> new
      = Some <$> created_ids (import_zones.seen_ids st) [element]
    ∧ all_rows (unselected zone_type (import_zones.db st'))
      = all_rows (unselected zone_type (import_zones.db st))
    ∧ import_zones.imported_count st'
      = (import_zones.imported_count st + length new)%nat
    ∧ ∀ elements,
        created_ids (import_zones.seen_ids st) (element :: elements)
        = created_ids (import_zones.seen_ids st) [element]
          ++ created_ids (import_zones.seen_ids st') elements.
Proof.
  unfold import_zones.import_element. simpl.
  destruct (decide (import_zones.type element ≠ Some "node")); simpl.
  { exists []. rewrite app_nil_r. repeat split; try reflexivity. simpl. lia. }
  destruct (decide (_ ∈ import_zones.seen_ids st)); simpl.
  { exists []. rewrite app_nil_r. repeat split; try reflexivity. simpl. lia. }
  destruct (import_zones.lat element) as [lat |],
           (import_zones.lon element) as [lon |]; simpl;
    try (exists []; rewrite app_nil_r; repeat split; try reflexivity; simpl; lia).
  eexists [_]. split; [| split; [| split; [| split]]].
  - destruct (decide (_ = 0)%nat);
      rewrite ?selected_commit_zones, ?all_rows_commit;
      unfold selected; destruct (decide (zone_type = "school")); simpl;
      apply all_rows_add.
  - reflexivity.
  - destruct (decide (_ = 0)%nat);
      rewrite ?unselected_commit_zones, ?all_rows_commit;
      unfold unselected; destruct (decide (zone_type = "school")); reflexivity.
  - simpl. lia.
  - reflexivity.
Qed.

Lemma import_zones_loop elements st :
  let st' := foldl (import_zones.import_element uuid4 zone_type) st elements in
  ∃ new,
    all_rows (selected zone_type (import_zones.db st'))
    = all_rows (selected zone_type (import_zones.db st)) ++ new
    ∧ Zone.osm_id <$> new
      = Some <$> created_ids (import_zones.seen_ids st) elements
    ∧ all_rows (unselected zone_type (import_zones.db st'))
      = all_rows (unselected zone_type (import_zones.db st))
    ∧ import_zones.imported_count st'
      = (import_zones.imported_count st + length new)%nat.
Proof.
  revert st. induction elements as [| element elements IH]; intros st;
    cbv zeta; cbn [foldl].
  - exists []. rewrite app_nil_r. repeat split; try reflexivity. simpl. lia.
  - destruct (import_element_rows st element)
      as (new1 & Hrows1 & Hids1 & Hother1 & Hcount1 & Hsplit).
    destruct (IH (import_zones.import_element uuid4 zone_type st element))
      as (new2 & Hrows2 & Hids2 & Hother2 & Hcount2).
    exists (new1 ++ new2). split; [| split; [| split]].
    + rewrite Hrows2, Hrows1. symmetry. apply app_assoc.
    + rewrite Hsplit, !fmap_app, Hids1, Hids2. reflexivity.
    + rewrite Hother2, Hother1. reflexivity.
    + rewrite Hcount2, Hcount1, length_app. lia.
Qed.

(** The whole function: the selected table grows by the created zones, the
    other table keeps its rows, and everything is written. *)
Lemma import_zones_rows session elements :
  ∃ new,
    selected zone_type (import_zones.import_zones uuid4 session elements zone_type).1
    = session_of (all_rows (selected zone_type session) ++ new)
    ∧ unselected zone_type
        (import_zones.import_zones uuid4 session elements zone_type).1
      = session_of (all_rows (unselected zone_type session))
    ∧ Zone.osm_id <$> new
      = Some <$> created_ids (import_zones.existing_ids session zone_type) elements
    ∧ (import_zones.import_zones uuid4 session elements zone_type).2
      = length new.
Proof.
  unfold import_zones.import_zones.
  destruct (import_zones_loop elements
              {| import_zones.db := session;
                 import_zones.seen_ids := import_zones.existing_ids session zone_type;
                 import_zones.imported_count := 0;
                 import_zones.skipped_count := 0;
                 import_zones.duplicate_count := 0 |})
    as (new & Hrows & Hids & Hother & Hcount).
  exists new. simpl in *.
  rewrite selected_commit_zones, unselected_commit_zones, !commit_all_rows.
  rewrite Hrows, Hother. repeat split; assumption.
Qed.

End import_zones.

Lemma all_rows_session_of {Row} (rows : list Row) :
  all_rows (session_of rows) = rows.
Proof. unfold all_rows, session_of. simpl. apply app_nil_r. Qed.

(** C7.  [import_zones] leaves every stored zone as it is and appends the
    zones it creates to the table that [zone_type] selects.  No created zone
    carries an external identifier that a stored zone already has, and no two
    created zones carry the same one: an element whose identifier is in the
    store, or came earlier in the run, creates nothing.  A second import of
    the same elements therefore creates no zone and leaves both tables, and
    so the number of entities, as the first import left them. *)
Theorem zone_import_idempotent uuid4 uuid4' zone_type schools hospitals elements :
  let session :=
    {| import_zones.SchoolZone := session_of schools;
       import_zones.HospitalZone := session_of hospitals |} in
  let stored := table (selected zone_type session) in
  let run1 := import_zones.import_zones uuid4 session elements zone_type in
  let run2 := import_zones.import_zones uuid4' run1.1 elements zone_type in
  ∃ new,
    selected zone_type run1.1 = session_of (stored ++ new)
    ∧ unselected zone_type run1.1 = unselected zone_type session
    ∧ run1.2 = length new
    ∧ (∀ z, z ∈ new →
         ∃ element, element ∈ elements
           ∧ Zone.osm_id z
             = Some (import_zones.str_id (import_zones.id element)))
    ∧ (∀ z z', z ∈ stored → z' ∈ new → Zone.osm_id z ≠ Zone.osm_id z')
    ∧ NoDup (Zone.osm_id <$> new)
    ∧ run2 = (run1.1, 0%nat).
Proof.
  intros session stored run1 run2.
  destruct (import_zones_rows uuid4 zone_type session elements)
    as (new & Hselected & Hunselected & Hids & Hcount).
  fold run1 in Hselected, Hunselected, Hcount.
  assert (all_rows (selected zone_type session) = stored) as Hstored.
  { unfold stored, session, selected.
    destruct (decide _); apply all_rows_session_of. }
  assert (unselected zone_type session
          = session_of (all_rows (unselected zone_type session))) as Hother.
  { unfold session, unselected.
    destruct (decide _); simpl; rewrite all_rows_session_of; reflexivity. }
  rewrite Hstored in Hselected. rewrite <- Hother in Hunselected.
  assert (∀ z, z ∈ new →
            ∃ s, Zone.osm_id z = Some s
                 ∧ s ∈ created_ids (import_zones.existing_ids session zone_type)
                         elements) as Hnew.
  { intros z Hz.
    assert (Zone.osm_id z ∈ Zone.osm_id <$> new) as Hin
      by (apply list_elem_of_fmap; eauto).
    rewrite Hids in Hin. apply list_elem_of_fmap in Hin as (s & Hs & Hcreated).
    eauto. }
  exists new. repeat split; try assumption.
  - intros z Hz. destruct (Hnew z Hz) as (s & Hs & Hcreated).
    apply created_ids_source in Hcreated as (_ & element & Helement & ->).
    eauto.
  - intros z z' Hz Hz' Heq. destruct (Hnew z' Hz') as (s & Hs & Hcreated).
    apply created_ids_source in Hcreated as (Hfresh & element & _ & ->).
    apply Hfresh, existing_ids_spec. split; [apply str_id_nonempty |].
    rewrite <- Hs, <- Heq. apply list_elem_of_fmap. eauto.
  - rewrite Hids. apply (NoDup_fmap_2 Some), created_ids_NoDup.
  - destruct (import_zones_rows uuid4' zone_type run1.1 elements)
      as (new' & Hselected' & Hunselected' & Hids' & Hcount').
    fold run2 in Hselected', Hunselected', Hcount'.
    rewrite (created_ids_again elements
               (import_zones.existing_ids session zone_type)) in Hids'.
    + apply fmap_nil_inv in Hids'. subst new'.
      rewrite Hselected, all_rows_session_of, app_nil_r in Hselected'.
      rewrite Hunselected, <- Hother in Hunselected'.
      destruct run2 as [db2 count2]. simpl in *. f_equal; [| exact Hcount'].
      apply (zones_eq zone_type); congruence.
    + intros s [Hs Hin]%existing_ids_spec. apply existing_ids_spec.
      split; [exact Hs |]. rewrite Hselected. simpl.
      rewrite fmap_app. apply elem_of_app. left. exact Hin.
    + intros s Hcreated. apply existing_ids_spec.
      split.
      * apply created_ids_source in Hcreated as (_ & element & _ & ->).
        apply str_id_nonempty.
      * rewrite Hselected. simpl. rewrite fmap_app, Hids.
        apply elem_of_app. right. apply list_elem_of_fmap. eauto.
Qed.

(** ** The combined navigation endpoint *)

Lemma execute_Ok {A} fails statement (result : Await A) a :
  main.execute fails statement result = Ok a → fails statement = None.
Proof. unfold main.execute. destruct (fails statement); [discriminate | done]. Qed.

(** C9.  When the database fails any one of the four per-category queries of
    [get_navigation_data_nearby], the whole call fails with an HTTP 500
    error: no aggregate is returned, not even one holding the categories
    whose queries succeeded. *)
Theorem navigation_all_or_nothing `{PostGIS} fails db now latitude longitude
    radius_meters statement e :
  statement ∈ [main.SelectCameras; main.SelectSpeedLimits; main.SelectHazards;
               main.SelectHazardousRoads] →
  fails statement = Some e →
  ∃ detail,
    main.get_navigation_data_nearby fails db now latitude longitude radius_meters
    = Raise (HTTPException 500 detail).
Proof.
  intros Hstatement Hfails. unfold main.get_navigation_data_nearby.
  destruct (main.execute fails main.SelectCameras _) as [cameras | e1] eqn:H1;
    [| eexists; reflexivity].
  cbn [mbind Exc_bind].
  destruct (main.execute fails main.SelectSpeedLimits _)
    as [speed_limits | e2] eqn:H2; [| eexists; reflexivity].
  cbn [mbind Exc_bind].
  destruct (main.execute fails main.SelectHazards _) as [hazards | e3] eqn:H3;
    [| eexists; reflexivity].
  cbn [mbind Exc_bind].
  destruct (main.execute fails main.SelectHazardousRoads _)
    as [hazardous_roads | e4] eqn:H4; [| eexists; reflexivity].
  exfalso.
  apply execute_Ok in H1, H2, H3, H4.
  repeat (apply elem_of_cons in Hstatement as [-> | Hstatement];
          [congruence |]).
  inversion Hstatement.
Qed.

(** ** Creating a camera *)

(** A value with two decimals is kept as it is, so rounding twice is
    rounding once. *)
Lemma Numeric_3_2_hundredths (hundredths : Z) :
  Numeric_3_2 (hundredths # 100) = hundredths # 100.
Proof.
  unfold Numeric_3_2. cbn [Qnum Qden]. f_equal.
  destruct (decide (0 ≤ hundredths * 100)%Z).
  - symmetry. apply (Z.div_unique_pos _ _ hundredths 100); lia.
  - apply Z.opp_inj. rewrite Z.opp_involutive. symmetry.
    apply (Z.div_unique_pos _ _ (- hundredths) 100); lia.
Qed.

Lemma Numeric_3_2_idempotent (value : Q) :
  Numeric_3_2 (Numeric_3_2 value) = Numeric_3_2 value.
Proof. unfold Numeric_3_2 at 2 3. cbv zeta. apply Numeric_3_2_hundredths. Qed.

(** A score that passes the CHECK once rounded does not overflow. *)
Lemma score_accepted_no_overflow confidence_score :
  score_accepted confidence_score →
  ¬ 10 <= Qabs (Numeric_3_2 confidence_score).
Proof.
  intros [Hlow Hhigh] Hoverflow.
  rewrite Qabs_pos in Hoverflow by exact Hlow.
  apply (Qle_not_lt _ _ (Qle_trans _ _ _ Hoverflow Hhigh)). reflexivity.
Qed.

(** A score between 0 and 1 is still one once rounded. *)
Lemma score_accepted_unit confidence_score :
  0 <= confidence_score ∧ confidence_score <= 1 →
  score_accepted confidence_score.
Proof.
  destruct confidence_score as [n d]. unfold score_accepted, Numeric_3_2, Qle.
  cbn [Qnum Qden]. intros [Hlow Hhigh].
  rewrite decide_True by lia.
  assert (0 ≤ (2 * (n * 100) + Z.pos d) `div` (2 * Z.pos d))%Z as Hpos
    by (apply Z.div_pos; lia).
  assert ((2 * (n * 100) + Z.pos d) `div` (2 * Z.pos d) < 101)%Z as Hbound
    by (apply Z.div_lt_upper_bound; lia).
  split; lia.
Qed.

(** Closed instances of the fit predicates are settled by computation. *)
Ltac fits_by_computation :=
  cbn; repeat split;
  first [ exact I | discriminate | lia
        | apply (bool_decide_unpack _); vm_compute; exact I ].

(** [create_camera] on a request whose values fit the columns, with an
    identifier that no stored camera has: the row takes the request's
    fields as they are and the defaults of the columns the call leaves out,
    and the answer is built from that row. *)
Lemma create_camera_accepts uuid4 rows request current_user :
  request_fits request →
  uuid4 ∉ SpeedCamera.id <$> rows →
  let c :=
    SpeedCamera.insert uuid4
      (ST_MakePoint (main.CreateCameraRequest.longitude request)
         (main.CreateCameraRequest.latitude request))
      (main.CreateCameraRequest.speed_limit_kmh request)
      (main.CreateCameraRequest.camera_type request)
      (main.CreateCameraRequest.direction_degrees request)
      None None (Some 0.50) (Some (User.id current_user))
      (main.CreateCameraRequest.notes request) in
  main.create_camera uuid4 (session_of rows) request current_user
  = (session_of (rows ++ [c]),
     Ok {| main.CameraResponse.id := uuid4;
           main.CameraResponse.latitude :=
             main.CreateCameraRequest.latitude request;
           main.CameraResponse.longitude :=
             main.CreateCameraRequest.longitude request;
           main.CameraResponse.speed_limit_kmh :=
             main.CreateCameraRequest.speed_limit_kmh request;
           main.CameraResponse.camera_type :=
             main.CreateCameraRequest.camera_type request;
           main.CameraResponse.direction_degrees :=
             main.CreateCameraRequest.direction_degrees request;
           main.CameraResponse.verified := Some false;
           main.CameraResponse.confidence_score := 0.50;
           main.CameraResponse.notes :=
             main.CreateCameraRequest.notes request |})
  ∧ camera_fits c.
Proof.
  intros (Hspeed & Hdirection & Htype & Hlat & Hlon & Htext & Hnotes) Hfresh c.
  split.
  - unfold main.create_camera, queries.create_speed_camera.
    rewrite decide_False by (apply Qlt_not_le; reflexivity).
    rewrite decide_True by (vm_compute; split; discriminate).
    cbn [commit flush add session_of table pending app].
    rewrite app_nil_r, filter_app.
    rewrite (filter_none _ rows).
    + rewrite filter_cons, decide_True by reflexivity.
      unfold commit, flush, add, session_of. simpl. rewrite app_nil_r.
      reflexivity.
    + apply Forall_forall. intros c' Hc' Hid. apply Hfresh.
      apply list_elem_of_fmap. exists c'. split; [symmetry |]; assumption.
  - unfold camera_fits, c, SpeedCamera.insert.
    cbn [SpeedCamera.speed_limit_kmh SpeedCamera.direction_degrees
         SpeedCamera.verification_count SpeedCamera.camera_type
         SpeedCamera.location SpeedCamera.confidence_score
         SpeedCamera.notes].
    split; [exact Hspeed |]. split; [exact Hdirection |].
    split; [vm_compute; split; discriminate |]. split; [exact Htype |].
    split; [| split; [| split; [exact Htext | exact Hnotes]]].
    + eexists _, _. split; [reflexivity |]. split; assumption.
    + vm_compute. split; [split; discriminate | reflexivity].
Qed.

(** C8.  A camera created by the bulk import is verified, has a verification
    count of 1 and a confidence of 0.80: so is the camera that the import
    creates for a record that parses and has no camera within 10 meters,
    and so is every camera that an import of any records adds.  A camera
    created by a user through [create_camera] has a confidence of 0.50 and
    is not verified (and, the call leaving the column out, a verification
    count of 0); the answer shows the same score and flag.  The created
    cameras are those that the table takes: the speed limits and the notes
    of the records and the values of the request are ones that their
    columns store, and the identifier drawn for the request is new. *)
Theorem creation_defaults `{PostGIS} `{Python} uuid4 rows cam_data
    latitude longitude uuid4' request current_user :
  parsed_point cam_data latitude longitude →
  Forall (λ c, ¬ ST_DWithin (SpeedCamera.location c)
                   (ST_MakePoint longitude latitude) 10.0) rows →
  record_fits cam_data →
  request_fits request →
  uuid4' ∉ SpeedCamera.id <$> rows →
  (∃ c,
     import_data.import_speed_cameras uuid4 (session_of rows) [cam_data]
     = (session_of (rows ++ [c]), 1%nat)
     ∧ SpeedCamera.location c = ST_MakePoint longitude latitude
     ∧ SpeedCamera.verified c = Some true
     ∧ SpeedCamera.verification_count c = Some 1%Z
     ∧ SpeedCamera.confidence_score c = Some 0.80
     ∧ camera_fits c)
  ∧ (∀ cameras_data,
       Forall record_fits cameras_data →
       ∃ new,
         import_data.import_speed_cameras uuid4 (session_of rows) cameras_data
         = (session_of (rows ++ new), length new)
         ∧ Forall (λ c, SpeedCamera.verified c = Some true
                        ∧ SpeedCamera.verification_count c = Some 1%Z
                        ∧ SpeedCamera.confidence_score c = Some 0.80
                        ∧ camera_fits c) new)
  ∧ (∃ c response,
       main.create_camera uuid4' (session_of rows) request current_user
       = (session_of (rows ++ [c]), Ok response)
       ∧ SpeedCamera.id c = uuid4'
       ∧ SpeedCamera.confidence_score c = Some 0.50
       ∧ SpeedCamera.verified c = Some false
       ∧ SpeedCamera.verification_count c = Some 0%Z
       ∧ SpeedCamera.reported_by c = Some (User.id current_user)
       ∧ camera_fits c
       ∧ main.CameraResponse.confidence_score response = 0.50
       ∧ main.CameraResponse.verified response = Some false).
Proof.
  intros Hpoint Hnone Hspeed Hrequest Hfresh. split; [| split].
  - destruct (import_one_new_fits uuid4 rows cam_data latitude longitude
                Hpoint Hnone Hspeed)
      as (c & Hrun & Hlocation & (Hverified & Hcount & Hscore & _) & Hfits).
    exists c.
    exact (conj Hrun (conj Hlocation (conj Hverified (conj Hcount
             (conj Hscore Hfits))))).
  - intros cameras_data Hspeeds.
    destruct (import_speed_cameras_fits uuid4 rows cameras_data Hspeeds)
      as (new & Hrun & Hnew).
    exists new. split; [exact Hrun |].
    eapply Forall_impl; [exact Hnew |].
    intros c ((Hverified & Hcount & Hscore & _) & Hfits).
    exact (conj Hverified (conj Hcount (conj Hscore Hfits))).
  - destruct (create_camera_accepts uuid4' rows request current_user
                Hrequest Hfresh) as (Hrun & Hfits).
    eexists _, _. split; [exact Hrun |].
    split; [reflexivity |]. split; [reflexivity |]. split; [reflexivity |].
    split; [reflexivity |]. split; [reflexivity |].
    split; [exact Hfits |]. split; reflexivity.
Qed.

(** The reference endpoint of [example_usage.py] checks the ranges: a
    request that breaks a [Field] constraint is refused and nothing is
    stored; a request that meets them all is stored, although the answer
    is then a 500, the stored camera failing the response model. *)
Lemma example_create_camera_validates uuid4 rows request :
  (¬ example_usage.CreateSpeedCameraRequest.valid request →
   example_usage.create_camera uuid4 (session_of rows) request
   = (session_of rows,
      Raise (RequestValidationError "value is not a valid field")))
  ∧ (example_usage.CreateSpeedCameraRequest.valid request →
     ∃ c, example_usage.create_camera uuid4 (session_of rows) request
          = (session_of (rows ++ [c]),
             Raise (HTTPException 500 "Internal Server Error"))
          ∧ SpeedCamera.speed_limit_kmh c
            = example_usage.CreateSpeedCameraRequest.speed_limit_kmh request
          ∧ SpeedCamera.camera_type c
            = example_usage.CreateSpeedCameraRequest.camera_type request).
Proof.
  unfold example_usage.create_camera. split; intros Hvalid.
  - rewrite decide_False by exact Hvalid. reflexivity.
  - rewrite decide_True by exact Hvalid.
    assert (score_accepted
              (example_usage.CreateSpeedCameraRequest.confidence_score request))
      as Hscore by apply score_accepted_unit, Hvalid.
    unfold queries.create_speed_camera. simpl.
    rewrite decide_False by exact (score_accepted_no_overflow _ Hscore).
    rewrite decide_True by exact Hscore.
    eexists. unfold commit, flush, add, session_of. simpl.
    rewrite !app_nil_r. repeat split.
Qed.

(** C2, at a request whose speed limit, direction and camera type are all
    out of range: [create_camera] answers with the created camera, and the
    camera is stored with those values. *)
Theorem create_camera_out_of_range :
  let request :=
    {| main.CreateCameraRequest.latitude := 13.0827;
       main.CreateCameraRequest.longitude := 80.2707;
       main.CreateCameraRequest.speed_limit_kmh := 500;
       main.CreateCameraRequest.camera_type := "banana";
       main.CreateCameraRequest.direction_degrees := Some 720%Z;
       main.CreateCameraRequest.notes := None |} in
  let current_user :=
    {| User.id := 7%N; User.email := "a@example.org"; User.username := "a" |} in
  ∃ c response,
    main.create_camera 1%N (session_of []) request current_user
    = (session_of [c], Ok response)
    ∧ SpeedCamera.speed_limit_kmh c = 500%Z
    ∧ SpeedCamera.camera_type c = "banana"
    ∧ SpeedCamera.direction_degrees c = Some 720%Z
    ∧ main.CameraResponse.speed_limit_kmh response = 500%Z.
Proof.
  intros request current_user. eexists _, _. split; [reflexivity |].
  repeat split.
Qed.

(** ** The statements on the small store *)

(** C8 on the small store: a camera file with one record is imported into
    a table that holds the cameras b and c, and a user reports a camera to
    the same table. *)
Lemma creation_defaults_witness :
  let rows := [camera_c; camera_b] in
  let request :=
    {| main.CreateCameraRequest.latitude := 13.0830;
       main.CreateCameraRequest.longitude := 80.2705;
       main.CreateCameraRequest.speed_limit_kmh := 50;
       main.CreateCameraRequest.camera_type := "mobile";
       main.CreateCameraRequest.direction_degrees := Some 90%Z;
       main.CreateCameraRequest.notes := None |} in
  (@parsed_point simple_Python cam_data_1 13.0827 80.2707
   ∧ @record_fits simple_Python cam_data_1
   ∧ request_fits request
   ∧ 9%N ∉ SpeedCamera.id <$> rows)
  ∧ (∃ c,
       @import_data.import_speed_cameras flat_PostGIS simple_Python
         N.of_nat (session_of rows) [cam_data_1]
       = (session_of (rows ++ [c]), 1%nat)
       ∧ SpeedCamera.location c = ST_MakePoint 80.2707 13.0827
       ∧ SpeedCamera.verified c = Some true
       ∧ SpeedCamera.verification_count c = Some 1%Z
       ∧ SpeedCamera.confidence_score c = Some 0.80
       ∧ camera_fits c)
  ∧ (∀ cameras_data,
       Forall (@record_fits simple_Python) cameras_data →
       ∃ new,
         @import_data.import_speed_cameras flat_PostGIS simple_Python
           N.of_nat (session_of rows) cameras_data
         = (session_of (rows ++ new), length new)
         ∧ Forall (λ c, SpeedCamera.verified c = Some true
                        ∧ SpeedCamera.verification_count c = Some 1%Z
                        ∧ SpeedCamera.confidence_score c = Some 0.80
                        ∧ camera_fits c) new)
  ∧ (∃ c response,
       main.create_camera 9%N (session_of rows) request user_7
       = (session_of (rows ++ [c]), Ok response)
       ∧ SpeedCamera.id c = 9%N
       ∧ SpeedCamera.confidence_score c = Some 0.50
       ∧ SpeedCamera.verified c = Some false
       ∧ SpeedCamera.verification_count c = Some 0%Z
       ∧ SpeedCamera.reported_by c = Some (User.id user_7)
       ∧ camera_fits c
       ∧ main.CameraResponse.confidence_score response = 0.50
       ∧ main.CameraResponse.verified response = Some false).
Proof.
  intros rows request.
  assert (@parsed_point simple_Python cam_data_1 13.0827 80.2707) as Hpoint
    by (vm_compute; repeat split).
  assert (@record_fits simple_Python cam_data_1) as Hspeed
    by (split; [vm_compute; split; discriminate
               | apply (bool_decide_unpack _); vm_compute; exact I]).
  assert (request_fits request) as Hrequest
    by (subst request; unfold request_fits; fits_by_computation).
  assert (9%N ∉ SpeedCamera.id <$> rows) as Hfresh
    by (apply (bool_decide_unpack _); vm_compute; exact I).
  split; [exact (conj Hpoint (conj Hspeed (conj Hrequest Hfresh))) |].
  apply (@creation_defaults flat_PostGIS simple_Python N.of_nat rows
           cam_data_1 13.0827 80.2707 9%N request user_7);
    try assumption.
  apply (bool_decide_unpack _). vm_compute. exact I.
Defined.

(** C3 on the small store: of the three cameras, the two within 500 m of
    (13.0830, 80.2705) are returned, nearest first. *)
Lemma nearby_within_radius_sorted_limited_witness :
  let point := ST_MakePoint 80.2705 13.0830 in
  let distance g := @ST_Distance flat_PostGIS g point in
  @queries.get_nearby_speed_cameras flat_PostGIS small_db 13.0830 80.2705 500 0
    false 50 = Ok [camera_a; camera_b]
  ∧ Forall (λ c, distance (SpeedCamera.location c) <= 500) [camera_a; camera_b]
  ∧ StronglySorted
      (λ c1 c2, distance (SpeedCamera.location c1)
                <= distance (SpeedCamera.location c2)) [camera_a; camera_b]
  ∧ (Z.of_nat (length [camera_a; camera_b]) ≤ 50)%Z.
Proof.
  split; [vm_compute; reflexivity |].
  apply (proj1 (@nearby_within_radius_sorted_limited flat_PostGIS small_db 0%Z
                  13.0830 80.2705 500 0 false true 50)).
  vm_compute. reflexivity.
Defined.

(** C4 on the small store: with [min_confidence = 0.6] only the imported
    camera, of confidence 0.80, is returned. *)
Lemma min_confidence_respected_witness :
  @queries.get_nearby_speed_cameras flat_PostGIS small_db 13.0830 80.2705 500
    0.6 false 50 = Ok [camera_a]
  ∧ Forall (λ c, ∀ score, SpeedCamera.confidence_score c = Some score →
                          ¬ score < 0.6) [camera_a].
Proof.
  assert (Forall (λ c, confidence_check (SpeedCamera.confidence_score c))
            (speed_cameras small_db)) as Hcameras
    by (apply (bool_decide_unpack _); vm_compute; exact I).
  assert (Forall (λ h, confidence_check (HazardDetection.confidence_score h))
            (hazard_detections small_db)) as Hhazards
    by (apply (bool_decide_unpack _); vm_compute; exact I).
  split; [vm_compute; reflexivity |].
  apply (proj1 (@min_confidence_respected flat_PostGIS small_db 0%Z
                  13.0830 80.2705 500 0.6 false true 50 Hcameras Hhazards)).
  vm_compute. reflexivity.
Defined.

(** C5 on the small store, queried at time 200: the hazard that expired at
    100 is left out although it is flagged active; the hazard without expiry
    and the one that expires at 300 are returned. *)
Lemma expired_hazards_excluded_witness :
  @queries.get_nearby_hazards flat_PostGIS small_db 200%Z 13.0830 80.2705 500 0
    true 50 = Ok [hazard_c; hazard_a]
  ∧ HazardDetection.is_active hazard_b = Some true
  ∧ (hazard_b ∉ [hazard_c; hazard_a])
  ∧ (hazard_a ∈ [hazard_c; hazard_a]).
Proof.
  assert (@queries.get_nearby_hazards flat_PostGIS small_db 200%Z 13.0830 80.2705
            500 0 true 50 = Ok [hazard_c; hazard_a]) as Hquery
    by (vm_compute; reflexivity).
  destruct (@expired_hazards_excluded flat_PostGIS small_db 200%Z 13.0830 80.2705
              500 0 50 [hazard_c; hazard_a] Hquery)
    as (Hexpired & _ & Heligible).
  split; [exact Hquery |]. split; [reflexivity |]. split.
  - apply (Hexpired hazard_b 100%Z); [reflexivity | lia].
  - apply Heligible.
    + left.
    + reflexivity.
    + left. reflexivity.
    + apply (bool_decide_unpack _). vm_compute. exact I.
    + intros Hmin. exfalso. revert Hmin. apply Qlt_irrefl.
    + simpl. lia.
Defined.

(** C6 on the small store, with camera 2 reported by user 7: user 8 is
    refused, an unknown identifier is not found, and user 7 removes the
    camera. *)
Lemma delete_camera_owner_only_witness :
  let rows := [camera_c; camera_b; camera_a] in
  @main.delete_camera simple_Python (session_of rows) "2" user_8
  = (session_of rows,
     Raise (HTTPException 403 "You can only delete cameras you added"))
  ∧ @main.delete_camera simple_Python (session_of rows) "2" user_7
    = (session_of [camera_c; camera_a], Ok ()).
Proof.
  intros rows.
  assert (NoDup (SpeedCamera.id <$> rows)) as Hnodup
    by (apply (bool_decide_unpack _); vm_compute; exact I).
  split.
  - destruct (@delete_camera_owner_only simple_Python rows "2" 2%N user_8
                eq_refl Hnodup) as (_ & Hforbidden & _).
    apply (Hforbidden camera_b); [right; left | reflexivity | discriminate].
  - destruct (@delete_camera_owner_only simple_Python rows "2" 2%N user_7
                eq_refl Hnodup) as (_ & _ & Howner).
    apply (Howner camera_b); [right; left | reflexivity | reflexivity].
Defined.

(** C10 on the small store: camera 1 was imported and has no reporter; a
    delete request by user 7 is refused. *)
Lemma delete_camera_without_reporter_witness :
  let rows := [camera_c; camera_b; camera_a] in
  @main.delete_camera simple_Python (session_of rows) "1" user_7
  = (session_of rows,
     Raise (HTTPException 403 "You can only delete cameras you added")).
Proof.
  intros rows.
  apply (@delete_camera_without_reporter simple_Python rows "1" user_7 camera_a).
  - reflexivity.
  - apply (bool_decide_unpack _). vm_compute. exact I.
  - right. right. left.
  - reflexivity.
Defined.

(** C9 with a database that fails the hazards query: the call fails. *)
Lemma navigation_all_or_nothing_witness :
  ∃ detail,
    @main.get_navigation_data_nearby flat_PostGIS hazards_query_fails small_db
      200%Z 13.0830 80.2705 500
    = Raise (HTTPException 500 detail).
Proof.
  apply (@navigation_all_or_nothing flat_PostGIS hazards_query_fails small_db
           200%Z 13.0830 80.2705 500 main.SelectHazards
           (DBAPIError "connection was closed")).
  - right. right. left.
  - reflexivity.
Defined.

(** When no statement fails, the same call returns the aggregate. *)
Example navigation_returns_aggregate :
  ∃ data,
    @main.get_navigation_data_nearby flat_PostGIS (λ _, None) small_db
      200%Z 13.0830 80.2705 500 = Ok data
    ∧ main.NavigationData.counts data
      = {| main.Counts.cameras := 2; main.Counts.speed_limits := 0;
           main.Counts.hazards := 2; main.Counts.hazardous_roads := 0 |}.
Proof. eexists. split; vm_compute; reflexivity. Qed.



(** The session does not flush before a SELECT, so the check for an existing
    camera does not see a camera added earlier in the same batch: the same
    two records in one file are both inserted. *)
Example same_batch_records_both_inserted :
  ∃ c1 c2,
    @import_data.import_speed_cameras flat_PostGIS simple_Python N.of_nat
      (session_of []) [cam_data_1; cam_data_2]
    = (session_of [c1; c2], 2%nat)
    ∧ SpeedCamera.location c1 = ST_MakePoint 80.2707 13.0827
    ∧ SpeedCamera.location c2 = ST_MakePoint 80.2707 13.08271.
Proof. eexists _, _. split; [vm_compute; reflexivity |]. split; reflexivity. Qed.

(** A zone file with a repeated identifier, a way and a node without
    coordinates: one zone is created, and a second import creates none. *)
Example import_zones_twice :
  let node id lat lon :=
    {| import_zones.type := Some "node"; import_zones.id := Some id;
       import_zones.lat := lat; import_zones.lon := lon;
       import_zones.tags := {[ "name" := "St. Mary's School" ]} |} in
  let elements :=
    [node 101%Z (Some 13.05) (Some 80.25);
     node 101%Z (Some 13.06) (Some 80.26);
     {| import_zones.type := Some "way"; import_zones.id := Some 102%Z;
        import_zones.lat := None; import_zones.lon := None;
        import_zones.tags := ∅ |};
     node 103%Z None None] in
  let session :=
    {| import_zones.SchoolZone := session_of [];
       import_zones.HospitalZone := session_of [] |} in
  let run1 := import_zones.import_zones N.of_nat session elements "school" in
  let run2 := import_zones.import_zones N.of_nat run1.1 elements "school" in
  run1.2 = 1%nat
  ∧ Zone.osm_id <$> table (import_zones.SchoolZone run1.1) = [Some "101"]
  ∧ Zone.address <$> table (import_zones.SchoolZone run1.1)
    = [Some "Address not available"]
  ∧ run2 = (run1.1, 0%nat).
Proof. vm_compute. repeat split. Qed.

(** ** The stored confidence scores *)

(** The CHECK constraint that C4 relies on is kept by both ways of creating
    a camera: [create_speed_camera] refuses a score that is outside [0, 1]
    once rounded, and the import writes 0.80. *)
Lemma create_speed_camera_confidence_check uuid4 db latitude longitude
    speed_limit_kmh camera_type direction_degrees confidence_score reported_by
    notes db' camera :
  queries.create_speed_camera uuid4 db latitude longitude speed_limit_kmh
    camera_type direction_degrees confidence_score reported_by notes
  = Ok (db', camera) →
  Forall (λ c, confidence_check (SpeedCamera.confidence_score c)) (all_rows db) →
  Forall (λ c, confidence_check (SpeedCamera.confidence_score c)) (all_rows db').
Proof.
  unfold queries.create_speed_camera. intros Hcreate Hdb.
  destruct (decide (10 <= _)); [discriminate |].
  destruct (decide (confidence_check _)) as [Hcheck |]; [| discriminate].
  injection Hcreate as <- <-.
  change (flush ?s) with (commit s). rewrite all_rows_commit, all_rows_add.
  apply Forall_app. split; [exact Hdb |]. constructor; [exact Hcheck | constructor].
Qed.

Lemma import_speed_cameras_confidence_check `{PostGIS} `{Python} uuid4 session
    cameras_data :
  Forall (λ c, confidence_check (SpeedCamera.confidence_score c))
    (all_rows session) →
  Forall (λ c, confidence_check (SpeedCamera.confidence_score c))
    (table (import_data.import_speed_cameras uuid4 session cameras_data).1).
Proof.
  intros Hsession.
  destruct (import_speed_cameras_rows uuid4 session cameras_data)
    as (new & -> & Hnew & _).
  simpl. apply Forall_app. split; [exact Hsession |].
  eapply Forall_impl; [exact Hnew |].
  intros c (_ & _ & -> & _). simpl. split; discriminate.
Qed.

(** C5 once more on the small store: the rows are the same at both times,
    and the hazard that expires at 100 is returned at time 50 and left out
    at time 200. *)
Example expiry_is_decided_at_query_time :
  @queries.get_nearby_hazards flat_PostGIS small_db 50%Z 13.0830 80.2705 500 0
    true 50 = Ok [hazard_c; hazard_b; hazard_a]
  ∧ @queries.get_nearby_hazards flat_PostGIS small_db 200%Z 13.0830 80.2705 500 0
      true 50 = Ok [hazard_c; hazard_a].
Proof. split; vm_compute; reflexivity. Qed.

(** ** The unique key on [osm_id] *)

(** X24.  [import_zones] never asks the database to write an identifier twice:
    if the non-NULL identifiers of the selected table are distinct before
    the import, they are distinct after it, so that the UNIQUE constraint
    on [osm_id] refuses none of its commits. *)
Lemma import_zones_keeps_osm_id_unique uuid4 zone_type schools hospitals elements :
  let session :=
    {| import_zones.SchoolZone := session_of schools;
       import_zones.HospitalZone := session_of hospitals |} in
  NoDup (omap Zone.osm_id (table (selected zone_type session))) →
  NoDup (omap Zone.osm_id
           (table (selected zone_type
                     (import_zones.import_zones uuid4 session elements
                        zone_type).1))).
Proof.
  intros session Hunique.
  destruct (import_zones_rows uuid4 zone_type session elements)
    as (new & -> & _ & Hids & _).
  assert (all_rows (selected zone_type session)
          = table (selected zone_type session)) as ->.
  { unfold session, selected. destruct (decide _); apply all_rows_session_of. }
  simpl. rewrite omap_app.
  assert (omap Zone.osm_id new
          = created_ids (import_zones.existing_ids session zone_type) elements)
    as ->.
  { revert Hids. generalize (created_ids
                               (import_zones.existing_ids session zone_type)
                               elements).
    induction new as [| z new IH]; intros [| s ids]; simpl; try discriminate.
    - reflexivity.
    - intros [= Hz Hids]. rewrite Hz. simpl. f_equal. apply IH, Hids. }
  apply NoDup_app. split; [exact Hunique |]. split; [| apply created_ids_NoDup].
  intros s Hstored Hcreated.
  apply created_ids_source in Hcreated as (Hfresh & element & _ & ->).
  apply Hfresh, existing_ids_spec. split; [apply str_id_nonempty |].
  apply list_elem_of_omap in Hstored as (z & Hz & Hs).
  rewrite <- Hs. apply list_elem_of_fmap. eauto.
Qed.

(** * Further properties of the code *)

(** ** Camera import: accounting, parsed fields, repeated runs *)

Section import_speed_cameras_more.

Context `{PostGIS} `{Python} (uuid4 : nat → UUID).

Lemma import_camera_step_count st cam_data :
  let st' := import_data.import_camera_step uuid4 st cam_data in
  (import_data.imported_count st' + import_data.skipped_count st'
   = S (import_data.imported_count st + import_data.skipped_count st))%nat.
Proof.
  unfold import_data.import_camera_step, import_data.import_camera.
  destruct (py_float (default (JNum 0) (cam_data !! "latitude")))
    as [latitude |]; simpl; [| lia].
  destruct (py_float (default (JNum 0) (cam_data !! "longitude")))
    as [longitude |]; simpl; [| lia].
  destruct (import_data.invalid_coordinates latitude longitude); simpl; [lia |].
  destruct (head _); simpl; lia.
Qed.

(** An iteration adds at most one camera, and the camera it adds has
    well-formed fields. *)
Lemma import_camera_step_fields st cam_data :
  ∃ new,
    all_rows (import_data.db (import_data.import_camera_step uuid4 st cam_data))
    = all_rows (import_data.db st) ++ new
    ∧ Forall imported_fields new.
Proof.
  assert (∃ new : list SpeedCamera.t,
            all_rows (import_data.db (import_data.skip st))
            = all_rows (import_data.db st) ++ new
            ∧ Forall imported_fields new) as Hskip.
  { exists []. simpl. rewrite app_nil_r. split; [reflexivity | constructor]. }
  unfold import_data.import_camera_step, import_data.import_camera.
  destruct (py_float (default (JNum 0) (cam_data !! "latitude")))
    as [latitude |]; simpl; [| exact Hskip].
  destruct (py_float (default (JNum 0) (cam_data !! "longitude")))
    as [longitude |]; simpl; [| exact Hskip].
  destruct (import_data.invalid_coordinates latitude longitude) eqn:Hvalid;
    simpl; [exact Hskip |].
  destruct (head _); simpl; [exact Hskip |].
  eexists [_]. split.
  - destruct (decide _); rewrite ?all_rows_commit; apply all_rows_add.
  - constructor; [| constructor]. split; [| split]; simpl.
    + exists longitude, latitude. split; [reflexivity |].
      apply invalid_coordinates_false, Hvalid.
    + destruct (default (JStr "G") (cam_data !! "camera_type"));
        try (left; fail). apply camera_type_map_values.
    + destruct (truthy _); [| exact I].
      destruct (py_int _) as [d |]; [| exact I].
      destruct (bool_decide (0 ≤ d)%Z) eqn:Hlow; simpl; [| exact I].
      destruct (bool_decide (d ≤ 360)%Z) eqn:Hhigh; simpl; [| exact I].
      apply bool_decide_eq_true in Hlow, Hhigh. split; assumption.
Qed.

Lemma import_camera_loop_fields cameras_data st :
  ∃ new,
    all_rows (import_data.db
                (foldl (import_data.import_camera_step uuid4) st cameras_data))
    = all_rows (import_data.db st) ++ new
    ∧ Forall imported_fields new.
Proof.
  revert st. induction cameras_data as [| cam_data cameras_data IH]; intros st.
  - exists []. simpl. rewrite app_nil_r. split; [reflexivity | constructor].
  - simpl.
    destruct (import_camera_step_fields st cam_data) as (new1 & Hrows1 & Hnew1).
    destruct (IH (import_data.import_camera_step uuid4 st cam_data))
      as (new2 & Hrows2 & Hnew2).
    exists (new1 ++ new2). split.
    + rewrite Hrows2, Hrows1. symmetry. apply app_assoc.
    + apply Forall_app. split; assumption.
Qed.

End import_speed_cameras_more.

(** X1.  On a file whose records fit (the speed limit that the import reads is
    in the range of its column and the note it writes is text),
    [import_speed_cameras] counts every record of the file once, as
    imported or as skipped, and the number it returns is the number of rows
    by which the camera table has grown; the rows added are rows that the
    table takes, and none is left pending. *)
Theorem import_speed_cameras_accounting `{PostGIS} `{Python} uuid4 rows
    cameras_data :
  Forall record_fits cameras_data →
  let st := foldl (import_data.import_camera_step uuid4)
              (import_start (session_of rows)) cameras_data in
  let run :=
    import_data.import_speed_cameras uuid4 (session_of rows) cameras_data in
  (import_data.imported_count st + import_data.skipped_count st
   = length cameras_data)%nat
  ∧ run.2 = import_data.imported_count st
  ∧ ∃ new,
      run = (session_of (rows ++ new), length new)
      ∧ Forall camera_fits new
      ∧ length (table run.1) = (length rows + run.2)%nat.
Proof.
  intros Hfit st run. split; [| split; [reflexivity |]].
  - subst st.
    assert (∀ data st0,
              (import_data.imported_count
                 (foldl (import_data.import_camera_step uuid4) st0 data)
               + import_data.skipped_count
                   (foldl (import_data.import_camera_step uuid4) st0 data)
               = import_data.imported_count st0 + import_data.skipped_count st0
                 + length data)%nat) as Hloop.
    { induction data as [| d data IH]; intros st0; simpl; [lia |].
      rewrite IH. pose proof (import_camera_step_count uuid4 st0 d) as Hstep.
      simpl in Hstep. lia. }
    rewrite Hloop. unfold import_start. simpl. lia.
  - destruct (import_speed_cameras_fits uuid4 rows cameras_data Hfit)
      as (new & Hrun & Hnew).
    fold run in Hrun. exists new. split; [exact Hrun |]. split.
    + eapply Forall_impl; [exact Hnew |]. intros c [_ Hfits]. exact Hfits.
    + rewrite Hrun. simpl. apply length_app.
Qed.

(** X1 on a file of two records, imported into a table that holds the
    camera c: both are imported. *)
Lemma import_speed_cameras_accounting_witness :
  let run :=
    @import_data.import_speed_cameras flat_PostGIS simple_Python N.of_nat
      (session_of [camera_c]) [cam_data_1; cam_data_2] in
  Forall (@record_fits simple_Python) [cam_data_1; cam_data_2]
  ∧ run.2 = 2%nat
  ∧ ∃ new,
      run = (session_of ([camera_c] ++ new), length new)
      ∧ Forall camera_fits new
      ∧ length (table run.1) = (1 + run.2)%nat.
Proof.
  intros run.
  assert (Forall (@record_fits simple_Python) [cam_data_1; cam_data_2])
    as Hfit.
  { repeat constructor;
      first [ discriminate
            | apply (bool_decide_unpack _); vm_compute; exact I ]. }
  split; [exact Hfit |]. split; [vm_compute; reflexivity |].
  apply (@import_speed_cameras_accounting flat_PostGIS simple_Python N.of_nat
           [camera_c] [cam_data_1; cam_data_2] Hfit).
Defined.

(** X2.  Every camera that [import_speed_cameras] adds to the table is a
    point with a latitude in [-90, 90] and a longitude in [-180, 180], has
    one of the camera types fixed, mobile and average_speed, and has a
    direction that is NULL or between 0 and 360; the rows that were there
    are kept, in their order. *)
Theorem import_speed_cameras_fields `{PostGIS} `{Python} uuid4 session
    cameras_data :
  ∃ new,
    table (import_data.import_speed_cameras uuid4 session cameras_data).1
    = all_rows session ++ new
    ∧ Forall imported_fields new.
Proof.
  destruct (import_camera_loop_fields uuid4 cameras_data (import_start session))
    as (new & Hrows & Hnew).
  exists new. split; [| exact Hnew].
  unfold import_data.import_speed_cameras. simpl. exact Hrows.
Qed.

Section import_speed_cameras_again.

Context `{PostGIS} `{Python}.

(** PostGIS puts a point within 10 meters of itself. *)
Hypothesis ST_DWithin_self :
  ∀ longitude latitude,
    ST_DWithin (ST_MakePoint longitude latitude)
      (ST_MakePoint longitude latitude) 10.0.

(** After an iteration on a record that parses to a valid point, some camera
    of the session lies within 10 meters of that point. *)
Lemma import_camera_step_covers uuid4 st cam_data latitude longitude :
  parsed_point cam_data latitude longitude →
  ∃ c, c ∈ all_rows
             (import_data.db (import_data.import_camera_step uuid4 st cam_data))
       ∧ ST_DWithin (SpeedCamera.location c)
           (ST_MakePoint longitude latitude) 10.0.
Proof.
  intros (Hlat & Hlon & Hvalid).
  unfold import_data.import_camera_step, import_data.import_camera.
  rewrite Hlat. simpl. rewrite Hlon. simpl. rewrite Hvalid.
  rewrite head_take_1.
  destruct (filter _ (table (import_data.db st))) as [| c found] eqn:Hfound;
    simpl.
  - eexists. split.
    + destruct (decide _); rewrite ?all_rows_commit, all_rows_add;
        apply elem_of_app; right; left.
    + apply ST_DWithin_self.
  - assert (c ∈ filter
              (λ c, ST_DWithin (SpeedCamera.location c)
                      (ST_MakePoint longitude latitude) 10.0)
              (table (import_data.db st))) as Hc by (rewrite Hfound; left).
    apply list_elem_of_filter in Hc as [Hwithin Hc].
    exists c. split; [| exact Hwithin].
    unfold all_rows. apply elem_of_app. left. exact Hc.
Qed.

Lemma import_camera_loop_covers uuid4 cameras_data st cam_data latitude longitude :
  cam_data ∈ cameras_data →
  parsed_point cam_data latitude longitude →
  ∃ c, c ∈ all_rows
             (import_data.db
                (foldl (import_data.import_camera_step uuid4) st cameras_data))
       ∧ ST_DWithin (SpeedCamera.location c)
           (ST_MakePoint longitude latitude) 10.0.
Proof.
  revert st. induction cameras_data as [| d cameras_data IH]; intros st Hin Hparsed.
  - inversion Hin.
  - simpl. apply elem_of_cons in Hin as [-> | Hin]; [| by apply IH].
    destruct (import_camera_step_covers uuid4 st d latitude longitude Hparsed)
      as (c & Hc & Hwithin).
    exists c. split; [| exact Hwithin].
    destruct (import_camera_loop_fields uuid4 cameras_data
                (import_data.import_camera_step uuid4 st d)) as (new & -> & _).
    apply elem_of_app. left. exact Hc.
Qed.

(** When every record that parses to a valid point finds a written camera
    within 10 meters, the loop only skips. *)
Lemma import_camera_loop_skips uuid4 cameras_data st :
  (∀ cam_data latitude longitude,
     cam_data ∈ cameras_data →
     parsed_point cam_data latitude longitude →
     ∃ c, c ∈ table (import_data.db st)
          ∧ ST_DWithin (SpeedCamera.location c)
              (ST_MakePoint longitude latitude) 10.0) →
  import_data.db (foldl (import_data.import_camera_step uuid4) st cameras_data)
  = import_data.db st
  ∧ import_data.imported_count
      (foldl (import_data.import_camera_step uuid4) st cameras_data)
    = import_data.imported_count st.
Proof.
  revert st. induction cameras_data as [| d cameras_data IH]; intros st Hcovered.
  - split; reflexivity.
  - simpl.
    assert (import_data.db (import_data.import_camera_step uuid4 st d)
            = import_data.db st
            ∧ import_data.imported_count
                (import_data.import_camera_step uuid4 st d)
              = import_data.imported_count st) as [Hdb Hcount].
    { unfold import_data.import_camera_step, import_data.import_camera.
      destruct (py_float (default (JNum 0) (d !! "latitude")))
        as [latitude |] eqn:Hlat; simpl; [| split; reflexivity].
      destruct (py_float (default (JNum 0) (d !! "longitude")))
        as [longitude |] eqn:Hlon; simpl; [| split; reflexivity].
      destruct (import_data.invalid_coordinates latitude longitude) eqn:Hvalid;
        simpl; [split; reflexivity |].
      assert (parsed_point d latitude longitude) as Hparsed
        by (repeat split; assumption).
      destruct (Hcovered d latitude longitude (list_elem_of_here d cameras_data)
                  Hparsed) as (c & Hc & Hwithin).
      rewrite head_take_1.
      destruct (filter _ (table (import_data.db st))) as [| c' found] eqn:Hfound;
        simpl; [| split; reflexivity].
      exfalso. apply (filter_nil_not_elem_of _ _ c Hfound Hwithin), Hc. }
    assert (∀ cam_data latitude longitude,
              cam_data ∈ cameras_data →
              parsed_point cam_data latitude longitude →
              ∃ c, c ∈ table (import_data.db
                                (import_data.import_camera_step uuid4 st d))
                   ∧ ST_DWithin (SpeedCamera.location c)
                       (ST_MakePoint longitude latitude) 10.0) as Hcovered'.
    { intros cam_data latitude longitude Hin Hparsed. rewrite Hdb.
      apply (Hcovered cam_data); [right; exact Hin | exact Hparsed]. }
    destruct (IH _ Hcovered') as [Hdb' Hcount'].
    split; congruence.
Qed.

(** X3.  Across runs the camera import is idempotent: a second run of
    [import_speed_cameras] on the same records imports nothing and leaves
    the table as the first run left it. *)
Theorem import_speed_cameras_twice uuid4 uuid4' session cameras_data :
  let run1 := import_data.import_speed_cameras uuid4 session cameras_data in
  let run2 := import_data.import_speed_cameras uuid4' run1.1 cameras_data in
  run2 = (run1.1, 0%nat).
Proof.
  intros run1 run2. subst run2 run1.
  unfold import_data.import_speed_cameras at 1.
  set (st1 := foldl (import_data.import_camera_step uuid4)
                {| import_data.db := session; import_data.imported_count := 0;
                   import_data.skipped_count := 0 |} cameras_data).
  simpl.
  set (st2 := {| import_data.db := commit (import_data.db st1);
                 import_data.imported_count := 0;
                 import_data.skipped_count := 0 |}).
  assert (∀ cam_data latitude longitude,
            cam_data ∈ cameras_data →
            parsed_point cam_data latitude longitude →
            ∃ c, c ∈ table (import_data.db st2)
                 ∧ ST_DWithin (SpeedCamera.location c)
                     (ST_MakePoint longitude latitude) 10.0) as Hcovered.
  { intros cam_data latitude longitude Hin Hparsed. simpl.
    apply (import_camera_loop_covers uuid4 cameras_data _ cam_data); assumption. }
  destruct (import_camera_loop_skips uuid4' cameras_data st2 Hcovered)
    as [Hdb Hcount].
  unfold import_data.import_speed_cameras. subst st2 st1.
  rewrite Hdb, Hcount. cbn [import_data.db import_data.imported_count].
  rewrite (commit_all_rows (import_data.db _)), commit_session_of. reflexivity.
Qed.

End import_speed_cameras_again.

Lemma flat_ST_DWithin_self longitude latitude :
  @ST_DWithin flat_PostGIS (ST_MakePoint longitude latitude)
    (ST_MakePoint longitude latitude) 10.0.
Proof.
  change (111320 * (Qabs (longitude - longitude) + Qabs (latitude - latitude))
          <= 10.0).
  assert (∀ x : Q, Qabs (x - x) == 0) as Hzero.
  { intros x. unfold Qminus. rewrite Qplus_opp_r. reflexivity. }
  rewrite !Hzero. discriminate.
Qed.

(** X3 on the two records of the camera file. *)
Lemma import_speed_cameras_twice_witness :
  let run1 := @import_data.import_speed_cameras flat_PostGIS simple_Python
                N.of_nat (session_of [camera_c]) [cam_data_1; cam_data_2] in
  let run2 := @import_data.import_speed_cameras flat_PostGIS simple_Python
                N.of_nat run1.1 [cam_data_1; cam_data_2] in
  run1.2 = 2%nat ∧ run2 = (run1.1, 0%nat).
Proof.
  split; [vm_compute; reflexivity |].
  apply (@import_speed_cameras_twice flat_PostGIS simple_Python
           flat_ST_DWithin_self).
Defined.

(** ** Zone import: accounting and the fields of a created zone *)

Lemma or_str_nonempty a b : b ≠ "" → or_str a b ≠ "".
Proof.
  intros Hb. unfold or_str. destruct a as [s |]; [| exact Hb].
  destruct (decide (s = "")); assumption.
Qed.

Section import_zones_more.

Context (uuid4 : nat → UUID) (zone_type : string).

Lemma import_element_count st element :
  let st' := import_zones.import_element uuid4 zone_type st element in
  (import_zones.imported_count st' + import_zones.skipped_count st'
   + import_zones.duplicate_count st'
   = S (import_zones.imported_count st + import_zones.skipped_count st
        + import_zones.duplicate_count st))%nat.
Proof.
  unfold import_zones.import_element.
  destruct (decide (import_zones.type element ≠ Some "node")); simpl; [lia |].
  destruct (decide (_ ∈ import_zones.seen_ids st)); simpl; [lia |].
  destruct (import_zones.lat element), (import_zones.lon element); simpl; lia.
Qed.

Lemma import_element_fields st element :
  ∃ new,
    all_rows (selected zone_type
                (import_zones.db
                   (import_zones.import_element uuid4 zone_type st element)))
    = all_rows (selected zone_type (import_zones.db st)) ++ new
    ∧ Forall zone_fields new.
Proof.
  unfold import_zones.import_element.
  destruct (decide (import_zones.type element ≠ Some "node")); simpl.
  { exists []. rewrite app_nil_r. split; [reflexivity | constructor]. }
  destruct (decide (_ ∈ import_zones.seen_ids st)); simpl.
  { exists []. rewrite app_nil_r. split; [reflexivity | constructor]. }
  destruct (import_zones.lat element) as [lat |],
           (import_zones.lon element) as [lon |]; simpl;
    try (exists []; rewrite app_nil_r; split; [reflexivity | constructor]).
  eexists [_]. split.
  - destruct (decide (_ = 0)%nat);
      rewrite ?selected_commit_zones, ?all_rows_commit;
      unfold selected; destruct (decide (zone_type = "school")); simpl;
      apply all_rows_add.
  - constructor; [| constructor].
    split; [| split; [| split]]; simpl.
    + eexists _, _. reflexivity.
    + eexists. split; [reflexivity |].
      do 2 apply or_str_nonempty. discriminate.
    + eexists. split; [reflexivity |].
      destruct (decide (_ = "")); [discriminate | assumption].
    + eexists. split; [reflexivity | apply str_id_nonempty].
Qed.

Lemma import_zones_loop_fields elements st :
  ∃ new,
    all_rows (selected zone_type
                (import_zones.db
                   (foldl (import_zones.import_element uuid4 zone_type) st
                      elements)))
    = all_rows (selected zone_type (import_zones.db st)) ++ new
    ∧ Forall zone_fields new.
Proof.
  revert st. induction elements as [| element elements IH]; intros st.
  - exists []. simpl. rewrite app_nil_r. split; [reflexivity | constructor].
  - simpl.
    destruct (import_element_fields st element) as (new1 & Hrows1 & Hnew1).
    destruct (IH (import_zones.import_element uuid4 zone_type st element))
      as (new2 & Hrows2 & Hnew2).
    exists (new1 ++ new2). split.
    + rewrite Hrows2, Hrows1. symmetry. apply app_assoc.
    + apply Forall_app. split; assumption.
Qed.

End import_zones_more.

(** X4.  [import_zones] counts every element of the file once: as imported,
    as skipped (not a node, or without coordinates) or as a duplicate. *)
Theorem import_zones_accounting uuid4 session elements zone_type :
  let st := foldl (import_zones.import_element uuid4 zone_type)
              (import_zones_start session zone_type) elements in
  (import_zones.imported_count st + import_zones.skipped_count st
   + import_zones.duplicate_count st = length elements)%nat
  ∧ (import_zones.import_zones uuid4 session elements zone_type).2
    = import_zones.imported_count st.
Proof.
  intros st. split; [| reflexivity]. subst st.
  assert (∀ elements st0,
            let st := foldl (import_zones.import_element uuid4 zone_type) st0
                        elements in
            (import_zones.imported_count st + import_zones.skipped_count st
             + import_zones.duplicate_count st
             = import_zones.imported_count st0 + import_zones.skipped_count st0
               + import_zones.duplicate_count st0 + length elements)%nat)
    as Hloop.
  { clear elements. induction elements as [| e elements IH]; intros st0; simpl;
      [lia |].
    simpl in IH. rewrite IH.
    pose proof (import_element_count uuid4 zone_type st0 e) as Hstep.
    simpl in Hstep. lia. }
  specialize (Hloop elements (import_zones_start session zone_type)).
  simpl in Hloop. rewrite Hloop. lia.
Qed.

(** X5.  Every zone that [import_zones] creates is a point and has a name,
    an address and an external identifier that are set and not empty: a
    missing name becomes "Unnamed <zone_type>", a missing address "Address
    not available".  The zones that were stored are kept, in their order. *)
Theorem import_zones_fields uuid4 session elements zone_type :
  ∃ new,
    table (selected zone_type
             (import_zones.import_zones uuid4 session elements zone_type).1)
    = all_rows (selected zone_type session) ++ new
    ∧ Forall zone_fields new.
Proof.
  destruct (import_zones_loop_fields uuid4 zone_type elements
              (import_zones_start session zone_type)) as (new & Hrows & Hnew).
  exists new. split; [| exact Hnew].
  unfold import_zones.import_zones. simpl.
  rewrite selected_commit_zones. exact Hrows.
Qed.

(** ** The nearby queries: which rows, and which of them under a limit *)

Section order_by_distance_limit_more.

Context {Row : Type} (distance_col : Row → Q).

Lemma fst_add_columns (query : list Row) :
  map fst (map (λ r, (r, distance_col r)) query) = query.
Proof. induction query as [| r query IH]; simpl; [| rewrite IH]; reflexivity. Qed.

Lemma fst_merge_sort (query : list Row) :
  map fst (merge_sort by_distance (map (λ r, (r, distance_col r)) query))
  ≡ₚ query.
Proof.
  rewrite <- (fst_add_columns query) at 2.
  apply (fmap_Permutation fst), merge_sort_Permutation.
Qed.

(** The rows returned are rows of the query, none more often than there. *)
Lemma order_by_distance_limit_submseteq limit query result :
  order_by_distance_limit distance_col limit query = Ok result →
  result ⊆+ query.
Proof.
  intros [_ ->]%order_by_distance_limit_inv. unfold result_rows.
  rewrite <- (fst_merge_sort query) at 2.
  apply sublist_submseteq, (fmap_sublist fst), sublist_take.
Qed.

(** A limit that does not cut returns every row of the query once. *)
Lemma order_by_distance_limit_Permutation limit query result :
  order_by_distance_limit distance_col limit query = Ok result →
  (Z.of_nat (length query) ≤ limit)%Z →
  result ≡ₚ query.
Proof.
  intros [_ ->]%order_by_distance_limit_inv Hlimit. unfold result_rows.
  rewrite take_ge by (rewrite merge_sort_Permutation, length_map; lia).
  apply fst_merge_sort.
Qed.

(** A limit that cuts keeps the nearest rows: a row that is returned is no
    farther than a row of the query that is not. *)
Lemma order_by_distance_limit_nearest limit query result x y :
  order_by_distance_limit distance_col limit query = Ok result →
  x ∈ result → y ∈ query → y ∉ result →
  distance_col x <= distance_col y.
Proof.
  intros [_ ->]%order_by_distance_limit_inv Hx Hy Hout.
  apply list_elem_of_fmap in Hx as (p & -> & Hp).
  pose proof (result_rows_distance distance_col limit query) as Hdistance.
  rewrite Forall_forall in Hdistance. rewrite <- (Hdistance p Hp).
  unfold result_rows in *.
  set (sorted := merge_sort by_distance ((λ r, (r, distance_col r)) <$> query))
    in *.
  assert ((y, distance_col y) ∈ sorted) as Hy'.
  { unfold sorted. rewrite merge_sort_Permutation.
    apply list_elem_of_fmap. exists y. split; [reflexivity | exact Hy]. }
  rewrite <- (take_drop (Z.to_nat limit) sorted) in Hy'.
  apply elem_of_app in Hy' as [Hy' | Hy'].
  - exfalso. apply Hout. apply list_elem_of_fmap.
    exists (y, distance_col y). split; [reflexivity | exact Hy'].
  - assert (StronglySorted by_distance sorted) as Hsorted
      by (apply StronglySorted_merge_sort; apply _).
    rewrite <- (take_drop (Z.to_nat limit) sorted) in Hsorted.
    apply (StronglySorted_app_1_elem_of _ _ _ _ _ Hsorted Hp Hy').
Qed.

End order_by_distance_limit_more.

Section nearby_more.

Context `{PostGIS}.

(** [get_nearby_speed_cameras] is one selection, sorted and cut. *)
Lemma get_nearby_speed_cameras_as_filter db latitude longitude radius_meters
    min_confidence verified_only limit :
  queries.get_nearby_speed_cameras db latitude longitude radius_meters
    min_confidence verified_only limit
  = order_by_distance_limit
      (λ c, ST_Distance (SpeedCamera.location c) (ST_MakePoint longitude latitude))
      limit
      (filter (camera_matches latitude longitude radius_meters min_confidence
                 verified_only) (speed_cameras db)).
Proof.
  unfold queries.get_nearby_speed_cameras. f_equal.
  unfold camera_matches.
  destruct verified_only, (decide (0 < min_confidence));
    rewrite ?list_filter_filter; apply list_filter_iff; intros c;
    split; intros; repeat split; try tauto; try discriminate.
Qed.

Lemma get_nearby_hazards_as_filter db now latitude longitude radius_meters
    min_confidence active_only limit :
  queries.get_nearby_hazards db now latitude longitude radius_meters
    min_confidence active_only limit
  = order_by_distance_limit
      (λ h, ST_Distance (HazardDetection.location h)
              (ST_MakePoint longitude latitude))
      limit
      (filter (hazard_matches now latitude longitude radius_meters
                 min_confidence active_only) (hazard_detections db)).
Proof.
  unfold queries.get_nearby_hazards. f_equal.
  unfold hazard_matches.
  destruct active_only, (decide (0 < min_confidence));
    rewrite ?list_filter_filter; apply list_filter_iff; intros h;
    split; intros; repeat split; try tauto; try discriminate.
Qed.

End nearby_more.

(** X6.  When the limit cuts the result of a nearby query, the rows kept are
    the nearest ones: a camera (a hazard) that is returned is no farther
    from the query point than a stored camera (hazard) that passes the
    filters and is not returned. *)
Theorem nearby_keeps_the_nearest `{PostGIS} db now latitude longitude
    radius_meters min_confidence verified_only active_only limit :
  let point := ST_MakePoint longitude latitude in
  (∀ cameras c c',
     queries.get_nearby_speed_cameras db latitude longitude radius_meters
       min_confidence verified_only limit = Ok cameras →
     c ∈ cameras →
     c' ∈ speed_cameras db →
     camera_matches latitude longitude radius_meters min_confidence
       verified_only c' →
     c' ∉ cameras →
     ST_Distance (SpeedCamera.location c) point
     <= ST_Distance (SpeedCamera.location c') point)
  ∧ (∀ hazards h h',
       queries.get_nearby_hazards db now latitude longitude radius_meters
         min_confidence active_only limit = Ok hazards →
       h ∈ hazards →
       h' ∈ hazard_detections db →
       hazard_matches now latitude longitude radius_meters min_confidence
         active_only h' →
       h' ∉ hazards →
       ST_Distance (HazardDetection.location h) point
       <= ST_Distance (HazardDetection.location h') point).
Proof.
  intros point. split.
  - intros cameras c c' Hresult Hc Hstored Hmatches Hout.
    rewrite get_nearby_speed_cameras_as_filter in Hresult.
    eapply (order_by_distance_limit_nearest
              (λ c, ST_Distance (SpeedCamera.location c) point));
      [exact Hresult | exact Hc | | exact Hout].
    apply list_elem_of_filter. split; assumption.
  - intros hazards h h' Hresult Hh Hstored Hmatches Hout.
    rewrite get_nearby_hazards_as_filter in Hresult.
    eapply (order_by_distance_limit_nearest
              (λ h, ST_Distance (HazardDetection.location h) point));
      [exact Hresult | exact Hh | | exact Hout].
    apply list_elem_of_filter. split; assumption.
Qed.

(** X6 on the small store with a limit of 1: the camera returned is the
    nearer of the two within the radius. *)
Lemma nearby_keeps_the_nearest_witness :
  let distance c :=
    @ST_Distance flat_PostGIS (SpeedCamera.location c)
      (ST_MakePoint 80.2705 13.0830) in
  @queries.get_nearby_speed_cameras flat_PostGIS small_db 13.0830 80.2705 500 0
    false 1 = Ok [camera_a]
  ∧ distance camera_a <= distance camera_b.
Proof.
  assert (@queries.get_nearby_speed_cameras flat_PostGIS small_db 13.0830
            80.2705 500 0 false 1 = Ok [camera_a]) as Hquery
    by (vm_compute; reflexivity).
  split; [exact Hquery |].
  apply (proj1 (@nearby_keeps_the_nearest flat_PostGIS small_db 0%Z 13.0830
                  80.2705 500 0 false true 1) [camera_a] camera_a camera_b
           Hquery).
  - left.
  - right. left.
  - apply (bool_decide_unpack _). vm_compute. exact I.
  - intros Hin. apply list_elem_of_singleton in Hin. discriminate Hin.
Defined.

(** X7.  A nearby query returns stored rows only, none more often than it is
    stored; and when the limit is at least the size of the table, it returns
    exactly the stored rows that pass its filters, each once. *)
Theorem nearby_returns_the_matching_rows `{PostGIS} db now latitude longitude
    radius_meters min_confidence verified_only active_only limit :
  (∀ cameras,
     queries.get_nearby_speed_cameras db latitude longitude radius_meters
       min_confidence verified_only limit = Ok cameras →
     cameras ⊆+ speed_cameras db
     ∧ ((Z.of_nat (length (speed_cameras db)) ≤ limit)%Z →
        cameras ≡ₚ filter (camera_matches latitude longitude radius_meters
                             min_confidence verified_only) (speed_cameras db)))
  ∧ (∀ hazards,
       queries.get_nearby_hazards db now latitude longitude radius_meters
         min_confidence active_only limit = Ok hazards →
       hazards ⊆+ hazard_detections db
       ∧ ((Z.of_nat (length (hazard_detections db)) ≤ limit)%Z →
          hazards ≡ₚ filter (hazard_matches now latitude longitude
                               radius_meters min_confidence active_only)
                       (hazard_detections db))).
Proof.
  split.
  - intros cameras Hresult.
    rewrite get_nearby_speed_cameras_as_filter in Hresult. split.
    + etransitivity; [eapply order_by_distance_limit_submseteq, Hresult |].
      apply sublist_submseteq, sublist_filter.
    + intros Hlimit.
      eapply order_by_distance_limit_Permutation; [exact Hresult |].
      pose proof (length_filter
                    (camera_matches latitude longitude radius_meters
                       min_confidence verified_only) (speed_cameras db)).
      lia.
  - intros hazards Hresult.
    rewrite get_nearby_hazards_as_filter in Hresult. split.
    + etransitivity; [eapply order_by_distance_limit_submseteq, Hresult |].
      apply sublist_submseteq, sublist_filter.
    + intros Hlimit.
      eapply order_by_distance_limit_Permutation; [exact Hresult |].
      pose proof (length_filter
                    (hazard_matches now latitude longitude radius_meters
                       min_confidence active_only) (hazard_detections db)).
      lia.
Qed.

(** X7 on the small store: the two cameras within 500 m, and no other. *)
Lemma nearby_returns_the_matching_rows_witness :
  @queries.get_nearby_speed_cameras flat_PostGIS small_db 13.0830 80.2705 500 0
    false 50 = Ok [camera_a; camera_b]
  ∧ [camera_a; camera_b] ⊆+ speed_cameras small_db
  ∧ [camera_a; camera_b]
    ≡ₚ filter (@camera_matches flat_PostGIS 13.0830 80.2705 500 0 false)
         (speed_cameras small_db).
Proof.
  assert (@queries.get_nearby_speed_cameras flat_PostGIS small_db 13.0830
            80.2705 500 0 false 50 = Ok [camera_a; camera_b]) as Hquery
    by (vm_compute; reflexivity).
  destruct (proj1 (@nearby_returns_the_matching_rows flat_PostGIS small_db 0%Z
                     13.0830 80.2705 500 0 false true 50) _ Hquery)
    as [Hsub Hall].
  split; [exact Hquery |]. split; [exact Hsub |].
  apply Hall. simpl. lia.
Defined.

(** ** The nearby queries on speed limits, hazardous roads and zones *)

Section nearby_within.

Context {Row : Type} (distance_col : Row → Q) (radius_meters : Q).

(** Sorting and cutting rows that are all within the radius returns rows
    within the radius, nearest first, no more than the limit. *)
Lemma order_by_distance_limit_within limit query result :
  order_by_distance_limit distance_col limit query = Ok result →
  Forall (λ r, distance_col r <= radius_meters) query →
  Forall (λ r, distance_col r <= radius_meters) result
  ∧ StronglySorted (λ r1 r2, distance_col r1 <= distance_col r2) result
  ∧ (Z.of_nat (length result) ≤ limit)%Z.
Proof.
  intros Hresult Hquery. split; [| split].
  - apply Forall_forall. intros r Hr. rewrite Forall_forall in Hquery.
    apply Hquery. eapply order_by_distance_limit_elem_of; eassumption.
  - eapply order_by_distance_limit_sorted, Hresult.
  - eapply order_by_distance_limit_length, Hresult.
Qed.

End nearby_within.

Lemma Forall_filter_l {A} (P : A → Prop) `{∀ x, Decision (P x)} (l : list A) :
  Forall P (filter P l).
Proof. apply Forall_forall. intros x [Hx _]%list_elem_of_filter. exact Hx. Qed.

Lemma Forall_filter_r {A} (P Q : A → Prop) `{∀ x, Decision (Q x)} (l : list A) :
  Forall P l → Forall P (filter Q l).
Proof.
  rewrite !Forall_forall. intros Hl x [_ Hx]%list_elem_of_filter. auto.
Qed.

(** X8.  The nearby queries on speed limits, hazardous road segments, school
    zones and hospital zones return rows within the requested radius of the
    query point, sorted by non-decreasing distance, and no more of them than
    the limit. *)
Theorem other_nearby_within_radius_sorted_limited `{PostGIS} db latitude
    longitude radius_meters min_confidence verified_only limit :
  let point := ST_MakePoint longitude latitude in
  let within {Row} (geometry : Row → Geography) (result : list Row) :=
    Forall (λ r, ST_Distance (geometry r) point <= radius_meters) result
    ∧ StronglySorted
        (λ r1 r2, ST_Distance (geometry r1) point
                  <= ST_Distance (geometry r2) point) result
    ∧ (Z.of_nat (length result) ≤ limit)%Z in
  (∀ result,
     queries.get_nearby_speed_limits db latitude longitude radius_meters
       min_confidence verified_only limit = Ok result →
     within RoadSpeedLimit.road_segment result)
  ∧ (∀ result,
       queries.get_nearby_hazardous_roads db latitude longitude radius_meters
         min_confidence limit = Ok result →
       within HazardousRoadSegment.road_segment result)
  ∧ (∀ result,
       queries.get_nearby_school_zones db latitude longitude radius_meters
         limit = Ok result →
       within Zone.location result)
  ∧ (∀ result,
       queries.get_nearby_hospital_zones db latitude longitude radius_meters
         limit = Ok result →
       within Zone.location result).
Proof.
  intros point within. split; [| split; [| split]]; intros result Hresult.
  - eapply (order_by_distance_limit_within
              (λ s, ST_Distance (RoadSpeedLimit.road_segment s) point));
      [exact Hresult |].
    destruct verified_only, (decide (0 < min_confidence));
      repeat first
        [ apply (Forall_filter_l
                   (λ s, ST_DWithin (RoadSpeedLimit.road_segment s) point
                           radius_meters))
        | apply Forall_filter_r ].
  - eapply (order_by_distance_limit_within
              (λ r, ST_Distance (HazardousRoadSegment.road_segment r) point));
      [exact Hresult |].
    destruct (decide (0 < min_confidence));
      repeat first
        [ apply (Forall_filter_l
                   (λ r, ST_DWithin (HazardousRoadSegment.road_segment r) point
                           radius_meters))
        | apply Forall_filter_r ].
  - eapply (order_by_distance_limit_within
              (λ z, ST_Distance (Zone.location z) point)); [exact Hresult |].
    apply (Forall_filter_l
             (λ z, ST_DWithin (Zone.location z) point radius_meters)).
  - eapply (order_by_distance_limit_within
              (λ z, ST_Distance (Zone.location z) point)); [exact Hresult |].
    apply (Forall_filter_l
             (λ z, ST_DWithin (Zone.location z) point radius_meters)).
Qed.

(** X9.  With [verified_only], every camera and every speed limit that a
    nearby query returns is verified. *)
Theorem verified_only_returns_verified `{PostGIS} db latitude longitude
    radius_meters min_confidence limit :
  (∀ cameras,
     queries.get_nearby_speed_cameras db latitude longitude radius_meters
       min_confidence true limit = Ok cameras →
     Forall (λ c, SpeedCamera.verified c = Some true) cameras)
  ∧ (∀ speed_limits,
       queries.get_nearby_speed_limits db latitude longitude radius_meters
         min_confidence true limit = Ok speed_limits →
       Forall (λ s, RoadSpeedLimit.verified s = Some true) speed_limits).
Proof.
  split.
  - intros cameras Hresult. apply Forall_forall. intros c Hc.
    eapply get_nearby_speed_cameras_where in Hc as (_ & _ & _ & Hverified);
      [| exact Hresult].
    apply Hverified. reflexivity.
  - intros speed_limits Hresult. apply Forall_forall. intros s Hs.
    unfold queries.get_nearby_speed_limits in Hresult.
    eapply order_by_distance_limit_elem_of in Hs; [| exact Hresult].
    apply list_elem_of_filter in Hs as [Hverified _]. exact Hverified.
Qed.

(** ** Creating, finding and deleting a camera *)

Lemma filter_all {A} (P : A → Prop) `{∀ x, Decision (P x)} (l : list A) :
  Forall P l → filter P l = l.
Proof.
  induction 1 as [| x l Hx _ IH]; [reflexivity |].
  rewrite filter_cons, decide_True by exact Hx. rewrite IH. reflexivity.
Qed.

(** X10.  A camera created through [create_camera] is found by the nearby
    query.  The request is one that the table takes: its values are within
    the ranges of their columns and the identifier drawn for it is new.
    Then the camera is stored and answered, and at its own point, with a
    radius that PostGIS accepts for that point, a [min_confidence] of at
    most 0.50 and a limit above the number of stored cameras, the query
    returns it.  A [verified_only] query never returns it. *)
Theorem created_camera_is_found `{PostGIS} db uuid4 rows request current_user
    radius_meters min_confidence limit :
  let latitude := main.CreateCameraRequest.latitude request in
  let longitude := main.CreateCameraRequest.longitude request in
  let point := ST_MakePoint longitude latitude in
  let run := main.create_camera uuid4 (session_of rows) request current_user in
  let created := table run.1 in
  request_fits request →
  uuid4 ∉ SpeedCamera.id <$> rows →
  ST_DWithin point point radius_meters →
  min_confidence <= 0.50 →
  (Z.of_nat (length rows) < limit)%Z →
  ∃ c response,
    run = (session_of (rows ++ [c]), Ok response)
    ∧ camera_fits c
    ∧ SpeedCamera.id c = uuid4
    ∧ SpeedCamera.location c = point
    ∧ SpeedCamera.reported_by c = Some (User.id current_user)
    ∧ (∃ cameras,
         queries.get_nearby_speed_cameras (with_speed_cameras db created)
           latitude longitude radius_meters min_confidence false limit
         = Ok cameras
         ∧ c ∈ cameras)
    ∧ (∀ cameras,
         queries.get_nearby_speed_cameras (with_speed_cameras db created)
           latitude longitude radius_meters min_confidence true limit
         = Ok cameras →
         c ∉ cameras).
Proof.
  intros latitude longitude point run created Hrequest Hfresh Hself Hmin Hlimit.
  destruct (create_camera_accepts uuid4 rows request current_user
              Hrequest Hfresh) as (Hrun & Hfits).
  fold run latitude longitude point in Hrun, Hfits.
  subst created. rewrite Hrun.
  change (table (session_of ?l, ?r).1) with l.
  set (c := SpeedCamera.insert uuid4 point _ _ _ None None (Some 0.50) _ _)
    in *.
  eexists c, _. split; [reflexivity |]. split; [exact Hfits |].
  split; [reflexivity |]. split; [reflexivity |]. split; [reflexivity |].
  split.
  - destruct (proj1 (get_nearby_speed_cameras_returns
                       (with_speed_cameras db (rows ++ [c])) latitude longitude
                       radius_meters min_confidence false limit))
      as [cameras Hcameras]; [lia |].
    exists cameras. split; [exact Hcameras |].
    rewrite get_nearby_speed_cameras_as_filter in Hcameras.
    eapply order_by_distance_limit_all; [exact Hcameras | |].
    + etransitivity; [apply inj_le, length_filter |].
      change (speed_cameras (with_speed_cameras db (rows ++ [c])))
        with (rows ++ [c]).
      rewrite length_app. simpl. lia.
    + apply list_elem_of_filter. split.
      * split; [exact Hself |]. split; [intros _; exact Hmin | discriminate].
      * simpl. apply elem_of_app. right. left.
  - intros cameras Hcameras Hc.
    eapply get_nearby_speed_cameras_where in Hc as (_ & _ & _ & Hverified);
      [| exact Hcameras].
    specialize (Hverified eq_refl). discriminate Hverified.
Qed.

(** X10 on the small store: a camera posted at (13.0830, 80.2705). *)
Lemma created_camera_is_found_witness :
  let request :=
    {| main.CreateCameraRequest.latitude := 13.0830;
       main.CreateCameraRequest.longitude := 80.2705;
       main.CreateCameraRequest.speed_limit_kmh := 50;
       main.CreateCameraRequest.camera_type := "fixed";
       main.CreateCameraRequest.direction_degrees := None;
       main.CreateCameraRequest.notes := None |} in
  let rows := speed_cameras small_db in
  let run := main.create_camera 4%N (session_of rows) request user_7 in
  request_fits request
  ∧ (4%N ∉ SpeedCamera.id <$> rows)
  ∧ ∃ c response,
      run = (session_of (rows ++ [c]), Ok response)
      ∧ camera_fits c
      ∧ SpeedCamera.id c = 4%N
      ∧ (∃ cameras,
           @queries.get_nearby_speed_cameras flat_PostGIS
             (with_speed_cameras small_db (table run.1)) 13.0830 80.2705 500
             0.5 false 50 = Ok cameras
           ∧ c ∈ cameras).
Proof.
  intros request rows run.
  assert (request_fits request) as Hrequest
    by (subst request; unfold request_fits; fits_by_computation).
  assert (4%N ∉ SpeedCamera.id <$> rows) as Hfresh
    by (apply (bool_decide_unpack _); vm_compute; exact I).
  split; [exact Hrequest |]. split; [exact Hfresh |].
  destruct (@created_camera_is_found flat_PostGIS small_db 4%N rows request
              user_7 500 0.5 50)
    as (c & response & Hrun & Hfits & Hid & _ & _ & Hfound & _).
  - exact Hrequest.
  - exact Hfresh.
  - apply (bool_decide_unpack _). vm_compute. exact I.
  - discriminate.
  - simpl. lia.
  - exists c, response. split; [exact Hrun |]. split; [exact Hfits |].
    split; [exact Hid | exact Hfound].
Defined.

(** X11.  Creating a camera and deleting it restores the table.  The
    request is one that the table takes (its values are within the ranges
    of their columns), on a table with unique identifiers that does not
    hold the new identifier.  Then the camera is stored and answered; the
    reporter's delete request for it succeeds and leaves the rows that were
    there; another user's request is refused with 403 and changes nothing;
    and once the camera is deleted, a further request for it is answered
    404. *)
Theorem create_then_delete `{Python} uuid4 rows request current_user other_user
    camera_id :
  request_fits request →
  py_UUID camera_id = Some uuid4 →
  NoDup (SpeedCamera.id <$> rows) →
  uuid4 ∉ SpeedCamera.id <$> rows →
  User.id other_user ≠ User.id current_user →
  let run := main.create_camera uuid4 (session_of rows) request current_user in
  let created := run.1 in
  (∃ c response,
     run = (session_of (rows ++ [c]), Ok response)
     ∧ SpeedCamera.id c = uuid4
     ∧ camera_fits c)
  ∧ main.delete_camera created camera_id current_user = (session_of rows, Ok ())
  ∧ main.delete_camera created camera_id other_user
    = (created,
       Raise (HTTPException 403 "You can only delete cameras you added"))
  ∧ main.delete_camera (session_of rows) camera_id current_user
    = (session_of rows, Raise (HTTPException 404 "Camera not found")).
Proof.
  intros Hrequest Huuid Hnodup Hfresh Hother run created.
  destruct (create_camera_accepts uuid4 rows request current_user
              Hrequest Hfresh) as (Hrun & Hfits).
  fold run in Hrun.
  set (c := SpeedCamera.insert uuid4 _ _ _ _ None None (Some 0.50) _ _) in *.
  split; [eexists c, _; split; [exact Hrun |]; split;
          [reflexivity | exact Hfits] |].
  subst created. rewrite Hrun. change ((?a, ?b).1) with a.
  assert (Forall (λ c', SpeedCamera.id c' ≠ uuid4) rows) as Hrows.
  { apply Forall_forall. intros c' Hc' Heq. apply Hfresh.
    apply list_elem_of_fmap. exists c'. split; [symmetry; exact Heq | exact Hc']. }
  assert (filter (λ c', SpeedCamera.id c' = uuid4) (rows ++ [c]) = [c]) as Hselect.
  { rewrite filter_app, filter_none by exact Hrows. simpl.
    rewrite filter_cons, decide_True by reflexivity. reflexivity. }
  unfold main.delete_camera. rewrite Huuid. simpl. rewrite Hselect. simpl.
  split; [| split].
  - rewrite decide_False by (intros Hne; apply Hne; reflexivity).
    rewrite filter_app, filter_all by exact Hrows.
    rewrite filter_none
      by (constructor; [intros Hne; apply Hne; reflexivity | constructor]).
    unfold commit, flush, session_of. simpl. rewrite !app_nil_r. reflexivity.
  - rewrite decide_True by congruence. reflexivity.
  - rewrite filter_none by exact Hrows. reflexivity.
Qed.

(** X11 on the small store. *)
Lemma create_then_delete_witness :
  let request :=
    {| main.CreateCameraRequest.latitude := 13.0830;
       main.CreateCameraRequest.longitude := 80.2705;
       main.CreateCameraRequest.speed_limit_kmh := 50;
       main.CreateCameraRequest.camera_type := "fixed";
       main.CreateCameraRequest.direction_degrees := None;
       main.CreateCameraRequest.notes := None |} in
  let rows := speed_cameras small_db in
  let run := main.create_camera 4%N (session_of rows) request user_7 in
  request_fits request
  ∧ (∃ c response,
       run = (session_of (rows ++ [c]), Ok response)
       ∧ SpeedCamera.id c = 4%N
       ∧ camera_fits c)
  ∧ @main.delete_camera simple_Python run.1 "4" user_7
    = (session_of rows, Ok ()).
Proof.
  intros request rows run.
  assert (request_fits request) as Hrequest
    by (subst request; unfold request_fits; fits_by_computation).
  split; [exact Hrequest |].
  destruct (@create_then_delete simple_Python 4%N rows request user_7 user_8
              "4") as (Hcreated & Hdeleted & _).
  - exact Hrequest.
  - reflexivity.
  - apply (bool_decide_unpack _). vm_compute. exact I.
  - apply (bool_decide_unpack _). vm_compute. exact I.
  - discriminate.
  - split; [exact Hcreated | exact Hdeleted].
Defined.

(** ** The aggregate that the navigation endpoint returns *)

Lemma bind_Ok {E A B} (m : Exc E A) (k : A → Exc E B) b :
  m ≫= k = Ok b → ∃ a, m = Ok a ∧ k a = Ok b.
Proof. destruct m as [a | e]; [eauto | discriminate]. Qed.

Lemma for_each_Ok {E A B} (f : A → Exc E B) (l : list A) (l' : list B) :
  for_each f l = Ok l' → Forall2 (λ x y, f x = Ok y) l l'.
Proof.
  revert l'. induction l as [| x l IH]; intros l' Hl'; simpl in Hl'.
  - injection Hl' as <-. constructor.
  - apply bind_Ok in Hl' as (y & Hy & Hl').
    apply bind_Ok in Hl' as (ys & Hys & Hl').
    injection Hl' as <-. constructor; [exact Hy | apply IH, Hys].
Qed.

(** X12.  When [get_navigation_data_nearby] returns an aggregate, none of
    its four queries failed, each count is the length of its list, no list
    is longer than 50, and every hazard listed is flagged active. *)
Theorem navigation_aggregate `{PostGIS} fails db now latitude longitude
    radius_meters data :
  main.get_navigation_data_nearby fails db now latitude longitude radius_meters
  = Ok data →
  (∀ statement,
     statement ∈ [main.SelectCameras; main.SelectSpeedLimits;
                  main.SelectHazards; main.SelectHazardousRoads] →
     fails statement = None)
  ∧ main.NavigationData.counts data
    = {| main.Counts.cameras := length (main.NavigationData.cameras data);
         main.Counts.speed_limits := length (main.NavigationData.speed_limits data);
         main.Counts.hazards := length (main.NavigationData.hazards data);
         main.Counts.hazardous_roads :=
           length (main.NavigationData.hazardous_roads data) |}
  ∧ (length (main.NavigationData.cameras data) ≤ 50
     ∧ length (main.NavigationData.speed_limits data) ≤ 50
     ∧ length (main.NavigationData.hazards data) ≤ 50
     ∧ length (main.NavigationData.hazardous_roads data) ≤ 50)%nat
  ∧ Forall (λ h, main.HazardData.is_active h = Some true)
      (main.NavigationData.hazards data).
Proof.
  unfold main.get_navigation_data_nearby. intros Hdata.
  match type of Hdata with
  | try_except ?m _ = _ => destruct m as [data' |] eqn:Hbody; [| discriminate]
  end.
  injection Hdata as ->.
  apply bind_Ok in Hbody as (cameras & Hcameras & Hbody).
  apply bind_Ok in Hbody as (speed_limits & Hspeed_limits & Hbody).
  apply bind_Ok in Hbody as (hazards & Hhazards & Hbody).
  apply bind_Ok in Hbody as (hazardous_roads & Hroads & Hbody).
  apply bind_Ok in Hbody as (cameras_data & Hcameras_data & Hbody).
  apply bind_Ok in Hbody as (speed_limits_data & Hspeed_limits_data & Hbody).
  cbv zeta in Hbody.
  apply bind_Ok in Hbody as (hazard_coords & _ & Hbody).
  apply bind_Ok in Hbody as (hazards_data & Hhazards_data & Hbody).
  apply bind_Ok in Hbody as (roads_data & Hroads_data & Hbody).
  injection Hbody as <-. simpl.
  pose proof (execute_Ok _ _ _ _ Hcameras) as Hok1.
  pose proof (execute_Ok _ _ _ _ Hspeed_limits) as Hok2.
  pose proof (execute_Ok _ _ _ _ Hhazards) as Hok3.
  pose proof (execute_Ok _ _ _ _ Hroads) as Hok4.
  unfold main.execute in Hcameras, Hspeed_limits, Hhazards, Hroads.
  rewrite Hok1 in Hcameras. rewrite Hok2 in Hspeed_limits.
  rewrite Hok3 in Hhazards. rewrite Hok4 in Hroads.
  apply for_each_Ok in Hcameras_data, Hspeed_limits_data, Hhazards_data,
    Hroads_data.
  split; [| split; [reflexivity | split]].
  - intros statement Hstatement.
    repeat (apply elem_of_cons in Hstatement as [-> | Hstatement];
            [assumption |]).
    inversion Hstatement.
  - rewrite <- (Forall2_length _ _ _ Hcameras_data),
      <- (Forall2_length _ _ _ Hspeed_limits_data),
      <- (Forall2_length _ _ _ Hhazards_data),
      <- (Forall2_length _ _ _ Hroads_data).
    apply order_by_distance_limit_length in Hcameras, Hspeed_limits, Hhazards,
      Hroads.
    lia.
  - clear Hroads_data Hcameras_data Hspeed_limits_data.
    assert (Forall (λ h, HazardDetection.is_active h = Some true) hazards)
      as Hactive.
    { apply Forall_forall. intros h Hh.
      eapply get_nearby_hazards_where in Hh as (_ & _ & _ & Hactive);
        [| exact Hhazards].
      apply Hactive. reflexivity. }
    clear Hhazards.
    induction Hhazards_data as [| h hd hazards hds Hhd _ IH]; [constructor |].
    apply Forall_cons in Hactive as [Hh Hactive].
    constructor; [| apply IH, Hactive].
    apply bind_Ok in Hhd as (score & _ & Hhd). injection Hhd as <-.
    simpl. exact Hh.
Qed.

(** X12 on the small store. *)
Lemma navigation_aggregate_witness :
  ∃ data,
    @main.get_navigation_data_nearby flat_PostGIS (λ _, None) small_db 200%Z
      13.0830 80.2705 500 = Ok data
    ∧ length (main.NavigationData.hazards data) = 2%nat
    ∧ Forall (λ h, main.HazardData.is_active h = Some true)
        (main.NavigationData.hazards data).
Proof.
  assert (∃ data,
            @main.get_navigation_data_nearby flat_PostGIS (λ _, None) small_db
              200%Z 13.0830 80.2705 500 = Ok data
            ∧ length (main.NavigationData.hazards data) = 2%nat)
    as (data & Hdata & Hlength)
    by (eexists; split; vm_compute; reflexivity).
  exists data. split; [exact Hdata |]. split; [exact Hlength |].
  apply (@navigation_aggregate flat_PostGIS (λ _, None) small_db 200%Z 13.0830
           80.2705 500 data Hdata).
Defined.

(** ** Speed-limit import: parsed fields, accounting, repeated runs *)

Section import_speed_limits.

Context `{Python}.
Variable uuid4 uuid4' : nat → UUID.
Variable int_of_digits : string → option Z.




End import_speed_limits.




(** X15 on a file of four ways and a node: each run imports the one way
    that has two vertices and a limit between 1 and 200. *)
Example import_speed_limits_on_a_file :
  let run1 := @import_data.import_speed_limits simple_Python N.of_nat
                ascii_int_of_digits (session_of []) way_elements in
  let run2 := @import_data.import_speed_limits simple_Python
                (λ n, N.of_nat (S n)) ascii_int_of_digits run1.1 way_elements in
  run1.2 = 1%nat
  ∧ RoadSpeedLimit.speed_limit_kmh <$> table run1.1 = [40%Z]
  ∧ RoadSpeedLimit.direction <$> table run1.1 = [Some "forward"]
  ∧ run2.2 = 1%nat
  ∧ RoadSpeedLimit.id <$> table run2.1 = [0%N; 1%N].
Proof. vm_compute. repeat split. Qed.

(** ** Reporting a hazard *)

Lemma create_hazard_detection_Ok uuid4 now rows latitude longitude hazard_type
    severity confidence_score detected_by description expires_at image_url :
  score_accepted confidence_score →
  queries.create_hazard_detection uuid4 now (session_of rows) latitude longitude
    hazard_type severity confidence_score detected_by description expires_at
    image_url
  = let hazard :=
      HazardDetection.insert uuid4 now (ST_MakePoint longitude latitude)
        hazard_type severity (Some confidence_score) detected_by description
        expires_at image_url in
    Ok (session_of (rows ++ [hazard]), hazard).
Proof.
  intros Hcheck. unfold queries.create_hazard_detection.
  rewrite decide_False by exact (score_accepted_no_overflow _ Hcheck).
  rewrite decide_True by exact Hcheck. reflexivity.
Qed.

Lemma create_hazard_detection_Raise uuid4 now db latitude longitude hazard_type
    severity confidence_score detected_by description expires_at image_url :
  ¬ score_accepted confidence_score →
  ∃ e,
    queries.create_hazard_detection uuid4 now db latitude longitude
      hazard_type severity confidence_score detected_by description expires_at
      image_url
    = Raise e.
Proof.
  intros Hcheck. unfold queries.create_hazard_detection.
  destruct (decide (10 <= Qabs (Numeric_3_2 confidence_score)));
    [eauto |].
  rewrite decide_False by exact Hcheck. eauto.
Qed.

(** The row that [create_hazard_detection] writes is one that the table
    takes, when the values of the call are. *)
Lemma insert_hazard_fits uuid4 now latitude longitude hazard_type severity
    confidence_score detected_by description expires_at image_url :
  hazard_values_fit latitude longitude hazard_type severity description
    image_url →
  score_accepted confidence_score →
  hazard_fits
    (HazardDetection.insert uuid4 now (ST_MakePoint longitude latitude)
       hazard_type severity (Some confidence_score) detected_by description
       expires_at image_url).
Proof.
  intros (Htype & Hseverity & Hlat & Hlon & Htext) Hscore.
  unfold hazard_fits, HazardDetection.insert.
  cbn [HazardDetection.hazard_type HazardDetection.severity
       HazardDetection.location HazardDetection.verification_count
       HazardDetection.confidence_score HazardDetection.description
       HazardDetection.image_url default].
  split; [exact Htype |]. split; [exact Hseverity |].
  split; [eexists _, _; split; [reflexivity |]; split; assumption |].
  split; [vm_compute; split; discriminate |].
  split; [| exact Htext].
  split; [exact Hscore | apply Numeric_3_2_idempotent].
Qed.

Lemma Text_fits_app (text1 text2 : string) :
  Text_fits text1 → Text_fits text2 → Text_fits (text1 +:+ text2).
Proof.
  unfold Text_fits. intros H1 H2.
  induction text1 as [| c text1 IH]; simpl; [exact H2 |].
  simpl in H1. apply not_elem_of_cons in H1 as [Hc H1].
  apply not_elem_of_cons. split; [exact Hc | exact (IH H1)].
Qed.

(** With a new identifier, the created row is the only one that the
    identifier selects. *)
Lemma select_created_hazard uuid4 rows h :
  uuid4 ∉ HazardDetection.id <$> rows →
  HazardDetection.id h = uuid4 →
  filter (λ h', HazardDetection.id h' = uuid4) (rows ++ [h]) = [h].
Proof.
  intros Hfresh Hid. rewrite filter_app, filter_none.
  - rewrite filter_cons, decide_True by exact Hid. reflexivity.
  - apply Forall_forall. intros h' Hh' Heq. apply Hfresh.
    apply list_elem_of_fmap. exists h'. split; [symmetry |]; assumption.
Qed.

(** X16.  [create_hazard], on a form whose strings and coordinates the
    table takes (see [hazard_values_fit]) and with an identifier that no
    stored hazard has.  The
    score is rounded to the two decimals of its column.  The endpoint
    stores one hazard and answers with it exactly when the rounded score is
    between 0 and 1 and writing the uploaded image, if there is one, did
    not fail; otherwise it answers 500 and stores nothing.  The hazard
    stored and the answer carry the rounded score; the hazard is active and
    unverified, has no expiry, and names the requesting user as its
    detector. *)
Theorem create_hazard_outcome uuid4 now rows latitude longitude hazard_type
    severity confidence_score description image current_user :
  hazard_values_fit latitude longitude hazard_type severity description
    (written_url image) →
  uuid4 ∉ HazardDetection.id <$> rows →
  let run :=
    main.create_hazard uuid4 now (session_of rows) latitude longitude
      hazard_type severity confidence_score description image current_user in
  let stored_score := Numeric_3_2 confidence_score in
  let accepted :=
    (0 <= stored_score ∧ stored_score <= 1)
    ∧ ∀ e, image ≠ Some (Raise e) in
  (accepted →
   ∃ h image_url,
     run
     = (session_of (rows ++ [h]),
        Ok {| main.HazardResponse.id := uuid4;
              main.HazardResponse.hazard_type := hazard_type;
              main.HazardResponse.severity := severity;
              main.HazardResponse.confidence_score := stored_score;
              main.HazardResponse.detected_at := now;
              main.HazardResponse.image_url := image_url |})
     ∧ hazard_fits h
     ∧ filter (λ h', HazardDetection.id h' = uuid4) (rows ++ [h]) = [h]
     ∧ image = Ok <$> image_url
     ∧ HazardDetection.location h = ST_MakePoint longitude latitude
     ∧ HazardDetection.hazard_type h = hazard_type
     ∧ HazardDetection.severity h = severity
     ∧ HazardDetection.confidence_score h = Some stored_score
     ∧ HazardDetection.detected_by h = Some (User.id current_user)
     ∧ HazardDetection.image_url h = image_url
     ∧ HazardDetection.is_active h = Some true
     ∧ HazardDetection.verified h = Some false
     ∧ HazardDetection.expires_at h = None)
  ∧ (¬ accepted →
     run.1 = session_of rows
     ∧ ∃ detail, run.2 = Raise (HTTPException 500 detail)).
Proof.
  intros Hvalues Hfresh. cbv zeta.
  fold (score_accepted confidence_score).
  unfold main.create_hazard. split.
  - intros [Hcheck Himage].
    assert (∃ image_url : option string, image = Ok <$> image_url)
      as [image_url ->].
    { destruct image as [[image_url | e] |].
      - exists (Some image_url). reflexivity.
      - destruct (Himage e eq_refl).
      - exists None. reflexivity. }
    eexists _, image_url.
    destruct image_url as [image_url |]; simpl;
      rewrite create_hazard_detection_Ok by exact Hcheck; simpl;
      rewrite commit_session_of;
      (split; [reflexivity |];
       split; [apply insert_hazard_fits; [exact Hvalues | exact Hcheck] |];
       split; [apply select_created_hazard; [exact Hfresh | reflexivity] |];
       repeat split).
  - intros Hrefused.
    destruct image as [[image_url | e] |]; simpl.
    + destruct (decide (score_accepted confidence_score)) as [Hcheck | Hcheck].
      { destruct Hrefused. split; [exact Hcheck | discriminate]. }
      destruct (create_hazard_detection_Raise uuid4 now (session_of rows)
                  latitude longitude hazard_type severity confidence_score
                  (Some (User.id current_user)) description None
                  (Some image_url) Hcheck) as [e ->].
      simpl. eauto.
    + eauto.
    + destruct (decide (score_accepted confidence_score)) as [Hcheck | Hcheck].
      { destruct Hrefused. split; [exact Hcheck | discriminate]. }
      destruct (create_hazard_detection_Raise uuid4 now (session_of rows)
                  latitude longitude hazard_type severity confidence_score
                  (Some (User.id current_user)) description None None Hcheck)
        as [e ->].
      simpl. eauto.
Qed.

(** X16 on the small store: a pothole reported with a score of 1.004 is
    stored and answered with a score of 1.00; with a score of 1.006, which
    rounds to 1.01, nothing is stored. *)
Lemma create_hazard_outcome_witness :
  let rows := hazard_detections small_db in
  let run confidence_score :=
    main.create_hazard 14%N 1000%Z (session_of rows) 13.0830 80.2705
      "pothole" "medium" confidence_score None None user_7 in
  hazard_values_fit 13.0830 80.2705 "pothole" "medium" None None
  ∧ (14%N ∉ HazardDetection.id <$> rows)
  ∧ (∃ h,
       run 1.004
       = (session_of (rows ++ [h]),
          Ok {| main.HazardResponse.id := 14%N;
                main.HazardResponse.hazard_type := "pothole";
                main.HazardResponse.severity := "medium";
                main.HazardResponse.confidence_score := 1.00;
                main.HazardResponse.detected_at := 1000%Z;
                main.HazardResponse.image_url := None |})
       ∧ hazard_fits h
       ∧ HazardDetection.confidence_score h = Some 1.00)
  ∧ (run 1.006).1 = session_of rows.
Proof.
  intros rows run.
  assert (14%N ∉ HazardDetection.id <$> rows) as Hfresh
    by (apply (bool_decide_unpack _); vm_compute; exact I).
  assert (hazard_values_fit 13.0830 80.2705 "pothole" "medium" None None)
    as Hvalues by (unfold hazard_values_fit; fits_by_computation).
  split; [exact Hvalues |]. split; [exact Hfresh |]. split.
  - destruct (create_hazard_outcome 14%N 1000%Z rows 13.0830 80.2705
                "pothole" "medium" 1.004 None None user_7)
      as [Haccepted _]; [exact Hvalues | exact Hfresh |].
    destruct Haccepted
      as (h & image_url & Hrun & Hfits & _ & Himage & _ & _ & _ & Hscore & _).
    { split; [split; discriminate | discriminate]. }
    destruct image_url; [discriminate Himage |].
    exists h. split; [exact Hrun |]. split; [exact Hfits | exact Hscore].
  - reflexivity.
Defined.

(** X17.  A hazard reported through [create_hazard] does not expire.  The
    form is one that the table takes: its strings and coordinates fit (see
    [hazard_values_fit]) and its score, rounded to two decimals, is between
    0 and 1.  Then at every
    later time, with or without [active_only], the nearby query at the
    hazard's point (with a radius that PostGIS accepts for that point, no
    minimum confidence and a limit above the number of stored hazards)
    returns it. *)
Theorem created_hazard_stays_active `{PostGIS} db uuid4 now rows latitude
    longitude hazard_type severity confidence_score description image_url
    current_user radius_meters min_confidence limit :
  let point := ST_MakePoint longitude latitude in
  let created :=
    table (main.create_hazard uuid4 now (session_of rows) latitude longitude
             hazard_type severity confidence_score description
             (Ok <$> image_url) current_user).1 in
  hazard_values_fit latitude longitude hazard_type severity description
    image_url →
  score_accepted confidence_score →
  ST_DWithin point point radius_meters →
  min_confidence <= 0 →
  (Z.of_nat (length rows) < limit)%Z →
  ∀ later active_only,
    ∃ hazards h,
      created = rows ++ [h]
      ∧ hazard_fits h
      ∧ queries.get_nearby_hazards (with_hazard_detections db created) later
          latitude longitude radius_meters min_confidence active_only limit
        = Ok hazards
      ∧ h ∈ hazards
      ∧ HazardDetection.id h = uuid4
      ∧ HazardDetection.detected_at h = now.
Proof.
  intros point created Hvalues Hcheck Hself Hmin Hlimit later active_only.
  assert (created
          = rows ++ [HazardDetection.insert uuid4 now point hazard_type severity
                       (Some confidence_score) (Some (User.id current_user))
                       description None image_url]) as ->.
  { subst created. unfold main.create_hazard.
    destruct image_url as [image_url |]; simpl;
      rewrite create_hazard_detection_Ok by exact Hcheck; simpl;
      rewrite ?app_nil_r; reflexivity. }
  assert (hazard_fits
            (HazardDetection.insert uuid4 now point hazard_type severity
               (Some confidence_score) (Some (User.id current_user))
               description None image_url)) as Hfits
    by (apply insert_hazard_fits; assumption).
  set (h := HazardDetection.insert _ _ _ _ _ _ _ _ _ _) in *.
  destruct (proj1 (get_nearby_hazards_returns
                     (with_hazard_detections db (rows ++ [h])) later latitude
                     longitude radius_meters min_confidence active_only limit))
    as [hazards Hhazards]; [lia |].
  exists hazards, h. split; [reflexivity |]. split; [exact Hfits |].
  split; [exact Hhazards |].
  split; [| split; reflexivity].
  rewrite get_nearby_hazards_as_filter in Hhazards.
  eapply order_by_distance_limit_all; [exact Hhazards | |].
  - etransitivity; [apply inj_le, length_filter |].
    change (hazard_detections (with_hazard_detections db (rows ++ [h])))
      with (rows ++ [h]).
    rewrite length_app. simpl. lia.
  - apply list_elem_of_filter. split.
    + split; [exact Hself |].
      split; [intros Hpositive;
              destruct (Qlt_not_le _ _ Hpositive Hmin) |].
      intros _. split; [reflexivity | left; reflexivity].
    + simpl. apply elem_of_app. right. left.
Qed.

(** X17 on the small store: a pothole reported at time 1000 is returned at
    time 1000000. *)
Lemma created_hazard_stays_active_witness :
  let created :=
    table (main.create_hazard 14%N 1000%Z
             (session_of (hazard_detections small_db)) 13.0830 80.2705
             "pothole" "medium" 0.50 None (Ok <$> None) user_7).1 in
  length created = 4%nat
  ∧ hazard_values_fit 13.0830 80.2705 "pothole" "medium" None None
  ∧ score_accepted 0.50
  ∧ ∃ hazards h,
      created = hazard_detections small_db ++ [h]
      ∧ hazard_fits h
      ∧ @queries.get_nearby_hazards flat_PostGIS
          (with_hazard_detections small_db created) 1000000%Z 13.0830 80.2705
          500 0 true 50 = Ok hazards
      ∧ h ∈ hazards
      ∧ HazardDetection.id h = 14%N
      ∧ HazardDetection.detected_at h = 1000%Z.
Proof.
  assert (score_accepted 0.50) as Hscore by (split; discriminate).
  assert (hazard_values_fit 13.0830 80.2705 "pothole" "medium" None None)
    as Hvalues by (unfold hazard_values_fit; fits_by_computation).
  split; [reflexivity |]. split; [exact Hvalues |]. split; [exact Hscore |].
  apply (@created_hazard_stays_active flat_PostGIS small_db 14%N 1000%Z
           (hazard_detections small_db) 13.0830 80.2705 "pothole" "medium" 0.50
           None None user_7 500 0 50).
  - exact Hvalues.
  - exact Hscore.
  - apply (bool_decide_unpack _). vm_compute. exact I.
  - discriminate.
  - simpl. lia.
Defined.

(** ** Detecting a hazard on a photo *)

Lemma head_insert_reverse {A} (key : A → Q) x sorted :
  head (insert_reverse key x sorted)
  = Some match head sorted with
         | Some y => if decide (key x < key y) then y else x
         | None => x
         end.
Proof.
  destruct sorted as [| y rest]; simpl; [reflexivity |].
  destruct (decide (key x < key y)); reflexivity.
Qed.

(** [sorted(items, key=key, reverse=True)[0]] is the first of the items
    with the largest key. *)
Lemma head_sorted_reverse {A} (key : A → Q) first items :
  ∃ primary before after,
    head (sorted_reverse key (first :: items)) = Some primary
    ∧ first :: items = before ++ primary :: after
    ∧ Forall (λ d, key d < key primary) before
    ∧ Forall (λ d, key d <= key primary) after.
Proof.
  revert first. induction items as [| x items IH]; intros first.
  - exists first, [], []. repeat split; constructor.
  - destruct (IH x) as (p & before & after & Hhead & Hitems & Hbefore & Hafter).
    change (sorted_reverse key (first :: x :: items))
      with (insert_reverse key first (sorted_reverse key (x :: items))).
    rewrite head_insert_reverse, Hhead.
    destruct (decide (key first < key p)) as [Hlt | Hge].
    + exists p, (first :: before), after. split; [reflexivity |].
      split; [rewrite Hitems; reflexivity |].
      split; [constructor; assumption | exact Hafter].
    + apply Qnot_lt_le in Hge.
      exists first, [], (x :: items). split; [reflexivity |].
      split; [reflexivity |]. split; [constructor |].
      rewrite Hitems. apply Forall_app. split; [| constructor].
      * eapply Forall_impl; [exact Hbefore |]. intros d Hd. simpl in Hd.
        apply Qlt_le_weak. eapply Qlt_le_trans; eassumption.
      * exact Hge.
      * eapply Forall_impl; [exact Hafter |]. intros d Hd. simpl in Hd.
        eapply Qle_trans; eassumption.
Qed.

(** X18.  When the model detects damage, [detect_and_save_hazard] stores one
    hazard, for the first of the detections with the highest confidence.
    The coordinates of the form are those of a point of the globe, the
    names of the detected types fit their column, the name of the file is
    text, and the identifier drawn for the hazard is new.  The hazard has the type of
    that detection and its confidence rounded to the two decimals of the
    column, the severity high when the confidence (as detected) is above
    0.7 and medium otherwise, and is active without expiry; the answer
    carries the confidence as detected.  When the rounded confidence is
    outside [0, 1], the answer is 500 and nothing is stored. *)
Theorem detect_and_save_stores_the_primary_damage uuid4 now file_name rows
    latitude longitude first others current_user :
  let detected_damages := first :: others in
  let run :=
    main.detect_and_save_hazard uuid4 now file_name (session_of rows) latitude
      longitude (Ok detected_damages) current_user in
  -90 <= latitude ∧ latitude <= 90 →
  -180 <= longitude ∧ longitude <= 180 →
  Forall (λ d, (String.length (main.DetectedDamage.type d) ≤ 50)%nat
               ∧ Text_fits (main.DetectedDamage.type d))
    detected_damages →
  Text_fits file_name →
  uuid4 ∉ HazardDetection.id <$> rows →
  ∃ primary before after,
    detected_damages = before ++ primary :: after
    ∧ Forall (λ d, main.DetectedDamage.confidence d
                   < main.DetectedDamage.confidence primary) before
    ∧ Forall (λ d, main.DetectedDamage.confidence d
                   <= main.DetectedDamage.confidence primary) after
    ∧ let stored_score :=
        Numeric_3_2 (main.DetectedDamage.confidence primary) in
      if decide (0 <= stored_score ∧ stored_score <= 1)
      then
        ∃ h,
          run
          = (session_of (rows ++ [h]),
             Ok (main.damage_detected (main.DetectedDamage.type primary)
                   (main.DetectedDamage.confidence primary)
                   ("/static/hazards/" +:+ file_name)))
          ∧ hazard_fits h
          ∧ filter (λ h', HazardDetection.id h' = uuid4) (rows ++ [h]) = [h]
          ∧ HazardDetection.hazard_type h = main.DetectedDamage.type primary
          ∧ HazardDetection.confidence_score h = Some stored_score
          ∧ HazardDetection.severity h
            = (if decide (0.7 < main.DetectedDamage.confidence primary)
               then "high" else "medium")
          ∧ HazardDetection.location h = ST_MakePoint longitude latitude
          ∧ HazardDetection.detected_by h = Some (User.id current_user)
          ∧ HazardDetection.is_active h = Some true
          ∧ HazardDetection.expires_at h = None
      else
        run.1 = session_of rows
        ∧ ∃ detail, run.2 = Raise (HTTPException 500 detail).
Proof.
  cbv zeta. intros Hlat Hlon Htypes Hfile Hfresh.
  destruct (head_sorted_reverse main.DetectedDamage.confidence first others)
    as (primary & before & after & Hhead & Hitems & Hbefore & Hafter).
  exists primary, before, after.
  split; [exact Hitems |]. split; [exact Hbefore |]. split; [exact Hafter |].
  assert ((String.length (main.DetectedDamage.type primary) ≤ 50)%nat
          ∧ Text_fits (main.DetectedDamage.type primary)) as [Htype Htext].
  { rewrite Hitems in Htypes. apply Forall_app in Htypes as [_ Htypes].
    inversion Htypes; assumption. }
  unfold main.detect_and_save_hazard. cbv beta iota zeta.
  rewrite Hhead. simpl default.
  fold (score_accepted (main.DetectedDamage.confidence primary)).
  destruct (decide (score_accepted (main.DetectedDamage.confidence primary)))
    as [Hcheck | Hcheck].
  - rewrite create_hazard_detection_Ok by exact Hcheck. simpl.
    rewrite commit_session_of.
    eexists. split; [reflexivity |].
    split.
    { apply insert_hazard_fits; [| exact Hcheck].
      split; [exact Htype |].
      split; [destruct (decide _); simpl; lia |].
      split; [exact Hlat |]. split; [exact Hlon |]. split; [exact Htext |].
      split; [destruct (decide _); apply (bool_decide_unpack _);
              vm_compute; exact I |].
      split.
      - apply Text_fits_app; [| apply Text_fits_app; [exact Htext |]];
          apply (bool_decide_unpack _); vm_compute; exact I.
      - apply Text_fits_app; [| exact Hfile].
        apply (bool_decide_unpack _). vm_compute. exact I. }
    split; [apply select_created_hazard; [exact Hfresh | reflexivity] |].
    repeat split.
  - destruct (create_hazard_detection_Raise uuid4 now (session_of rows)
                latitude longitude (main.DetectedDamage.type primary)
                (if decide (0.7 < main.DetectedDamage.confidence primary)
                 then "high" else "medium")
                (main.DetectedDamage.confidence primary)
                (Some (User.id current_user))
                (Some ("Auto-detected " +:+ main.DetectedDamage.type primary
                       +:+ " via photo upload."))
                None (Some ("/static/hazards/" +:+ file_name)) Hcheck)
      as [e ->].
    simpl. eauto.
Qed.

(** X18 on three detections, two of them with the highest confidence: the
    first of the two is stored, with severity high. *)
Example detect_and_save_on_three_detections :
  let damage type confidence :=
    {| main.DetectedDamage.type := type;
       main.DetectedDamage.confidence := confidence |} in
  let run :=
    main.detect_and_save_hazard 14%N 1000%Z "photo.jpg" (session_of []) 13.0830
      80.2705
      (Ok [damage "crack" 0.40; damage "pothole" 0.90; damage "rut" 0.90])
      user_7 in
  run.2 = Ok (main.damage_detected "pothole" 0.90 "/static/hazards/photo.jpg")
  ∧ HazardDetection.severity <$> table run.1 = ["high"]
  ∧ (main.detect_and_save_hazard 14%N 1000%Z "photo.jpg" (session_of []) 13.0830
       80.2705 (Ok []) user_7).1 = session_of [].
Proof. vm_compute. repeat split. Qed.

(** X18 on the small store, for a photo with two detections: the pothole,
    detected with a confidence of 0.876, is stored with a score of 0.88 and
    answered with 0.876. *)
Lemma detect_and_save_stores_the_primary_damage_witness :
  let damage type confidence :=
    {| main.DetectedDamage.type := type;
       main.DetectedDamage.confidence := confidence |} in
  let rows := hazard_detections small_db in
  let run :=
    main.detect_and_save_hazard 14%N 1000%Z "photo.jpg" (session_of rows)
      13.0830 80.2705 (Ok [damage "crack" 0.40; damage "pothole" 0.876])
      user_7 in
  (14%N ∉ HazardDetection.id <$> rows)
  ∧ ∃ primary before after,
      [damage "crack" 0.40; damage "pothole" 0.876]
      = before ++ primary :: after
      ∧ primary = damage "pothole" 0.876
      ∧ ∃ h,
          run
          = (session_of (rows ++ [h]),
             Ok (main.damage_detected "pothole" 0.876
                   "/static/hazards/photo.jpg"))
          ∧ hazard_fits h
          ∧ HazardDetection.confidence_score h = Some 0.88
          ∧ HazardDetection.severity h = "high".
Proof.
  intros damage rows run.
  assert (14%N ∉ HazardDetection.id <$> rows) as Hfresh
    by (apply (bool_decide_unpack _); vm_compute; exact I).
  split; [exact Hfresh |].
  destruct (detect_and_save_stores_the_primary_damage 14%N 1000%Z "photo.jpg"
              rows 13.0830 80.2705 (damage "crack" 0.40)
              [damage "pothole" 0.876] user_7)
    as (primary & before & after & Hitems & Hbefore & Hafter & Hrun);
    [split; discriminate | split; discriminate
    | repeat constructor; first [ simpl; lia
                                | apply (bool_decide_unpack _); vm_compute;
                                  exact I ]
    | apply (bool_decide_unpack _); vm_compute; exact I
    | exact Hfresh |].
  assert (primary = damage "pothole" 0.876) as ->.
  { destruct before as [| d1 [| d2 before]]; simpl in Hitems.
    - injection Hitems as <- <-. inversion Hafter as [| d l Hle _].
      destruct Hle. reflexivity.
    - injection Hitems as _ <- _. reflexivity.
    - injection Hitems as _ _ Hrest.
      destruct before; discriminate Hrest. }
  exists (damage "pothole" 0.876), before, after.
  split; [exact Hitems |]. split; [reflexivity |].
  cbv zeta in Hrun.
  destruct (decide _) as [_ | Hrefused] in Hrun.
  - destruct Hrun as (h & Hrun & Hfits & _ & _ & Hscore & Hseverity & _).
    exists h. split; [exact Hrun |]. split; [exact Hfits |].
    split; [exact Hscore | exact Hseverity].
  - destruct Hrefused. split; discriminate.
Defined.

(** ** When the navigation endpoint answers, and where it puts a hazard *)

Lemma for_each_returns {E A B} (f : A → Exc E B) (l : list A) :
  Forall (λ x, ∃ y, f x = Ok y) l → ∃ l', for_each f l = Ok l'.
Proof.
  induction 1 as [| x l [y Hy] _ [l' Hl']]; simpl.
  - eexists. reflexivity.
  - rewrite Hy, Hl'. eexists. reflexivity.
Qed.

Lemma for_each_scored {A B} (score : A → option Q) (entry : A → Q → B)
    (l : list A) :
  (∃ l', for_each (λ x, confidence_score ← float (score x);
                        mret (entry x confidence_score)) l = Ok l')
  ↔ Forall (λ x, is_Some (score x)) l.
Proof.
  split.
  - intros [l' Hl']. apply for_each_Ok in Hl'.
    induction Hl' as [| x y l l' Hy _ IH]; constructor; [| exact IH].
    destruct (score x); [eauto | discriminate].
  - intros Hl. apply for_each_returns.
    eapply Forall_impl; [exact Hl |].
    intros x [q ->]. eexists. reflexivity.
Qed.

Lemma for_each_coords (l : list HazardDetection.t) :
  Forall (λ h, ∃ x y, HazardDetection.location h = POINT x y) l →
  ∃ rows,
    for_each (λ h, lat ← ST_Y (HazardDetection.location h);
                   lon ← ST_X (HazardDetection.location h);
                   mret (HazardDetection.id h, (lat, lon))) l
    = Ok rows.
Proof.
  intros Hl. apply for_each_returns.
  eapply Forall_impl; [exact Hl |].
  intros h (x & y & ->). eexists. reflexivity.
Qed.

Lemma Ok_bind {E A B} (a : A) (k : A → Exc E B) : Ok a ≫= k = k a.
Proof. reflexivity. Qed.

(** X19.  When the database fails no statement and every stored hazard is
    a point, [get_navigation_data_nearby] answers exactly when no row that
    its four queries return has a NULL confidence score: one such row
    among the nearest 50 of a kind turns the whole answer into a 500. *)
Theorem navigation_answers_iff_scored `{PostGIS} db now latitude longitude
    radius_meters :
  Forall (λ h, ∃ x y, HazardDetection.location h = POINT x y)
    (hazard_detections db) →
  ∃ cameras speed_limits hazards hazardous_roads,
    queries.get_nearby_speed_cameras db latitude longitude radius_meters 0.0
      false 50 = Ok cameras
    ∧ queries.get_nearby_speed_limits db latitude longitude radius_meters 0.0
        false 50 = Ok speed_limits
    ∧ queries.get_nearby_hazards db now latitude longitude radius_meters 0.0
        true 50 = Ok hazards
    ∧ queries.get_nearby_hazardous_roads db latitude longitude radius_meters
        0.0 50 = Ok hazardous_roads
    ∧ ((∃ data,
          main.get_navigation_data_nearby (λ _, None) db now latitude longitude
            radius_meters = Ok data)
       ↔ (Forall (λ c, is_Some (SpeedCamera.confidence_score c)) cameras
          ∧ Forall (λ s, is_Some (RoadSpeedLimit.confidence_score s))
              speed_limits
          ∧ Forall (λ h, is_Some (HazardDetection.confidence_score h)) hazards
          ∧ Forall (λ r, is_Some (HazardousRoadSegment.confidence_score r))
              hazardous_roads))
    ∧ ((∀ data,
          main.get_navigation_data_nearby (λ _, None) db now latitude longitude
            radius_meters ≠ Ok data)
       → ∃ detail,
           main.get_navigation_data_nearby (λ _, None) db now latitude
             longitude radius_meters = Raise (HTTPException 500 detail)).
Proof.
  intros Hpoints.
  destruct (proj1 (get_nearby_speed_cameras_returns db latitude longitude
                     radius_meters 0.0 false 50)) as [cameras Hcameras];
    [lia |].
  assert (∃ speed_limits,
            queries.get_nearby_speed_limits db latitude longitude radius_meters
              0.0 false 50 = Ok speed_limits) as [speed_limits Hspeed_limits].
  { eexists. apply order_by_distance_limit_Ok. lia. }
  destruct (proj1 (get_nearby_hazards_returns db now latitude longitude
                     radius_meters 0.0 true 50)) as [hazards Hhazards];
    [lia |].
  assert (∃ hazardous_roads,
            queries.get_nearby_hazardous_roads db latitude longitude
              radius_meters 0.0 50 = Ok hazardous_roads)
    as [hazardous_roads Hroads].
  { eexists. apply order_by_distance_limit_Ok. lia. }
  exists cameras, speed_limits, hazards, hazardous_roads.
  split; [exact Hcameras |]. split; [exact Hspeed_limits |].
  split; [exact Hhazards |]. split; [exact Hroads |].
  unfold main.get_navigation_data_nearby, main.execute. cbv beta iota zeta.
  rewrite Hcameras, Hspeed_limits, Hhazards, Hroads.
  rewrite !Ok_bind.
  pose proof (for_each_scored SpeedCamera.confidence_score
                (λ camera confidence_score,
                   {| main.CameraData.id := SpeedCamera.id camera;
                      main.CameraData.speed_limit_kmh :=
                        SpeedCamera.speed_limit_kmh camera;
                      main.CameraData.camera_type := SpeedCamera.camera_type camera;
                      main.CameraData.direction_degrees :=
                        SpeedCamera.direction_degrees camera;
                      main.CameraData.verified := SpeedCamera.verified camera;
                      main.CameraData.confidence_score := confidence_score |})
                cameras) as Hcameras_data.
  pose proof (for_each_scored RoadSpeedLimit.confidence_score
                (λ speed_limit confidence_score,
                   {| main.SpeedLimitData.id := RoadSpeedLimit.id speed_limit;
                      main.SpeedLimitData.speed_limit_kmh :=
                        RoadSpeedLimit.speed_limit_kmh speed_limit;
                      main.SpeedLimitData.road_name :=
                        RoadSpeedLimit.road_name speed_limit;
                      main.SpeedLimitData.road_type :=
                        RoadSpeedLimit.road_type speed_limit;
                      main.SpeedLimitData.verified :=
                        RoadSpeedLimit.verified speed_limit;
                      main.SpeedLimitData.confidence_score := confidence_score |})
                speed_limits) as Hspeed_limits_data.
  pose proof (for_each_scored HazardousRoadSegment.confidence_score
                (λ road confidence_score,
                   {| main.RoadData.id := HazardousRoadSegment.id road;
                      main.RoadData.hazard_type :=
                        HazardousRoadSegment.hazard_type road;
                      main.RoadData.severity := HazardousRoadSegment.severity road;
                      main.RoadData.road_name := HazardousRoadSegment.road_name road;
                      main.RoadData.confidence_score := confidence_score;
                      main.RoadData.geojson :=
                        ST_AsGeoJSON (HazardousRoadSegment.road_segment road) |})
                hazardous_roads) as Hroads_data.
  assert (∃ hazard_coords : gmap UUID (Q * Q),
            match HazardDetection.id <$> hazards with
            | [] => mret (∅ : gmap UUID (Q * Q))
            | _ =>
                rows ←
                  for_each
                    (λ h, lat ← ST_Y (HazardDetection.location h);
                          lon ← ST_X (HazardDetection.location h);
                          mret (HazardDetection.id h, (lat, lon)))
                    (filter (λ h, HazardDetection.id h
                                  ∈ HazardDetection.id <$> hazards)
                       (hazard_detections db));
                mret (foldl (λ coords row, <[ row.1 := row.2 ]> coords) ∅ rows)
            end = Ok hazard_coords) as [hazard_coords Hcoords].
  { destruct (HazardDetection.id <$> hazards) as [| id ids];
      [eexists; reflexivity |].
    destruct (for_each_coords
                (filter (λ h, HazardDetection.id h ∈ id :: ids)
                   (hazard_detections db))) as [rows ->].
    - apply Forall_forall. intros h [_ Hh]%list_elem_of_filter.
      exact (proj1 (Forall_forall _ _) Hpoints h Hh).
    - eexists. reflexivity. }
  rewrite Hcoords.
  pose proof (for_each_scored HazardDetection.confidence_score
                (λ hazard confidence_score,
                   {| main.HazardData.id := HazardDetection.id hazard;
                      main.HazardData.hazard_type :=
                        HazardDetection.hazard_type hazard;
                      main.HazardData.severity := HazardDetection.severity hazard;
                      main.HazardData.confidence_score := confidence_score;
                      main.HazardData.is_active := HazardDetection.is_active hazard;
                      main.HazardData.detected_at :=
                        HazardDetection.detected_at hazard;
                      main.HazardData.image_url := HazardDetection.image_url hazard;
                      main.HazardData.latitude :=
                        fst <$> hazard_coords !! HazardDetection.id hazard;
                      main.HazardData.longitude :=
                        snd <$> hazard_coords !! HazardDetection.id hazard;
                      main.HazardData.description :=
                        HazardDetection.description hazard |})
                hazards) as Hhazards_data.
  cbv beta in Hcameras_data, Hspeed_limits_data, Hhazards_data, Hroads_data.
  split; [split |].
  - intros [data Hdata].
    match type of Hdata with
    | try_except ?m _ = _ => destruct m as [data' |] eqn:Hbody; [| discriminate]
    end.
    apply bind_Ok in Hbody as (cameras_data & Hcd & Hbody).
    apply bind_Ok in Hbody as (speed_limits_data & Hsd & Hbody).
    rewrite Ok_bind in Hbody.
    apply bind_Ok in Hbody as (hazards_data & Hhd & Hbody).
    apply bind_Ok in Hbody as (roads_data & Hrd & Hbody).
    split; [apply Hcameras_data; eauto |].
    split; [apply Hspeed_limits_data; eauto |].
    split; [apply Hhazards_data; eauto |].
    apply Hroads_data. eauto.
  - intros (Hc & Hs & Hh & Hr).
    apply Hcameras_data in Hc as [cameras_data Hcd].
    apply Hspeed_limits_data in Hs as [speed_limits_data Hsd].
    apply Hhazards_data in Hh as [hazards_data Hhd].
    apply Hroads_data in Hr as [roads_data Hrd].
    rewrite Hcd, Ok_bind. cbv beta. rewrite Hsd, Ok_bind. cbv beta.
    rewrite Ok_bind. cbv beta. rewrite Hhd, Ok_bind. cbv beta.
    match goal with
    | |- context [for_each ?f hazardous_roads] =>
        assert (for_each f hazardous_roads = Ok roads_data) as -> by exact Hrd
    end.
    eexists. reflexivity.
  - intros Hfails.
    match goal with
    | |- ∃ detail, try_except ?m _ = _ =>
        destruct m as [data |] eqn:Hbody
    end.
    + destruct (Hfails data). reflexivity.
    + simpl. eauto.
Qed.

(** X19 on the small store, where every row has a score. *)
Lemma navigation_answers_iff_scored_witness :
  ∃ cameras speed_limits hazards hazardous_roads,
    @queries.get_nearby_speed_cameras flat_PostGIS small_db 13.0830 80.2705 500
      0.0 false 50 = Ok cameras
    ∧ @queries.get_nearby_speed_limits flat_PostGIS small_db 13.0830 80.2705 500
        0.0 false 50 = Ok speed_limits
    ∧ @queries.get_nearby_hazards flat_PostGIS small_db 200%Z 13.0830 80.2705
        500 0.0 true 50 = Ok hazards
    ∧ @queries.get_nearby_hazardous_roads flat_PostGIS small_db 13.0830 80.2705
        500 0.0 50 = Ok hazardous_roads
    ∧ ((∃ data,
          @main.get_navigation_data_nearby flat_PostGIS (λ _, None) small_db
            200%Z 13.0830 80.2705 500 = Ok data)
       ↔ (Forall (λ c, is_Some (SpeedCamera.confidence_score c)) cameras
          ∧ Forall (λ s, is_Some (RoadSpeedLimit.confidence_score s))
              speed_limits
          ∧ Forall (λ h, is_Some (HazardDetection.confidence_score h)) hazards
          ∧ Forall (λ r, is_Some (HazardousRoadSegment.confidence_score r))
              hazardous_roads))
    ∧ ((∀ data,
          @main.get_navigation_data_nearby flat_PostGIS (λ _, None) small_db
            200%Z 13.0830 80.2705 500 ≠ Ok data)
       → ∃ detail,
           @main.get_navigation_data_nearby flat_PostGIS (λ _, None) small_db
             200%Z 13.0830 80.2705 500 = Raise (HTTPException 500 detail)).
Proof.
  apply (@navigation_answers_iff_scored flat_PostGIS small_db 200%Z 13.0830
           80.2705 500).
  repeat constructor; eexists _, _; reflexivity.
Defined.

(** One camera without a score within the radius, and the endpoint answers
    500 although all four queries succeed. *)
Example navigation_fails_on_a_missing_score :
  let unscored :=
    {| SpeedCamera.id := 5%N;
       SpeedCamera.location := ST_MakePoint 80.2705 13.0830;
       SpeedCamera.speed_limit_kmh := 60;
       SpeedCamera.camera_type := "fixed";
       SpeedCamera.direction_degrees := None;
       SpeedCamera.verified := Some false;
       SpeedCamera.verification_count := Some 0%Z;
       SpeedCamera.confidence_score := None;
       SpeedCamera.reported_by := None;
       SpeedCamera.notes := None |} in
  @main.get_navigation_data_nearby flat_PostGIS (λ _, None)
    (with_speed_cameras small_db [camera_a; unscored]) 200%Z 13.0830 80.2705 500
  = Raise (HTTPException 500
             "Error fetching navigation data: float() argument must be a string or a real number, not 'NoneType'").
Proof. vm_compute. reflexivity. Qed.

Lemma foldl_insert_fresh {K V} `{Countable K} (rows : list (K * V))
    (coords : gmap K V) k :
  k ∉ rows.*1 →
  foldl (λ coords row, <[ row.1 := row.2 ]> coords) coords rows !! k
  = coords !! k.
Proof.
  revert coords. induction rows as [| [k' v'] rows IH]; intros coords Hk;
    [reflexivity |].
  simpl in *. apply not_elem_of_cons in Hk as [Hk' Hk].
  rewrite IH by exact Hk. apply lookup_insert_ne. congruence.
Qed.

(** A dictionary filled from rows with distinct keys holds each row. *)
Lemma foldl_insert_lookup {K V} `{Countable K} (rows : list (K * V))
    (coords : gmap K V) k v :
  NoDup rows.*1 → (k, v) ∈ rows →
  foldl (λ coords row, <[ row.1 := row.2 ]> coords) coords rows !! k = Some v.
Proof.
  revert coords. induction rows as [| [k' v'] rows IH]; intros coords Hkeys Hkv.
  - inversion Hkv.
  - simpl in *. apply NoDup_cons in Hkeys as [Hk' Hkeys].
    apply elem_of_cons in Hkv as [[= <- <-] | Hkv].
    + rewrite foldl_insert_fresh by exact Hk'. apply lookup_insert_eq.
    + apply IH; assumption.
Qed.

(** The rows of a coordinates query. *)
Lemma coords_rows {A} (id : A → UUID) (location : A → Geography)
    (selected : list A) rows :
  for_each (λ r, lat ← ST_Y (location r);
                 lon ← ST_X (location r);
                 mret (id r, (lat, lon))) selected
  = Ok rows →
  rows.*1 = id <$> selected
  ∧ ∀ r, r ∈ selected →
      ∃ x y, location r = POINT x y ∧ (id r, (y, x)) ∈ rows.
Proof.
  intros Hrows. apply for_each_Ok in Hrows.
  induction Hrows as [| r row selected rows Hrow _ [IHkeys IHrows]].
  - split; [reflexivity |]. intros r Hr. inversion Hr.
  - destruct (location r) as [x y |] eqn:Hlocation; [| discriminate].
    injection Hrow as <-. split.
    + rewrite !fmap_cons, IHkeys. reflexivity.
    + intros r' [-> | Hr']%elem_of_cons.
      * exists x, y. split; [exact Hlocation | left].
      * destruct (IHrows r' Hr') as (x' & y' & Hlocation' & Hrow').
        exists x', y'. split; [exact Hlocation' | right; exact Hrow'].
Qed.

(** The dictionary filled from the rows of a coordinates query holds, for
    every selected row of a table with distinct identifiers, the
    coordinates of that row. *)
Lemma coords_dict_lookup {A} (id : A → UUID) (location : A → Geography)
    (table : list A) (ids : list UUID) rows r :
  NoDup (id <$> table) →
  for_each (λ r, lat ← ST_Y (location r);
                 lon ← ST_X (location r);
                 mret (id r, (lat, lon)))
    (filter (λ r, id r ∈ ids) table)
  = Ok rows →
  r ∈ table → id r ∈ ids →
  ∃ x y,
    location r = POINT x y
    ∧ foldl (λ coords row, <[ row.1 := row.2 ]> coords) (∅ : gmap UUID (Q * Q))
        rows !! id r
      = Some (y, x).
Proof.
  intros Hkeys Hrows Hr Hid.
  apply coords_rows in Hrows as [Hrows_keys Hrows].
  destruct (Hrows r) as (x & y & Hlocation & Hrow).
  { apply list_elem_of_filter. split; assumption. }
  exists x, y. split; [exact Hlocation |].
  apply foldl_insert_lookup; [| exact Hrow].
  rewrite Hrows_keys.
  eapply sublist_NoDup; [exact Hkeys | apply fmap_sublist, sublist_filter].
Qed.

(** X20.  In the aggregate that [get_navigation_data_nearby] returns, the
    hazards are those of the nearby query, in its order, each with the
    latitude and the longitude of its own stored point and with its own
    score, given that the identifiers of the stored hazards are distinct. *)
Theorem navigation_places_hazards `{PostGIS} fails db now latitude longitude
    radius_meters hazards data :
  NoDup (HazardDetection.id <$> hazard_detections db) →
  queries.get_nearby_hazards db now latitude longitude radius_meters 0.0 true
    50 = Ok hazards →
  main.get_navigation_data_nearby fails db now latitude longitude radius_meters
  = Ok data →
  Forall2
    (λ h d,
       main.HazardData.id d = HazardDetection.id h
       ∧ HazardDetection.confidence_score h
         = Some (main.HazardData.confidence_score d)
       ∧ ∃ x y,
           HazardDetection.location h = POINT x y
           ∧ main.HazardData.latitude d = Some y
           ∧ main.HazardData.longitude d = Some x)
    hazards (main.NavigationData.hazards data).
Proof.
  unfold main.get_navigation_data_nearby. intros Hkeys Hhazards Hdata.
  match type of Hdata with
  | try_except ?m _ = _ => destruct m as [data' |] eqn:Hbody; [| discriminate]
  end.
  injection Hdata as ->.
  apply bind_Ok in Hbody as (cameras & _ & Hbody).
  apply bind_Ok in Hbody as (speed_limits & _ & Hbody).
  apply bind_Ok in Hbody as (hazards' & Hhazards' & Hbody).
  apply bind_Ok in Hbody as (hazardous_roads & _ & Hbody).
  apply bind_Ok in Hbody as (cameras_data & _ & Hbody).
  apply bind_Ok in Hbody as (speed_limits_data & _ & Hbody).
  cbv zeta in Hbody.
  apply bind_Ok in Hbody as (hazard_coords & Hcoords & Hbody).
  apply bind_Ok in Hbody as (hazards_data & Hhazards_data & Hbody).
  apply bind_Ok in Hbody as (roads_data & _ & Hbody).
  injection Hbody as <-. simpl.
  pose proof (execute_Ok _ _ _ _ Hhazards') as Hok.
  unfold main.execute in Hhazards'. rewrite Hok, Hhazards in Hhazards'.
  injection Hhazards' as <-.
  assert (∀ h, h ∈ hazards →
               ∃ x y, HazardDetection.location h = POINT x y
                      ∧ hazard_coords !! HazardDetection.id h = Some (y, x))
    as Hlookup.
  { intros h Hh.
    destruct (HazardDetection.id <$> hazards) as [| id ids] eqn:Hids.
    { destruct hazards; [inversion Hh | discriminate]. }
    apply bind_Ok in Hcoords as (rows & Hrows & Hcoords).
    injection Hcoords as <-.
    pose proof (execute_Ok _ _ _ _ Hrows) as Hok'.
    unfold main.execute in Hrows. rewrite Hok' in Hrows.
    eapply (coords_dict_lookup HazardDetection.id HazardDetection.location);
      [exact Hkeys | exact Hrows | |].
    - eapply get_nearby_hazards_where in Hh as [Hh _]; [| exact Hhazards].
      exact Hh.
    - rewrite <- Hids. apply list_elem_of_fmap. eauto. }
  apply for_each_Ok in Hhazards_data.
  clear Hhazards Hcoords.
  induction Hhazards_data as [| h d hazards hazards_data Hd _ IH];
    [constructor |].
  constructor.
  - destruct (Hlookup h) as (x & y & Hlocation & Hcoords); [left |].
    apply bind_Ok in Hd as (score & Hscore & Hd). injection Hd as <-.
    simpl. rewrite Hcoords. simpl.
    split; [reflexivity |]. split; [| eauto].
    destruct (HazardDetection.confidence_score h); [| discriminate].
    injection Hscore as ->. reflexivity.
  - apply IH. intros h' Hh'. apply Hlookup. right. exact Hh'.
Qed.

(** X20 on the small store: the two hazards that are active at time 200,
    the nearer one first, at their own coordinates. *)
Lemma navigation_places_hazards_witness :
  ∃ data,
    @main.get_navigation_data_nearby flat_PostGIS (λ _, None) small_db 200%Z
      13.0830 80.2705 500 = Ok data
    ∧ main.HazardData.latitude <$> main.NavigationData.hazards data
      = [Some 13.0831; Some 13.0832]
    ∧ Forall2
        (λ h d,
           main.HazardData.id d = HazardDetection.id h
           ∧ HazardDetection.confidence_score h
             = Some (main.HazardData.confidence_score d)
           ∧ ∃ x y,
               HazardDetection.location h = POINT x y
               ∧ main.HazardData.latitude d = Some y
               ∧ main.HazardData.longitude d = Some x)
        [hazard_c; hazard_a] (main.NavigationData.hazards data).
Proof.
  assert (∃ data,
            @main.get_navigation_data_nearby flat_PostGIS (λ _, None) small_db
              200%Z 13.0830 80.2705 500 = Ok data
            ∧ main.HazardData.latitude <$> main.NavigationData.hazards data
              = [Some 13.0831; Some 13.0832])
    as (data & Hdata & Hlatitudes)
    by (eexists; split; vm_compute; reflexivity).
  exists data. split; [exact Hdata |]. split; [exact Hlatitudes |].
  apply (@navigation_places_hazards flat_PostGIS (λ _, None) small_db 200%Z
           13.0830 80.2705 500 [hazard_c; hazard_a] data).
  - apply (bool_decide_unpack _). vm_compute. exact I.
  - vm_compute. reflexivity.
  - exact Hdata.
Defined.

(** ** The cameras endpoint *)

Lemma omap_all {A B} (f : A → option B) (P : A → B → Prop) (l : list A) :
  Forall (λ x, ∃ y, f x = Some y ∧ P x y) l → Forall2 P l (omap f l).
Proof.
  induction 1 as [| x l (y & Hy & HP) _ IH]; [constructor |].
  simpl. rewrite Hy. constructor; assumption.
Qed.

(** X21.  [get_cameras_nearby], asked within the bounds of its parameters
    on a table of points with distinct identifiers, answers when the
    database fails no statement: with one entry for each camera that the
    nearby query returns, in its order, at the camera's own coordinates;
    the count is the number of entries and at most the limit; and a camera
    without a score is listed with the score 0. *)
Theorem get_cameras_nearby_answers `{PostGIS} db latitude longitude
    radius_meters limit min_confidence verified_only :
  (-90 <= latitude ∧ latitude <= 90)
  ∧ (-180 <= longitude ∧ longitude <= 180)
  ∧ (0 < radius_meters ∧ radius_meters <= 100000)
  ∧ (0 < limit ∧ limit ≤ 500)%Z
  ∧ (0.0 <= min_confidence ∧ min_confidence <= 1.0) →
  NoDup (SpeedCamera.id <$> speed_cameras db) →
  Forall (λ c, ∃ x y, SpeedCamera.location c = POINT x y) (speed_cameras db) →
  ∃ cameras result,
    queries.get_nearby_speed_cameras db latitude longitude radius_meters
      min_confidence verified_only limit = Ok cameras
    ∧ main.get_cameras_nearby (λ _, None) db latitude longitude radius_meters
        limit min_confidence verified_only = Ok result
    ∧ main.CamerasNearby.count result
      = length (main.CamerasNearby.cameras result)
    ∧ (Z.of_nat (main.CamerasNearby.count result) ≤ limit)%Z
    ∧ Forall2
        (λ c entry,
           main.CameraEntry.id entry = SpeedCamera.id c
           ∧ SpeedCamera.location c
             = POINT (main.CameraEntry.longitude entry)
                 (main.CameraEntry.latitude entry)
           ∧ main.CameraEntry.confidence_score entry
             = default 0 (SpeedCamera.confidence_score c)
           ∧ main.CameraEntry.reported_by entry = SpeedCamera.reported_by c)
        cameras (main.CamerasNearby.cameras result).
Proof.
  intros Hbounds Hkeys Hpoints.
  destruct (proj1 (get_nearby_speed_cameras_returns db latitude longitude
                     radius_meters min_confidence verified_only limit))
    as [cameras Hcameras]; [lia |].
  exists cameras.
  unfold main.get_cameras_nearby. rewrite decide_True by exact Hbounds.
  cbv beta iota zeta. rewrite Hcameras, Ok_bind.
  assert (∃ coords_dict : gmap UUID (Q * Q),
            match SpeedCamera.id <$> cameras with
            | [] => mret (∅ : gmap UUID (Q * Q))
            | _ =>
                coords_result ←
                  for_each
                    (λ c, lat ← ST_Y (SpeedCamera.location c);
                          lon ← ST_X (SpeedCamera.location c);
                          mret (SpeedCamera.id c, (lat, lon)))
                    (filter (λ c, SpeedCamera.id c
                                  ∈ SpeedCamera.id <$> cameras)
                       (speed_cameras db));
                mret (foldl (λ coords row, <[ row.1 := row.2 ]> coords) ∅
                        coords_result)
            end = Ok coords_dict
            ∧ ∀ c, c ∈ cameras →
                ∃ x y, SpeedCamera.location c = POINT x y
                       ∧ coords_dict !! SpeedCamera.id c = Some (y, x))
    as (coords_dict & Hcoords & Hlookup).
  { destruct (for_each_returns
                (λ c, lat ← ST_Y (SpeedCamera.location c);
                      lon ← ST_X (SpeedCamera.location c);
                      mret (SpeedCamera.id c, (lat, lon)))
                (filter (λ c, SpeedCamera.id c ∈ SpeedCamera.id <$> cameras)
                   (speed_cameras db))) as [rows Hrows].
    { apply Forall_forall. intros c [_ Hc]%list_elem_of_filter.
      destruct (proj1 (Forall_forall _ _) Hpoints c Hc) as (x & y & ->).
      eexists. reflexivity. }
    destruct (SpeedCamera.id <$> cameras) as [| id ids] eqn:Hids.
    { exists ∅. split; [reflexivity |]. intros c Hc.
      destruct cameras; [inversion Hc | discriminate]. }
    rewrite Hrows. eexists. split; [reflexivity |]. intros c Hc.
    eapply (coords_dict_lookup SpeedCamera.id SpeedCamera.location);
      [exact Hkeys | exact Hrows | |].
    - eapply get_nearby_speed_cameras_where in Hc as [Hc _];
        [| exact Hcameras].
      exact Hc.
    - rewrite <- Hids. apply list_elem_of_fmap. eauto. }
  cbv beta. rewrite Hcoords, Ok_bind. cbv beta.
  eexists. split; [reflexivity |]. split; [reflexivity |].
  split; [reflexivity |]. simpl.
  match goal with
  | |- _ ∧ Forall2 ?P cameras (omap ?f cameras) =>
      assert (Forall2 P cameras (omap f cameras)) as Hentries
  end.
  { apply omap_all. apply Forall_forall. intros c Hc.
    destruct (Hlookup c Hc) as (x & y & Hlocation & ->).
    eexists. split; [reflexivity |]. simpl. repeat split. exact Hlocation. }
  split; [| exact Hentries].
  rewrite <- (Forall2_length _ _ _ Hentries).
  apply order_by_distance_limit_length in Hcameras. exact Hcameras.
Qed.

(** X21 on the small store and on a camera without a score. *)
Lemma get_cameras_nearby_answers_witness :
  let unscored :=
    {| SpeedCamera.id := 5%N;
       SpeedCamera.location := ST_MakePoint 80.2705 13.0830;
       SpeedCamera.speed_limit_kmh := 60;
       SpeedCamera.camera_type := "fixed";
       SpeedCamera.direction_degrees := None;
       SpeedCamera.verified := Some false;
       SpeedCamera.verification_count := Some 0%Z;
       SpeedCamera.confidence_score := None;
       SpeedCamera.reported_by := None;
       SpeedCamera.notes := None |} in
  let db := with_speed_cameras small_db [camera_a; unscored] in
  ∃ cameras result,
    @queries.get_nearby_speed_cameras flat_PostGIS db 13.0830 80.2705 500 0
      false 50 = Ok cameras
    ∧ @main.get_cameras_nearby flat_PostGIS (λ _, None) db 13.0830 80.2705 500 50
        0 false = Ok result
    ∧ main.CamerasNearby.count result
      = length (main.CamerasNearby.cameras result)
    ∧ (Z.of_nat (main.CamerasNearby.count result) ≤ 50)%Z
    ∧ Forall2
        (λ c entry,
           main.CameraEntry.id entry = SpeedCamera.id c
           ∧ SpeedCamera.location c
             = POINT (main.CameraEntry.longitude entry)
                 (main.CameraEntry.latitude entry)
           ∧ main.CameraEntry.confidence_score entry
             = default 0 (SpeedCamera.confidence_score c)
           ∧ main.CameraEntry.reported_by entry = SpeedCamera.reported_by c)
        cameras (main.CamerasNearby.cameras result).
Proof.
  cbv zeta.
  apply (@get_cameras_nearby_answers flat_PostGIS _ 13.0830 80.2705 500 50 0
           false).
  - repeat split; try discriminate; lia.
  - apply (bool_decide_unpack _). vm_compute. exact I.
  - repeat constructor; eexists _, _; reflexivity.
Defined.

(** On that table the endpoint lists the camera without a score, with the
    score 0, where the navigation endpoint answers 500. *)
Example get_cameras_nearby_on_a_missing_score :
  let unscored :=
    {| SpeedCamera.id := 5%N;
       SpeedCamera.location := ST_MakePoint 80.2705 13.0830;
       SpeedCamera.speed_limit_kmh := 60;
       SpeedCamera.camera_type := "fixed";
       SpeedCamera.direction_degrees := None;
       SpeedCamera.verified := Some false;
       SpeedCamera.verification_count := Some 0%Z;
       SpeedCamera.confidence_score := None;
       SpeedCamera.reported_by := None;
       SpeedCamera.notes := None |} in
  let db := with_speed_cameras small_db [camera_a; unscored] in
  ∃ result,
    @main.get_cameras_nearby flat_PostGIS (λ _, None) db 13.0830 80.2705 500 50
      0 false = Ok result
    ∧ main.CameraEntry.id <$> main.CamerasNearby.cameras result = [5%N; 1%N]
    ∧ main.CameraEntry.confidence_score <$> main.CamerasNearby.cameras result
      = [0; 0.80]
    ∧ @main.get_cameras_nearby flat_PostGIS (λ _, None) db 13.0830 80.2705 500
        501 0 false
      = Raise (RequestValidationError
                 "Input should be within the bounds of the query parameter").
Proof. eexists. split; [vm_compute; reflexivity |]. vm_compute. repeat split. Qed.

(** ** Zones created through the API, and the import *)

(** X22.  A zone created through [create_school_zone] or
    [create_hospital_zone] has no external identifier, and the import does
    not see it: [import_zones] imports as many zones, with the same
    identifiers, as it does without that zone, also when an element of the
    file lies at the point of the zone. *)
Theorem api_zones_are_invisible_to_import uuid4 school_id hospital_id schools
    hospitals latitude longitude name address elements zone_type :
  let session :=
    {| import_zones.SchoolZone := session_of schools;
       import_zones.HospitalZone := session_of hospitals |} in
  let session' :=
    {| import_zones.SchoolZone :=
         (queries.create_school_zone school_id (session_of schools) latitude
            longitude name address).1;
       import_zones.HospitalZone :=
         (queries.create_hospital_zone hospital_id (session_of hospitals)
            latitude longitude name address).1 |} in
  let run := import_zones.import_zones uuid4 session elements zone_type in
  let run' := import_zones.import_zones uuid4 session' elements zone_type in
  run'.2 = run.2
  ∧ ∃ zone new new',
      Zone.location zone = ST_MakePoint longitude latitude
      ∧ Zone.osm_id zone = None
      ∧ table (selected zone_type run.1)
        = table (selected zone_type session) ++ new
      ∧ table (selected zone_type run'.1)
        = table (selected zone_type session) ++ zone :: new'
      ∧ Zone.osm_id <$> new' = Zone.osm_id <$> new.
Proof.
  intros session session' run run'.
  destruct (import_zones_rows uuid4 zone_type session elements)
    as (new & Hrows & _ & Hids & Hcount).
  destruct (import_zones_rows uuid4 zone_type session' elements)
    as (new' & Hrows' & _ & Hids' & Hcount').
  fold run in Hrows, Hcount. fold run' in Hrows', Hcount'.
  assert (import_zones.existing_ids session' zone_type
          = import_zones.existing_ids session zone_type) as Hexisting.
  { apply leibniz_equiv. intros s. rewrite !existing_ids_spec.
    unfold session', session, selected, queries.create_school_zone,
      queries.create_hospital_zone.
    destruct (decide (zone_type = "school")); simpl;
      rewrite fmap_app, elem_of_app; simpl;
      (split; [intros [Hs [Hstored | Hnew]] | intros [Hs Hstored]]);
      try (split; [exact Hs |]); try exact Hstored;
      try (left; exact Hstored);
      apply list_elem_of_singleton in Hnew; discriminate Hnew. }
  rewrite Hexisting in Hids'.
  assert (Zone.osm_id <$> new' = Zone.osm_id <$> new) as Hsame
    by (rewrite Hids', Hids; reflexivity).
  split.
  { rewrite Hcount', Hcount.
    rewrite <- (length_fmap Zone.osm_id new'), Hsame. apply length_fmap. }
  rewrite Hrows, Hrows'.
  unfold session', session, selected, queries.create_school_zone,
    queries.create_hospital_zone.
  destruct (decide (zone_type = "school")); simpl;
    rewrite all_rows_commit, all_rows_add, !all_rows_session_of, <- app_assoc;
    eexists _, new, new';
    (split; [| split; [| split; [reflexivity | split; [reflexivity |]]]]);
    try exact Hsame; reflexivity.
Qed.

(** A school created through the API and a node of the file at the same
    point: the import stores the node beside it. *)
Example api_zone_and_import_at_one_point :
  let node :=
    {| import_zones.type := Some "node"; import_zones.id := Some 101%Z;
       import_zones.lat := Some 13.05; import_zones.lon := Some 80.25;
       import_zones.tags := {[ "name" := "St. Mary's School" ]} |} in
  let created :=
    (queries.create_school_zone 9%N (session_of []) 13.05 80.25
       "St. Mary's School" None).1 in
  let run :=
    import_zones.import_zones N.of_nat
      {| import_zones.SchoolZone := created;
         import_zones.HospitalZone := session_of [] |} [node] "school" in
  run.2 = 1%nat
  ∧ Zone.location <$> table (import_zones.SchoolZone run.1)
    = [ST_MakePoint 80.25 13.05; ST_MakePoint 80.25 13.05]
  ∧ Zone.osm_id <$> table (import_zones.SchoolZone run.1) = [None; Some "101"].
Proof. vm_compute. repeat split. Qed.

(** X24 on a file with a stored and a repeated identifier. *)
Lemma import_zones_keeps_osm_id_unique_witness :
  let node id :=
    {| import_zones.type := Some "node"; import_zones.id := Some id;
       import_zones.lat := Some 13.05; import_zones.lon := Some 80.25;
       import_zones.tags := ∅ |} in
  let stored :=
    {| Zone.id := 9%N; Zone.location := ST_MakePoint 80.25 13.05;
       Zone.name := None; Zone.address := None; Zone.osm_id := Some "101" |} in
  let session :=
    {| import_zones.SchoolZone := session_of [stored];
       import_zones.HospitalZone := session_of [] |} in
  let run :=
    import_zones.import_zones N.of_nat session
      [node 101%Z; node 102%Z; node 102%Z] "school" in
  omap Zone.osm_id (table (import_zones.SchoolZone run.1)) = ["101"; "102"]
  ∧ NoDup (omap Zone.osm_id (table (selected "school" run.1))).
Proof.
  split; [vm_compute; reflexivity |].
  apply (import_zones_keeps_osm_id_unique N.of_nat "school").
  apply (bool_decide_unpack _). vm_compute. exact I.
Defined.

(** ** The import script, run again *)

Section main_again.

Context `{PostGIS} `{Python}.

(** PostGIS puts a point within 10 meters of itself. *)
Hypothesis ST_DWithin_self :
  ∀ longitude latitude,
    ST_DWithin (ST_MakePoint longitude latitude)
      (ST_MakePoint longitude latitude) 10.0.

Variable uuid4 : nat → UUID.



End main_again.




(** ** Accounts and tokens *)

(** A unique key: the row with a given key is the only one that a SELECT
    on the key finds. *)
Lemma select_by_key {A K} `{EqDecision K} (key : A → K) (rows : list A) r :
  NoDup (key <$> rows) → r ∈ rows →
  filter (λ r', key r' = key r) rows = [r].
Proof.
  induction rows as [| r' rows IH]; intros Hkeys Hr.
  - inversion Hr.
  - rewrite fmap_cons in Hkeys. apply NoDup_cons in Hkeys as [Hfresh Hkeys].
    rewrite filter_cons. apply elem_of_cons in Hr as [<- | Hr].
    + rewrite decide_True by reflexivity. f_equal.
      apply filter_none, Forall_forall. intros r' Hr' Heq.
      apply Hfresh. rewrite <- Heq. apply list_elem_of_fmap. eauto.
    + rewrite decide_False; [apply IH; assumption |].
      intros Heq. apply Hfresh. rewrite Heq. apply list_elem_of_fmap. eauto.
Qed.

Lemma select_unknown_key {A K} `{EqDecision K} (key : A → K) (rows : list A) k :
  k ∉ key <$> rows → filter (λ r, key r = k) rows = [].
Proof.
  intros Hk. apply filter_none, Forall_forall. intros r Hr Heq.
  apply Hk. rewrite <- Heq. apply list_elem_of_fmap. eauto.
Qed.

Lemma select_known_key {A K} `{EqDecision K} (key : A → K) (rows : list A) k :
  NoDup (key <$> rows) → k ∈ key <$> rows →
  ∃ r, r ∈ rows ∧ key r = k ∧ filter (λ r, key r = k) rows = [r].
Proof.
  intros Hkeys (r & -> & Hr)%list_elem_of_fmap.
  exists r. split; [exact Hr |]. split; [reflexivity |].
  apply select_by_key; assumption.
Qed.



(** Only the first 72 bytes of a password are hashed. *)
Lemma password_to_bcrypt_bytes_take `{Crypto} password :
  main._password_to_bcrypt_bytes password
  = sha256_hexdigest
      (String.string_of_list_ascii
         (take 72 (String.list_ascii_of_string password))).
Proof.
  unfold main._password_to_bcrypt_bytes.
  destruct (decide (72 < length (String.list_ascii_of_string password))%nat);
    [reflexivity |].
  rewrite take_ge by lia. reflexivity.
Qed.

(** X26.  The token is the identifier of the user: [get_current_user]
    accepts a token exactly when it parses to the identifier of a stored
    account, and returns that account's user; it looks at nothing else. *)
Theorem token_is_the_user_id `{Python} rows token user :
  NoDup ((λ u, User.id (User.user u)) <$> rows) →
  main.get_current_user (session_of rows) token = Ok user
  ↔ ∃ u, u ∈ rows
         ∧ py_UUID token = Some (User.id (User.user u))
         ∧ user = User.user u.
Proof.
  intros Hids. unfold main.get_current_user.
  change (table (session_of rows)) with rows.
  destruct (py_UUID token) as [user_id |]; [| split].
  - destruct (decide (user_id ∈ (λ u, User.id (User.user u)) <$> rows))
      as [Hknown | Hunknown].
    + destruct (select_known_key (λ u, User.id (User.user u)) rows _ Hids
                  Hknown) as (u & Hu & Hid & ->).
      simpl. split.
      * intros [= <-]. exists u. rewrite Hid. auto.
      * intros (u' & Hu' & [= Hid'] & ->). do 2 f_equal.
        assert (filter (λ r, User.id (User.user r) = User.id (User.user u'))
                  rows = [u']) as Hu'_only
          by (apply (select_by_key (λ u, User.id (User.user u))); assumption).
        assert (filter (λ r, User.id (User.user r) = User.id (User.user u))
                  rows = [u]) as Hu_only
          by (apply (select_by_key (λ u, User.id (User.user u))); assumption).
        rewrite Hid, Hid' in Hu_only. congruence.
    + rewrite (select_unknown_key (λ u, User.id (User.user u)) rows _
                 Hunknown).
      simpl. split; [discriminate |].
      intros (u & Hu & [= ->] & _). destruct Hunknown.
      apply list_elem_of_fmap. eauto.
  - discriminate.
  - intros (u & _ & Htoken & _). discriminate.
Qed.

(** X26 on a table of one account. *)
Lemma token_is_the_user_id_witness :
  let row := account 7%N "driver@example.org" "driver" "$2b$s1$secret" in
  @main.get_current_user simple_Python (session_of [row]) "7" = Ok user_7
  ↔ ∃ u, u ∈ [row]
         ∧ @py_UUID simple_Python "7" = Some (User.id (User.user u))
         ∧ user_7 = User.user u.
Proof.
  apply (@token_is_the_user_id simple_Python
           [account 7%N "driver@example.org" "driver" "$2b$s1$secret"] "7"
           user_7).
  apply NoDup_singleton.
Defined.

(** X27.  Registering and logging in: after [register], [login] with the
    address and a password that has the same first 72 bytes as the one
    registered answers with a token, the token is the string of the new
    identifier, and [get_current_user] returns the new user for it.  The
    hypotheses on [bcrypt] are that a hash starts with "$2" and that
    [checkpw] accepts the password it was made from. *)
Theorem register_then_login `{Python} `{Crypto} str_UUID uuid4 now salt rows
    user_data password :
  let run :=
    main.register str_UUID uuid4 now salt (session_of rows) user_data in
  let hashed_password :=
    main.get_password_hash salt (main.UserRegister.password user_data) in
  NoDup ((λ u, User.email (User.user u)) <$> rows) →
  NoDup ((λ u, User.id (User.user u)) <$> rows) →
  main.UserRegister.email user_data ∉ (λ u, User.email (User.user u)) <$> rows →
  main.UserRegister.username user_data
  ∉ (λ u, User.username (User.user u)) <$> rows →
  uuid4 ∉ (λ u, User.id (User.user u)) <$> rows →
  py_UUID (str_UUID uuid4) = Some uuid4 →
  String.prefix "$2" hashed_password = true →
  bcrypt_checkpw
    (main._password_to_bcrypt_bytes (main.UserRegister.password user_data))
    hashed_password = Some true →
  take 72 (String.list_ascii_of_string password)
  = take 72 (String.list_ascii_of_string (main.UserRegister.password user_data)) →
  ∃ response,
    main.login str_UUID run.1
      {| main.UserLogin.email := main.UserRegister.email user_data;
         main.UserLogin.password := password |}
    = Ok response
    ∧ main.TokenResponse.access_token response = str_UUID uuid4
    ∧ main.get_current_user run.1 (main.TokenResponse.access_token response)
      = Ok {| User.id := uuid4;
              User.email := main.UserRegister.email user_data;
              User.username := main.UserRegister.username user_data |}.
Proof.
  intros run hashed_password Hemails Hids Hemail Husername Hid Htoken Hprefix
    Hcheck Hpassword.
  subst run. unfold main.register.
  change (table (session_of rows)) with rows.
  rewrite (select_unknown_key (λ u, User.email (User.user u)) rows _ Hemail).
  cbn [scalar_one_or_none].
  rewrite (select_unknown_key (λ u, User.username (User.user u)) rows _
             Husername).
  cbn [scalar_one_or_none fst snd].
  change (commit (add (session_of rows) ?u)) with (session_of (rows ++ [u])).
  fold hashed_password.
  set (u := {| User.user := _; User.password_hash := hashed_password |}).
  unfold main.login, main.get_current_user.
  change (table (session_of (rows ++ [u]))) with (rows ++ [u]).
  cbn [main.UserLogin.email main.UserLogin.password].
  assert (NoDup ((λ u, User.email (User.user u)) <$> rows ++ [u])) as Hemails'.
  { rewrite fmap_app. apply NoDup_app. split; [exact Hemails |].
    split; [| apply NoDup_singleton].
    intros x Hx ->%list_elem_of_singleton. exact (Hemail Hx). }
  assert (NoDup ((λ u, User.id (User.user u)) <$> rows ++ [u])) as Hids'.
  { rewrite fmap_app. apply NoDup_app. split; [exact Hids |].
    split; [| apply NoDup_singleton].
    intros x Hx ->%list_elem_of_singleton. exact (Hid Hx). }
  assert (u ∈ rows ++ [u]) as Hu by (apply elem_of_app; right; left).
  assert (filter (λ u', User.email (User.user u')
                        = main.UserRegister.email user_data) (rows ++ [u])
          = [u]) as Hby_email
    by exact (select_by_key (λ u, User.email (User.user u)) (rows ++ [u]) u
                Hemails' Hu).
  assert (filter (λ u', User.id (User.user u') = uuid4) (rows ++ [u]) = [u])
    as Hby_id
    by exact (select_by_key (λ u, User.id (User.user u)) (rows ++ [u]) u
                Hids' Hu).
  rewrite Hby_email. cbn [scalar_one_or_none]. rewrite Ok_bind.
  assert (main.verify_password password (User.password_hash u) = true)
    as Hverify.
  { unfold main.verify_password.
    change (User.password_hash u) with hashed_password.
    rewrite Hprefix. simpl negb. rewrite orb_false_r.
    rewrite bool_decide_eq_false_2.
    - rewrite password_to_bcrypt_bytes_take, Hpassword,
        <- password_to_bcrypt_bytes_take, Hcheck. reflexivity.
    - intros Hempty. rewrite Hempty in Hprefix. discriminate Hprefix. }
  rewrite Hverify. cbn [negb User.is_active u default].
  eexists. split; [reflexivity |]. split; [reflexivity |].
  cbn [main.TokenResponse.access_token User.id User.user u].
  rewrite Htoken, Hby_id. reflexivity.
Qed.

(** X27 on a table of one account: a password of 80 bytes is registered,
    and its first 72 bytes log in. *)
Lemma register_then_login_witness :
  let long :=
    "0123456789012345678901234567890123456789012345678901234567890123456789AB" in
  let rows := [account 7%N "driver@example.org" "driver" "$2b$s1$secret"] in
  let user_data :=
    {| main.UserRegister.email := "other@example.org";
       main.UserRegister.username := "other";
       main.UserRegister.password := long +:+ "CDEFGHIJ";
       main.UserRegister.full_name := None |} in
  let run :=
    @main.register simple_Crypto pretty 8%N 100%Z "s2" (session_of rows)
      user_data in
  ∃ response,
    @main.login simple_Crypto pretty run.1
      {| main.UserLogin.email := "other@example.org";
         main.UserLogin.password := long |}
    = Ok response
    ∧ main.TokenResponse.access_token response = pretty 8%N
    ∧ @main.get_current_user simple_Python run.1
        (main.TokenResponse.access_token response)
      = Ok {| User.id := 8%N; User.email := "other@example.org";
              User.username := "other" |}.
Proof.
  apply (@register_then_login simple_Python simple_Crypto pretty 8%N 100%Z "s2"
           [account 7%N "driver@example.org" "driver" "$2b$s1$secret"]
           {| main.UserRegister.email := "other@example.org";
              main.UserRegister.username := "other";
              main.UserRegister.password :=
                "0123456789012345678901234567890123456789012345678901234567890123456789AB"
                +:+ "CDEFGHIJ";
              main.UserRegister.full_name := None |}
           "0123456789012345678901234567890123456789012345678901234567890123456789AB").
  - apply NoDup_singleton.
  - apply NoDup_singleton.
  - apply (bool_decide_unpack _). vm_compute. exact I.
  - apply (bool_decide_unpack _). vm_compute. exact I.
  - apply (bool_decide_unpack _). vm_compute. exact I.
  - vm_compute. reflexivity.
  - vm_compute. reflexivity.
  - vm_compute. reflexivity.
  - vm_compute. reflexivity.
Defined.
